(** * Xianxia Idle 1.2.0: lifecycle and offline catch-up engine

    A shallow embedding of the lifecycle core of [js/main.js] (the 1.2.0
    game file): the karma and soft-cap formulas, the stage requirement,
    the aging step, the live tick and click, the offline replay, the
    breakthrough gate and the two reincarnation routines; around it the
    shop, the speed buttons and the production helpers of the completion
    simulator.

    Numbers.  A JavaScript number is modelled as an extended real: a real
    number, one of the two infinities, or NaN.  Arithmetic on finite
    values is exact real arithmetic, so rounding and overflow of binary64
    are idealised away; the non-finite values are kept because the source
    tests for them ([Number.isFinite], [isFinite], [x || d]).  Negative
    zero is not distinguished from zero.  Where a property turns on
    rounding, as the strict increase of the soft caps does, the functions
    are given a second time in binary64, with the rounding written out.

    Globals.  The mutable global [S], the global flag [isHandlingDeath]
    and the modal dialogs that hold a pending callback are collected in a
    record [World]; every function of the source that reads or writes
    them becomes a function on [World].  A dialog is recorded as an
    event; that [ModalManager] holds the game paused while a dialog is
    open, and puts the speed back when the last one closes, is left out,
    as are rendering, persistence to localStorage, achievements and
    audio. *)

From Stdlib Require Import Reals Lra Lia ZArith List Bool Sorted.
From stdpp Require Import gmap strings.
Import ListNotations.

Open Scope R_scope.

(** ** JavaScript numbers *)

Inductive num : Type :=
| Fin (r : R)
| PInf
| NInf
| NaN.

Definition isFinite (x : num) : bool :=
  match x with Fin _ => true | _ => false end.

(** Truthiness of a number: [0] and [NaN] are falsy. *)
Definition truthy (x : num) : bool :=
  match x with
  | Fin r => if Req_dec_T r 0 then false else true
  | NaN => false
  | _ => true
  end.

(** [x || d] on numbers. *)
Definition orElse (x d : num) : num := if truthy x then x else d.

(** [x || d] where [x] may be [undefined]. *)
Definition optOrElse (x : option num) (d : num) : num :=
  match x with Some v => orElse v d | None => d end.

Definition sgn (r : R) : comparison :=
  if Rlt_dec 0 r then Gt else if Rlt_dec r 0 then Lt else Eq.

Definition infOf (c : comparison) : num :=
  match c with Gt => PInf | Lt => NInf | Eq => NaN end.

Definition nneg (x : num) : num :=
  match x with
  | Fin r => Fin (- r)
  | PInf => NInf
  | NInf => PInf
  | NaN => NaN
  end.

Definition nadd (x y : num) : num :=
  match x, y with
  | Fin a, Fin b => Fin (a + b)
  | NaN, _ | _, NaN => NaN
  | PInf, NInf | NInf, PInf => NaN
  | PInf, _ | _, PInf => PInf
  | NInf, _ | _, NInf => NInf
  end.

Definition nsub (x y : num) : num :=
  match x, y with
  | Fin a, Fin b => Fin (a - b)
  | _, _ => nadd x (nneg y)
  end.

Definition nmul (x y : num) : num :=
  match x, y with
  | Fin a, Fin b => Fin (a * b)
  | NaN, _ | _, NaN => NaN
  | Fin a, PInf | PInf, Fin a => infOf (sgn a)
  | Fin a, NInf | NInf, Fin a => infOf (sgn (- a))
  | PInf, PInf | NInf, NInf => PInf
  | PInf, NInf | NInf, PInf => NInf
  end.

Definition ndiv (x y : num) : num :=
  match x, y with
  | Fin a, Fin b => if Req_dec_T b 0 then infOf (sgn a) else Fin (a / b)
  | NaN, _ | _, NaN => NaN
  | Fin _, _ => Fin 0
  | PInf, Fin b => if Rlt_dec b 0 then NInf else PInf
  | NInf, Fin b => if Rlt_dec b 0 then PInf else NInf
  | _, _ => NaN
  end.

(** [x < y]; every comparison with [NaN] is false. *)
Definition nlt (x y : num) : bool :=
  match x, y with
  | Fin a, Fin b => if Rlt_dec a b then true else false
  | NaN, _ | _, NaN => false
  | _, NInf => false
  | NInf, _ => true
  | PInf, _ => false
  | Fin _, PInf => true
  end.

(** [x <= y]. *)
Definition nle (x y : num) : bool :=
  match x, y with
  | Fin a, Fin b => if Rle_dec a b then true else false
  | NaN, _ | _, NaN => false
  | NInf, _ => true
  | _, PInf => true
  | _, _ => false
  end.

Definition ngt (x y : num) : bool := nlt y x.
Definition nge (x y : num) : bool := nle y x.

(** [x === y] on numbers. *)
Definition neq (x y : num) : bool :=
  match x, y with
  | Fin a, Fin b => if Req_dec_T a b then true else false
  | PInf, PInf | NInf, NInf => true
  | _, _ => false
  end.

(** [Math.max(x, y)] and [Math.min(x, y)]: [NaN] as soon as one is. *)
Definition nmax (x y : num) : num :=
  match x, y with
  | Fin a, Fin b => Fin (Rmax a b)
  | NaN, _ | _, NaN => NaN
  | _, _ => if nlt x y then y else x
  end.

Definition nmin (x y : num) : num :=
  match x, y with
  | Fin a, Fin b => Fin (Rmin a b)
  | NaN, _ | _, NaN => NaN
  | _, _ => if nlt x y then x else y
  end.

(** [Math.floor], [Math.sqrt], [Math.exp]. *)
Definition nfloor (x : num) : num :=
  match x with Fin r => Fin (IZR (Zfloor r)) | _ => x end.

Definition nsqrt (x : num) : num :=
  match x with
  | Fin r => if Rlt_dec r 0 then NaN else Fin (sqrt r)
  | PInf => PInf
  | _ => NaN
  end.

Definition nexp (x : num) : num :=
  match x with
  | Fin r => Fin (exp r)
  | PInf => PInf
  | NInf => Fin 0
  | NaN => NaN
  end.

(** [Math.pow(b, n)] for a configured base and an integer exponent. *)
Definition npow (b : R) (n : Z) : num := Fin (powerRZ b n).

(** The literal [1e300] at which [safeAddQi] saturates the Qi stock. *)
Definition qiCeiling : R := 1e300.

(** [safeNum(v, d)]. *)
Definition safeNum (v : num) (d : num) : num :=
  if isFinite v then v else d.

(** An array read [a[i]] with an integer index; [None] is [undefined]. *)
Definition index {A : Type} (l : list A) (i : Z) : option A :=
  if (i <? 0)%Z then None else nth_error l (Z.to_nat i).

(** Sequencing of in-place updates: [s |> f |> g] runs [f], then [g]. *)
Notation "s |> f" := (f s) (at level 45, left associativity, only parsing).

(** ** Balance configuration ([BAL]) *)

Record SkillBal : Type := mkSkillBal {
  base : R;
  cost : R;
  costScale : R
}.

Record Balance : Type := mkBalance {
  (* BAL.skills *)
  breath_control : SkillBal;
  meridian_flow : SkillBal;
  lotus_meditation : SkillBal;
  dantian_temps : SkillBal;
  closed_door : SkillBal;
  (* BAL.stageRequirement *)
  realmBase : R;
  realmBaseScale : R;
  stageScale : R;
  (* BAL.progression *)
  qpcBaseStart : R;
  qpsBaseStart : R;
  qpcBaseAdd : R;
  qpsBaseAdd : R;
  (* BAL.reincarnation; deathPenalty is absent from the built-in table *)
  karmaPerUnit : R;
  lifetimeQiDivisor : R;
  realmKarmaFactor : R;
  minKarma : R;
  deathPenalty : option R;
  (* BAL.offline *)
  capHours : R;
  (* BAL.lifespan; an entry [None] is the source's null: infinite *)
  realmMaxLifespan : list (option R);
  yearsPerSecond : R;
  (* BAL.timeSpeed *)
  speeds : list R;
  unlockRealmIndex : list Z;
  (* BAL.cycleDefinitions.{mortal,spirit}.realms, absent by default *)
  mortalRealms : option (list Z);
  spiritRealms : option (list Z)
}.

(** The table written in the source, used when balance.json is absent. *)
Definition defaultBAL : Balance := {|
  breath_control := mkSkillBal 0.5 25 1.25;
  meridian_flow := mkSkillBal 1 50 1.27;
  lotus_meditation := mkSkillBal 0.15 150 1.35;
  dantian_temps := mkSkillBal 0.10 120 1.33;
  closed_door := mkSkillBal 0.20 200 1.40;
  realmBase := 100;
  realmBaseScale := 25;
  stageScale := 1.65;
  qpcBaseStart := 1;
  qpsBaseStart := 0;
  qpcBaseAdd := 1;
  qpsBaseAdd := 0.5;
  karmaPerUnit := 0.05;
  lifetimeQiDivisor := 1000;
  realmKarmaFactor := 2;
  minKarma := 1;
  deathPenalty := None;
  capHours := 12;
  realmMaxLifespan :=
    [Some 100; Some 200; Some 500; Some 1000; Some 3000; Some 10000;
     Some 30000; Some 100000; Some 300000; None];
  yearsPerSecond := 0.01;
  speeds := [0; 1; 2; 4; 6; 8; 10];
  unlockRealmIndex := [0; 0; 2; 4; 6; 8; 9]%Z;
  mortalRealms := None;
  spiritRealms := None
|}.

(** [realms.length] *)
Definition realms_length : Z := 10.

(** ** The game state ([S]) *)

Inductive Cycle : Type := mortal | spirit.

Inductive Mode : Type := voluntary | death | mandatory.

Record Reinc : Type := mkReinc {
  times : Z;
  karma : num;
  lifetimeQi : num
}.

(** [None] in a field is the source's null: an infinite lifespan. *)
Record Lifespan : Type := mkLifespan {
  ls_current : option num;
  ls_max : option num
}.

Record TimeSpeed : Type := mkTimeSpeed {
  ts_current : num;
  paused : bool
}.

Record Life : Type := mkLife { isCleanRun : bool }.

Record Flags : Type := mkFlags {
  unlockedBeyondSpirit : bool;
  hasUnlockedSpiritCycle : bool;
  hasCompletedMandatoryST10 : bool;
  canManualReincarnate : bool;
  lifespanHandled : bool
}.

Record Lifecycle : Type := mkLifecycle {
  isReincarnating : bool;
  lastDeathAt : Z;
  lastReincarnateAt : Z
}.

Record Stats : Type := mkStats { deaths : Z }.

Record Meta : Type := mkMeta { unlockedSpeeds : list num }.

Record Session : Type := mkSession {
  lastTs : Z;
  lastSpeed : num;
  lastRealmIndex : Z;
  lastQi : num
}.

(** [age] and [ageYears] may be missing ([None] is undefined): a fresh
    state has only [ageYears], the reset routines write [age]. [session]
    is [None] when the snapshot is null or absent. *)
Record State : Type := mkState {
  qi : num;
  qpcBase : num;
  qpsBase : num;
  qpcMult : num;
  qpsMult : num;
  offlineMult : num;
  realmIndex : Z;
  stage : Z;
  lastTick : Z;
  skills : gmap string Z;
  reinc : Reinc;
  lifespan : Lifespan;
  age : option num;
  ageYears : option num;
  isDead : bool;
  timeSpeed : TimeSpeed;
  currentCycle : Cycle;
  life : Life;
  flags : Flags;
  lifecycle : Lifecycle;
  stats : Stats;
  meta : Meta;
  session : option Session
}.

(** Field updates, one per assigned field. *)
Definition set_qi (v : num) (s : State) : State :=
  mkState v (qpcBase s) (qpsBase s) (qpcMult s) (qpsMult s) (offlineMult
    s) (realmIndex s) (stage s) (lastTick s) (skills s) (reinc s)
    (lifespan s) (age s) (ageYears s) (isDead s) (timeSpeed s)
    (currentCycle s) (life s) (flags s) (lifecycle s) (stats s) (meta s)
    (session s).

Definition set_qpcBase (v : num) (s : State) : State :=
  mkState (qi s) v (qpsBase s) (qpcMult s) (qpsMult s) (offlineMult s)
    (realmIndex s) (stage s) (lastTick s) (skills s) (reinc s) (lifespan
    s) (age s) (ageYears s) (isDead s) (timeSpeed s) (currentCycle s)
    (life s) (flags s) (lifecycle s) (stats s) (meta s) (session s).

Definition set_qpsBase (v : num) (s : State) : State :=
  mkState (qi s) (qpcBase s) v (qpcMult s) (qpsMult s) (offlineMult s)
    (realmIndex s) (stage s) (lastTick s) (skills s) (reinc s) (lifespan
    s) (age s) (ageYears s) (isDead s) (timeSpeed s) (currentCycle s)
    (life s) (flags s) (lifecycle s) (stats s) (meta s) (session s).

Definition set_realmIndex (v : Z) (s : State) : State :=
  mkState (qi s) (qpcBase s) (qpsBase s) (qpcMult s) (qpsMult s)
    (offlineMult s) v (stage s) (lastTick s) (skills s) (reinc s)
    (lifespan s) (age s) (ageYears s) (isDead s) (timeSpeed s)
    (currentCycle s) (life s) (flags s) (lifecycle s) (stats s) (meta s)
    (session s).

Definition set_stage (v : Z) (s : State) : State :=
  mkState (qi s) (qpcBase s) (qpsBase s) (qpcMult s) (qpsMult s)
    (offlineMult s) (realmIndex s) v (lastTick s) (skills s) (reinc s)
    (lifespan s) (age s) (ageYears s) (isDead s) (timeSpeed s)
    (currentCycle s) (life s) (flags s) (lifecycle s) (stats s) (meta s)
    (session s).

Definition set_lastTick (v : Z) (s : State) : State :=
  mkState (qi s) (qpcBase s) (qpsBase s) (qpcMult s) (qpsMult s)
    (offlineMult s) (realmIndex s) (stage s) v (skills s) (reinc s)
    (lifespan s) (age s) (ageYears s) (isDead s) (timeSpeed s)
    (currentCycle s) (life s) (flags s) (lifecycle s) (stats s) (meta s)
    (session s).

Definition set_reinc (v : Reinc) (s : State) : State :=
  mkState (qi s) (qpcBase s) (qpsBase s) (qpcMult s) (qpsMult s)
    (offlineMult s) (realmIndex s) (stage s) (lastTick s) (skills s) v
    (lifespan s) (age s) (ageYears s) (isDead s) (timeSpeed s)
    (currentCycle s) (life s) (flags s) (lifecycle s) (stats s) (meta s)
    (session s).

Definition set_lifespan (v : Lifespan) (s : State) : State :=
  mkState (qi s) (qpcBase s) (qpsBase s) (qpcMult s) (qpsMult s)
    (offlineMult s) (realmIndex s) (stage s) (lastTick s) (skills s)
    (reinc s) v (age s) (ageYears s) (isDead s) (timeSpeed s)
    (currentCycle s) (life s) (flags s) (lifecycle s) (stats s) (meta s)
    (session s).

Definition set_age (v : option num) (s : State) : State :=
  mkState (qi s) (qpcBase s) (qpsBase s) (qpcMult s) (qpsMult s)
    (offlineMult s) (realmIndex s) (stage s) (lastTick s) (skills s)
    (reinc s) (lifespan s) v (ageYears s) (isDead s) (timeSpeed s)
    (currentCycle s) (life s) (flags s) (lifecycle s) (stats s) (meta s)
    (session s).

Definition set_ageYears (v : option num) (s : State) : State :=
  mkState (qi s) (qpcBase s) (qpsBase s) (qpcMult s) (qpsMult s)
    (offlineMult s) (realmIndex s) (stage s) (lastTick s) (skills s)
    (reinc s) (lifespan s) (age s) v (isDead s) (timeSpeed s)
    (currentCycle s) (life s) (flags s) (lifecycle s) (stats s) (meta s)
    (session s).

Definition set_isDead (v : bool) (s : State) : State :=
  mkState (qi s) (qpcBase s) (qpsBase s) (qpcMult s) (qpsMult s)
    (offlineMult s) (realmIndex s) (stage s) (lastTick s) (skills s)
    (reinc s) (lifespan s) (age s) (ageYears s) v (timeSpeed s)
    (currentCycle s) (life s) (flags s) (lifecycle s) (stats s) (meta s)
    (session s).

Definition set_timeSpeed (v : TimeSpeed) (s : State) : State :=
  mkState (qi s) (qpcBase s) (qpsBase s) (qpcMult s) (qpsMult s)
    (offlineMult s) (realmIndex s) (stage s) (lastTick s) (skills s)
    (reinc s) (lifespan s) (age s) (ageYears s) (isDead s) v
    (currentCycle s) (life s) (flags s) (lifecycle s) (stats s) (meta s)
    (session s).

Definition set_currentCycle (v : Cycle) (s : State) : State :=
  mkState (qi s) (qpcBase s) (qpsBase s) (qpcMult s) (qpsMult s)
    (offlineMult s) (realmIndex s) (stage s) (lastTick s) (skills s)
    (reinc s) (lifespan s) (age s) (ageYears s) (isDead s) (timeSpeed s)
    v (life s) (flags s) (lifecycle s) (stats s) (meta s) (session s).

Definition set_life (v : Life) (s : State) : State :=
  mkState (qi s) (qpcBase s) (qpsBase s) (qpcMult s) (qpsMult s)
    (offlineMult s) (realmIndex s) (stage s) (lastTick s) (skills s)
    (reinc s) (lifespan s) (age s) (ageYears s) (isDead s) (timeSpeed s)
    (currentCycle s) v (flags s) (lifecycle s) (stats s) (meta s)
    (session s).

Definition set_flags (v : Flags) (s : State) : State :=
  mkState (qi s) (qpcBase s) (qpsBase s) (qpcMult s) (qpsMult s)
    (offlineMult s) (realmIndex s) (stage s) (lastTick s) (skills s)
    (reinc s) (lifespan s) (age s) (ageYears s) (isDead s) (timeSpeed s)
    (currentCycle s) (life s) v (lifecycle s) (stats s) (meta s)
    (session s).

Definition set_lifecycle (v : Lifecycle) (s : State) : State :=
  mkState (qi s) (qpcBase s) (qpsBase s) (qpcMult s) (qpsMult s)
    (offlineMult s) (realmIndex s) (stage s) (lastTick s) (skills s)
    (reinc s) (lifespan s) (age s) (ageYears s) (isDead s) (timeSpeed s)
    (currentCycle s) (life s) (flags s) v (stats s) (meta s) (session
    s).

Definition set_stats (v : Stats) (s : State) : State :=
  mkState (qi s) (qpcBase s) (qpsBase s) (qpcMult s) (qpsMult s)
    (offlineMult s) (realmIndex s) (stage s) (lastTick s) (skills s)
    (reinc s) (lifespan s) (age s) (ageYears s) (isDead s) (timeSpeed s)
    (currentCycle s) (life s) (flags s) (lifecycle s) v (meta s)
    (session s).

Definition set_meta (v : Meta) (s : State) : State :=
  mkState (qi s) (qpcBase s) (qpsBase s) (qpcMult s) (qpsMult s)
    (offlineMult s) (realmIndex s) (stage s) (lastTick s) (skills s)
    (reinc s) (lifespan s) (age s) (ageYears s) (isDead s) (timeSpeed s)
    (currentCycle s) (life s) (flags s) (lifecycle s) (stats s) v
    (session s).

Definition set_session (v : option Session) (s : State) : State :=
  mkState (qi s) (qpcBase s) (qpsBase s) (qpcMult s) (qpsMult s)
    (offlineMult s) (realmIndex s) (stage s) (lastTick s) (skills s)
    (reinc s) (lifespan s) (age s) (ageYears s) (isDead s) (timeSpeed s)
    (currentCycle s) (life s) (flags s) (lifecycle s) (stats s) (meta s)
    v.

Definition set_lifetimeQi (v : num) (r : Reinc) : Reinc :=
  mkReinc (times r) (karma r) v.

Definition set_ls_current (v : option num) (l : Lifespan) : Lifespan :=
  mkLifespan v (ls_max l).

Definition set_ts_current (v : num) (t : TimeSpeed) : TimeSpeed :=
  mkTimeSpeed v (paused t).

Definition set_paused (v : bool) (t : TimeSpeed) : TimeSpeed :=
  mkTimeSpeed (ts_current t) v.

Definition set_lifespanHandled (v : bool) (f : Flags) : Flags :=
  mkFlags (unlockedBeyondSpirit f) (hasUnlockedSpiritCycle f)
    (hasCompletedMandatoryST10 f) (canManualReincarnate f) v.

Definition set_isReincarnating (v : bool) (l : Lifecycle) : Lifecycle :=
  mkLifecycle v (lastDeathAt l) (lastReincarnateAt l).

Definition set_lastDeathAt (v : Z) (l : Lifecycle) : Lifecycle :=
  mkLifecycle (isReincarnating l) v (lastReincarnateAt l).

Definition set_lastReincarnateAt (v : Z) (l : Lifecycle) : Lifecycle :=
  mkLifecycle (isReincarnating l) (lastDeathAt l) v.

(** ** Dialogs and the world around [S] *)

(** The dialogs the modelled functions open.  A confirm dialog holds a
    callback that runs when the player accepts; the alert of
    [handleLifespanEnd] holds the rest of that async function. *)
Inductive Event : Type :=
| ConfirmSpiritGate                    (* showSpiritTransformationGate *)
| ConfirmCycleCompletion (final : bool) (* showCycleCompletionModal *)
| ConfirmVoluntary                     (* tryManualReincarnate, allowed *)
| ModalLocked                          (* tryManualReincarnate, refused *)
| AlertDeath (gain : num)              (* handleLifespanEnd *)
| ModalReincarnated (m : Mode) (gain total : num)
| ModalSpiritCycleBegins
| ModalOfflineGains (qiGains yearsPassed : num).

Record World : Type := mkWorld {
  state : State;             (* the global S *)
  isHandlingDeath : bool;    (* the global isHandlingDeath *)
  awaitingDeath : option num; (* gain held by the open death alert *)
  ui : list Event            (* dialogs opened so far, oldest first *)
}.

Definition set_state (v : State) (w : World) : World :=
  mkWorld v (isHandlingDeath w) (awaitingDeath w) (ui w).

Definition set_isHandlingDeath (v : bool) (w : World) : World :=
  mkWorld (state w) v (awaitingDeath w) (ui w).

Definition set_awaitingDeath (v : option num) (w : World) : World :=
  mkWorld (state w) (isHandlingDeath w) v (ui w).

(** Opening a dialog.  Only the dialog is recorded: [ModalManager] also
    sets [S.timeSpeed.paused] while the dialog is open and restores
    [paused] and [current] when the last dialog closes, which is outside
    this model; nothing below is stated about the pause flag of a world
    whose dialog is still open. *)
Definition show (e : Event) (w : World) : World :=
  mkWorld (state w) (isHandlingDeath w) (awaitingDeath w) (ui w ++ [e]).

(** Run an update of [S] inside the world. *)
Definition onS (f : State -> State) (w : World) : World :=
  set_state (f (state w)) w.

(** ** Karma and power scaling (soft caps) *)

(** The three soft caps in the arithmetic of [num]: [Math.exp] and the
    operations around it are exact.  What is proved from them further
    down (bounds, and that more karma never makes a requirement higher
    or a life shorter) does not turn on rounding; that they increase
    strictly does, and is settled on the binary64 versions below. *)
Definition karmaQiMult (k : num) : num :=
  nadd (Fin 1) (nmul (Fin 1.2) (nsub (Fin 1) (nexp (nmul (Fin (-0.04)) k)))).

Definition karmaLifeMult (k : num) : num :=
  nadd (Fin 1) (nmul (Fin 1.5) (nsub (Fin 1) (nexp (nmul (Fin (-0.03)) k)))).

Definition karmaStageMult (k : num) : num :=
  nadd (Fin 1) (nmul (Fin 0.6) (nsub (Fin 1) (nexp (nmul (Fin (-0.03)) k)))).

(** ** The soft caps in binary64

    The three functions above take [Math.exp] and the arithmetic around
    it as exact.  What they say about a strict increase does not survive
    rounding, so the soft caps are given a second time, as binary64
    computes them: every literal and every result rounded to the nearest
    double, ties to even.  A double is a real number on the binary64
    grid; overflow and the non-finite values play no role at the
    magnitudes of a soft cap. *)

(** [floor(log2 |x|)], the binade of [x]. *)
Definition binade (x : R) : Z := Zfloor (ln (Rabs x) / ln 2).

(** The spacing of the doubles in the binade of [x]; below [2^-1022] it
    is the spacing of the subnormal numbers. *)
Definition ulp64 (x : R) : R := powerRZ 2 (Z.max (binade x) (-1022) - 52).

(** The nearest integer, a tie going to the even one. *)
Definition nearestEven (x : R) : Z :=
  let f := Zfloor x in
  if Rlt_dec (x - IZR f) (1 / 2) then f
  else if Rlt_dec (1 / 2) (x - IZR f) then (f + 1)%Z
  else if Z.even f then f else (f + 1)%Z.

(** The double nearest to [x]. *)
Definition round64 (x : R) : R :=
  if Req_dec_T x 0 then 0 else IZR (nearestEven (x / ulp64 x)) * ulp64 x.

Definition fadd (x y : R) : R := round64 (x + y).
Definition fsub (x y : R) : R := round64 (x - y).
Definition fmul (x y : R) : R := round64 (x * y).

(** [karmaQiMult], [karmaLifeMult] and [karmaStageMult] on doubles.
    [Math.exp] is implementation-approximated, so it is a parameter. *)
Definition karmaQiMult64 (Math_exp : R -> R) (karma : R) : R :=
  fadd 1 (fmul (round64 1.2) (fsub 1 (Math_exp (fmul (- round64 0.04) karma)))).

Definition karmaLifeMult64 (Math_exp : R -> R) (karma : R) : R :=
  fadd 1 (fmul (round64 1.5) (fsub 1 (Math_exp (fmul (- round64 0.03) karma)))).

Definition karmaStageMult64 (Math_exp : R -> R) (karma : R) : R :=
  fadd 1 (fmul (round64 0.6) (fsub 1 (Math_exp (fmul (- round64 0.03) karma)))).

(** The correctly rounded exponential, the most accurate [Math.exp]
    there can be. *)
Definition exp64 (x : R) : R := round64 (exp x).

(** [CYCLES]: mortal is realms 0..4, spirit is realms 5..9. *)
Definition cyclePowerMult (realmIndex : Z) : num :=
  let inMortal := ((0 <=? realmIndex) && (realmIndex <=? 4))%Z in
  let inSpirit := ((5 <=? realmIndex) && (realmIndex <=? 9))%Z in
  let idxInCycle :=
    if inMortal then (realmIndex - 0)%Z
    else if inSpirit then (realmIndex - 5)%Z else 0%Z in
  let add :=
    if inMortal then 0.20 * IZR idxInCycle
    else if inSpirit then 0.40 * IZR idxInCycle else 0 in
  Fin (1 + add).

Section Game.

Variable BAL : Balance.

(** ** Skills and production *)

Definition getSkillCatalog : list (string * SkillBal) :=
  [ ("breath_control"%string, breath_control BAL);
    ("meridian_flow"%string, meridian_flow BAL);
    ("lotus_meditation"%string, lotus_meditation BAL);
    ("dantian_temps"%string, dantian_temps BAL);
    ("closed_door"%string, closed_door BAL) ].

Definition getSkill (id : string) : option SkillBal :=
  snd <$> List.find (fun s => String.eqb (fst s) id) getSkillCatalog.

(** [getSkill(id).base]; the source throws on an unknown id, which the
    five literal ids used below never are. *)
Definition baseEff (id : string) : num :=
  match getSkill id with Some sk => Fin (base sk) | None => NaN end.

(** [S.skills[id] || 0] *)
Definition skillLevel (s : State) (id : string) : num :=
  Fin (IZR (default 0%Z (skills s !! id))).

Definition totalQPC (s : State) : num :=
  let val := qpcBase s in
  let qpcAdd := nmul (skillLevel s "meridian_flow") (baseEff "meridian_flow") in
  let val := nadd val qpcAdd in
  let qpcMult_ :=
    nadd (Fin 1) (nmul (skillLevel s "dantian_temps") (baseEff "dantian_temps")) in
  let karmaMult := karmaQiMult (karma (reinc s)) in
  let cycleMult := cyclePowerMult (realmIndex s) in
  nmul (nmul (nmul (nmul val qpcMult_) (qpcMult s)) karmaMult) cycleMult.

Definition totalQPS (s : State) : num :=
  let val := qpsBase s in
  let val :=
    nadd val (nmul (skillLevel s "breath_control") (baseEff "breath_control")) in
  let mult :=
    nadd (Fin 1)
      (nmul (skillLevel s "lotus_meditation") (baseEff "lotus_meditation")) in
  let karmaMult := karmaQiMult (karma (reinc s)) in
  let cycleMult := cyclePowerMult (realmIndex s) in
  nmul (nmul (nmul (nmul val mult) (qpsMult s)) karmaMult) cycleMult.

Definition totalOfflineMult (s : State) : num :=
  nadd (Fin 1) (nmul (skillLevel s "closed_door") (baseEff "closed_door")).

Definition safeAddQi (x : num) (s : State) : State :=
  if negb (isFinite x) || nle x (Fin 0) then s
  else s |> set_qi (nmax (Fin 0) (nmin (nadd (qi s) x) (Fin qiCeiling))).

(** ** Stage requirement *)

Definition karmaStageBonus (s : State) : num :=
  ndiv (Fin 1.0) (karmaStageMult (karma (reinc s))).

Definition stageRequirement (s : State) (realmIndex stage : Z) : num :=
  let realmBase_ := nmul (Fin (realmBase BAL)) (npow (realmBaseScale BAL) realmIndex) in
  let stageScale_ := npow (stageScale BAL) (stage - 1) in
  let baseRequirement := nfloor (nmul realmBase_ stageScale_) in
  let karmaReduction := karmaStageBonus s in
  nfloor (nmul baseRequirement karmaReduction).

(** ** Cycles *)

Definition includesZ (l : list Z) (x : Z) : bool := existsb (Z.eqb x) l.

Definition updateCurrentCycle (s : State) : State :=
  let mortalRealms_ := default [0; 1; 2; 3; 4]%Z (mortalRealms BAL) in
  let spiritRealms_ := default [5; 6; 7; 8; 9]%Z (spiritRealms BAL) in
  if includesZ mortalRealms_ (realmIndex s) then s |> set_currentCycle mortal
  else if includesZ spiritRealms_ (realmIndex s) then s |> set_currentCycle spirit
  else s.

Definition isAtCycleEnd (s : State) : bool :=
  match currentCycle s with
  | mortal =>
      (realmIndex s =? 4)%Z && (stage s =? 10)%Z
      && negb (unlockedBeyondSpirit (flags s))
  | spirit => (realmIndex s =? 9)%Z && (stage s =? 10)%Z
  end.

Definition triggerCycleTransition (w : World) : World :=
  match currentCycle (state w) with
  | spirit => w |> show (ConfirmCycleCompletion true)
  | mortal => w |> show (ConfirmCycleCompletion false)
  end.

(** ** Karma gained by a transition *)

Definition canReincarnate (s : State) : bool :=
  let ST_INDEX := 4%Z in
  let r := realmIndex s in
  let st := stage s in
  if negb (hasCompletedMandatoryST10 (flags s)) then false
  else (ST_INDEX <? r)%Z || ((r =? ST_INDEX)%Z && (1 <=? st)%Z).

Definition computeKarmaGain (s : State) : num :=
  let safeLifetimeQi := safeNum (lifetimeQi (reinc s)) (Fin 0) in
  let safeDivisor := safeNum (Fin (lifetimeQiDivisor BAL)) (Fin 1000) in
  let base_ := nfloor (nsqrt (ndiv safeLifetimeQi safeDivisor)) in
  let realmBonus := nmul (Fin (IZR (realmIndex s))) (Fin (realmKarmaFactor BAL)) in
  let cycleMultiplier :=
    match currentCycle s with spirit => Fin 2 | mortal => Fin 1 end in
  let totalGain := nmul (nadd base_ realmBonus) cycleMultiplier in
  nmax (Fin (minKarma BAL)) totalGain.

Definition computeVoluntaryKarma (s : State) : num :=
  nmax (Fin (minKarma BAL)) (computeKarmaGain s).

Definition computeDeathKarma (s : State) : num :=
  let deathPenalty_ :=
    match deathPenalty BAL with
    | Some p => orElse (Fin p) (Fin 0.5)
    | None => Fin 0.5
    end in
  nmax (Fin (minKarma BAL)) (nfloor (nmul (computeKarmaGain s) deathPenalty_)).

(** ** Lifespan *)

(** [BAL.lifespan?.realmMaxLifespan?.[0] || 100] *)
Definition firstRealmLifespan : num :=
  match index (realmMaxLifespan BAL) 0 with
  | Some (Some v) => orElse (Fin v) (Fin 100)
  | _ => Fin 100
  end.

(** [getMaxLifespan(realmIndex = null)]; the result [None] is null. *)
Definition getMaxLifespan (arg : option Z) (s : State) : option num :=
  let index_ := match arg with Some i => i | None => realmIndex s end in
  match index (realmMaxLifespan BAL) index_ with
  | None | Some None => None
  | Some (Some maxFromConfig) =>
      let karmaMult := karmaLifeMult (karma (reinc s)) in
      let baseLifespan := orElse (Fin maxFromConfig) firstRealmLifespan in
      Some (nfloor (nmul baseLifespan karmaMult))
  end.

Definition isImmortal (s : State) : bool :=
  match getMaxLifespan None s with None => true | Some _ => false end.

Definition defaultState (now : Z) : State := {|
  qi := Fin 0;
  qpcBase := Fin (qpcBaseStart BAL);
  qpsBase := Fin (qpsBaseStart BAL);
  qpcMult := Fin 1;
  qpsMult := Fin 1;
  offlineMult := Fin 1;
  realmIndex := 0;
  stage := 1;
  lastTick := now;
  skills := ∅;
  reinc := mkReinc 0 (Fin 0) (Fin 0);
  lifespan := mkLifespan (Some firstRealmLifespan) (Some firstRealmLifespan);
  age := None;
  ageYears := Some (Fin 0);
  isDead := false;
  timeSpeed := mkTimeSpeed (Fin 1) false;
  currentCycle := mortal;
  life := mkLife true;
  flags := mkFlags false false false false false;
  lifecycle := mkLifecycle false 0 0;
  stats := mkStats 0;
  meta := mkMeta [Fin 0; Fin 0.5; Fin 1];
  session := None
|}.

Definition updateLifespanOnRealmAdvance (s : State) : State :=
  let s :=
    match getMaxLifespan None s with
    | None =>
        s |> set_lifespan (mkLifespan None None) |> set_age (Some (Fin 0))
    | Some newMax =>
        s |> set_lifespan (mkLifespan (Some newMax) (Some newMax))
          |> set_age (Some (Fin 0))
    end in
  s |> set_flags (set_lifespanHandled false (flags s)).

(** The lifespan object of a new life: [getMaxLifespan(0)] made safe. *)
Definition newLifeLifespan (s : State) : Lifespan :=
  match getMaxLifespan (Some 0%Z) s with
  | None => mkLifespan None None
  | Some newMaxLifespan =>
      let validLifespan := safeNum newMaxLifespan (Fin 100) in
      mkLifespan (Some validLifespan) (Some validLifespan)
  end.

(** ** Death: [handleLifespanEnd] up to its await, and what follows it *)

Definition handleLifespanEnd (now : Z) (w : World) : World :=
  if isHandlingDeath w
     || isReincarnating (lifecycle (state w))
     || isDead (state w)
  then w
  else
    let w := w |> set_isHandlingDeath true in
    let w :=
      w |> onS (fun s =>
        s |> set_isDead true
          |> set_lifecycle
               (lifecycle s |> set_isReincarnating true |> set_lastDeathAt now)
          |> set_timeSpeed (mkTimeSpeed (Fin 0) true)) in
    let gain := computeDeathKarma (state w) in
    w |> show (AlertDeath gain) |> set_awaitingDeath (Some gain).

Definition performDeathReincarnation (karmaGain : num) (now : Z) (s : State)
  : State :=
  let s := s |> set_stats (mkStats (deaths (stats s) + 1)) in
  let newKarma := nadd (orElse (karma (reinc s)) (Fin 0)) karmaGain in
  let newTimes := times (reinc s) in
  let keepFlags := flags s in
  let keepStats := mkStats (deaths (stats s)) in
  let keepReinc := mkReinc newTimes newKarma (Fin 0) in
  let keepMeta := meta s in
  let s := defaultState now in
  let s := s |> set_flags keepFlags in
  let s := s |> set_flags (set_lifespanHandled false (flags s)) in
  let s := s |> set_stats keepStats |> set_reinc keepReinc |> set_meta keepMeta in
  let s := s |> set_age (Some (Fin 0)) |> set_lastTick now in
  let s := s |> set_ageYears (Some (Fin 0)) in
  let s := s |> set_lifespan (newLifeLifespan s) in
  let s := s |> set_isDead false |> set_life (mkLife true) in
  let s := s |> set_lastTick now in
  let s := s |> set_timeSpeed (timeSpeed s |> set_paused false) in
  let s := s |> set_timeSpeed (timeSpeed s |> set_ts_current (Fin 1)) in
  s |> set_lifecycle (lifecycle s |> set_isReincarnating false).

(** The death alert is dismissed: the rest of [handleLifespanEnd]. *)
Definition dismissDeathAlert (now : Z) (w : World) : World :=
  match awaitingDeath w with
  | Some gain =>
      w |> onS (performDeathReincarnation gain now)
        |> set_isHandlingDeath false
        |> set_awaitingDeath None
  | None => w
  end.

(** ** Reincarnation: [doReincarnate(options)] *)

(** [options.mode || 'voluntary']; [None] is a call without a mode, as in
    [doReincarnate(false)]. *)
Definition modeOf (options : option Mode) : Mode := default voluntary options.

Definition isDeathMode (m : Mode) : bool :=
  match m with death => true | _ => false end.

Definition isMandatoryMode (m : Mode) : bool :=
  match m with mandatory => true | _ => false end.

Definition doReincarnate (options : option Mode) (now : Z) (w : World) : World :=
  let mode := modeOf options in
  let s := state w in
  (* set the guard *)
  let s :=
    s |> set_lifecycle
           (lifecycle s |> set_isReincarnating true |> set_lastReincarnateAt now) in
  let gain :=
    if isDeathMode mode then computeDeathKarma s else computeVoluntaryKarma s in
  let wasAtST10 := ((realmIndex s =? 4) && (stage s =? 10))%Z in
  let oldReinc := reinc s in
  let oldFlags := flags s in
  let oldMeta := meta s in
  let newKarma := nadd (karma oldReinc) gain in
  let newTimes := (times oldReinc + 1)%Z in
  (* reset, then restore what persists *)
  let s := defaultState now in
  let s :=
    s |> set_reinc (mkReinc newTimes newKarma (Fin 0))
      |> set_flags oldFlags
      |> set_meta oldMeta in
  let s :=
    if isMandatoryMode mode && wasAtST10
    then s |> set_flags (mkFlags true true true true (lifespanHandled (flags s)))
    else s in
  let s :=
    if isDeathMode mode
    then s |> set_stats (mkStats (deaths (stats s) + 1))
    else s in
  let s :=
    s |> set_age (Some (Fin 0))
      |> set_ageYears None
      |> set_isDead false
      |> set_life (mkLife true) in
  let s := s |> set_flags (set_lifespanHandled false (flags s)) in
  let s := s |> set_lastTick now in
  let s := s |> set_lifespan (newLifeLifespan s) in
  let s := s |> set_lastTick now in
  let s :=
    s |> set_realmIndex 0%Z |> set_stage 1%Z |> set_currentCycle mortal
      |> updateCurrentCycle in
  (* clear the guard and unpause *)
  let s := s |> set_lifecycle (lifecycle s |> set_isReincarnating false) in
  let s := s |> set_timeSpeed (timeSpeed s |> set_paused false) in
  w |> set_state s |> show (ModalReincarnated mode gain (karma (reinc s))).

(** The confirm callbacks that enter [doReincarnate]. *)
Definition confirmSpiritGate (now : Z) (w : World) : World :=
  doReincarnate (Some mandatory) now w.

Definition confirmCycleCompletion (now : Z) (w : World) : World :=
  doReincarnate None now w.

Definition confirmVoluntary (now : Z) (w : World) : World :=
  w |> onS (set_life (mkLife false)) |> doReincarnate (Some voluntary) now.

Definition tryManualReincarnate (w : World) : World :=
  if negb (canReincarnate (state w)) then w |> show ModalLocked
  else w |> show ConfirmVoluntary.

(** ** Aging: [tickLifespan(dt)] *)

(** [BAL.lifespan?.yearsPerSecond || 1.0] *)
Definition baseYearsPerSecond : num := orElse (Fin (yearsPerSecond BAL)) (Fin 1.0).

(** The migration of the legacy field [ageYears] into [age]. *)
Definition migrateAge (s : State) : State :=
  match ageYears s, age s with
  | Some y, None => s |> set_age (Some y) |> set_ageYears None
  | _, _ => s
  end.

(** [if(!S.age || !isFinite(S.age)) S.age = 0] *)
Definition initAge (s : State) : State :=
  match age s with
  | Some a =>
      if negb (truthy a) || negb (isFinite a)
      then s |> set_age (Some (Fin 0)) else s
  | None => s |> set_age (Some (Fin 0))
  end.

(** The value of [S.age] once [initAge] has run. *)
Definition ageNum (s : State) : num :=
  match age s with Some a => a | None => Fin 0 end.

Definition tickLifespan (now : Z) (dt : num) (w : World) : World :=
  let s := state w in
  if paused (timeSpeed s) || isDead s then w
  else if isImmortal s then w
  else if isReincarnating (lifecycle s) then w
  else
    let currentTimeSpeed := orElse (ts_current (timeSpeed s)) (Fin 0) in
    if nle currentTimeSpeed (Fin 0) then w
    else
      let safeDt := nmax (Fin 0) dt in
      if neq safeDt (Fin 0) then w
      else
        let agingRate := nmul (nmul safeDt currentTimeSpeed) baseYearsPerSecond in
        let s := s |> migrateAge |> initAge in
        let newAge := nadd (ageNum s) agingRate in
        if negb (isFinite newAge) then w |> set_state s
        else
          let maxLifespan := getMaxLifespan None s in
          let s :=
            match maxLifespan with
            | Some m => s |> set_age (Some (nmax (Fin 0) (nmin newAge m)))
            | None => s |> set_age (Some (nmax (Fin 0) newAge))
            end in
          let s :=
            match ls_max (lifespan s) with
            | Some lmax =>
                s |> set_lifespan
                       (lifespan s
                        |> set_ls_current (Some (nmax (Fin 0) (nsub lmax (ageNum s)))))
            | None => s
            end in
          match maxLifespan with
          | Some m =>
              if nge (ageNum s) m && negb (lifespanHandled (flags s))
              then
                w |> set_state (s |> set_flags (set_lifespanHandled true (flags s)))
                  |> handleLifespanEnd now
              else w |> set_state s
          | None => w |> set_state s
          end.

(** [checkLifespanGate()] *)
Definition checkLifespanGate (now : Z) (w : World) : World :=
  let s := state w in
  if isImmortal s then w
  else if lifespanHandled (flags s) || isReincarnating (lifecycle s) then w
  else
    let currentAge :=
      match age s with
      | Some a => a
      | None => optOrElse (ageYears s) (Fin 0)
      end in
    let s := match age s with None => s |> set_age (Some currentAge) | _ => s end in
    match getMaxLifespan None s with
    | None => w |> set_state s
    | Some maxLife =>
        if nge currentAge maxLife
        then
          w |> set_state (s |> set_flags (set_lifespanHandled true (flags s)))
            |> handleLifespanEnd now
        else w |> set_state s
    end.

(** ** Time speed *)

Definition includesNum (l : list num) (x : num) : bool := existsb (neq x) l.

Definition pushIfMissing (x : num) (l : list num) : list num :=
  if includesNum l x then l else l ++ [x].

Definition baseSpeedsAlwaysAvailable : list num := [Fin 0; Fin 0.5; Fin 1].

Definition checkAndUnlockSpeeds (s : State) : State :=
  let unlocked :=
    fold_left (fun acc speed => pushIfMissing speed acc)
      baseSpeedsAlwaysAvailable (unlockedSpeeds (meta s)) in
  let step (acc : list num) (p : nat * R) : list num :=
    let '(i, speed) := p in
    if includesNum baseSpeedsAlwaysAvailable (Fin speed) then acc
    else
      let requiredRealm := default 0%Z (nth_error (unlockRealmIndex BAL) i) in
      if (requiredRealm <=? realmIndex s)%Z && negb (includesNum acc (Fin speed))
      then acc ++ [Fin speed] else acc in
  let unlocked :=
    fold_left step (combine (seq 0 (length (speeds BAL))) (speeds BAL)) unlocked in
  s |> set_meta (mkMeta unlocked).

Definition getTimeSpeed (s : State) : num :=
  if paused (timeSpeed s) then Fin 0 else ts_current (timeSpeed s).

Definition getCurrentTimeMultiplier (s : State) : num := getTimeSpeed s.

(** ** Breakthrough *)

Definition doBreakthrough (w : World) : World :=
  let s := state w in
  let req := stageRequirement s (realmIndex s) (stage s) in
  if nlt (qi s) req then w
  else
    let s := s |> set_qi (nsub (qi s) req) in
    if (stage s <? 10)%Z then w |> set_state (s |> set_stage (stage s + 1)%Z)
    else if (realmIndex s =? 4)%Z && negb (unlockedBeyondSpirit (flags s))
    then w |> set_state s |> show ConfirmSpiritGate
    else if isAtCycleEnd s
    then w |> set_state s |> triggerCycleTransition
    else if (realmIndex s <? realms_length - 1)%Z
    then
      let wasSpritTransformation := (realmIndex s =? 4)%Z in
      let s := s |> set_realmIndex (realmIndex s + 1)%Z |> set_stage 1%Z in
      let s := s |> set_qpcBase (nadd (qpcBase s) (Fin (qpcBaseAdd BAL))) in
      let s := s |> set_qpsBase (nadd (qpsBase s) (Fin (qpsBaseAdd BAL))) in
      let s :=
        s |> updateLifespanOnRealmAdvance
          |> updateCurrentCycle
          |> checkAndUnlockSpeeds in
      if wasSpritTransformation && unlockedBeyondSpirit (flags s)
         && (realmIndex s =? 5)%Z
      then w |> set_state s |> show ModalSpiritCycleBegins
      else w |> set_state s
    else w |> set_state s |> triggerCycleTransition.

(** ** The live tick and the click *)

Definition tick (now : Z) (dt : num) (w : World) : World :=
  let timeSpeed_ := getTimeSpeed (state w) in
  if neq timeSpeed_ (Fin 0) then w
  else if isReincarnating (lifecycle (state w)) then w
  else if isHandlingDeath w then w
  else
    let effDt := nmul dt timeSpeed_ in
    let gain := nmul (totalQPS (state w)) effDt in
    let w := w |> onS (safeAddQi gain) in
    let w :=
      w |> onS (fun s =>
        s |> set_reinc
               (reinc s
                |> set_lifetimeQi
                     (safeNum (nadd (lifetimeQi (reinc s)) gain) (Fin 0)))) in
    w |> tickLifespan now dt |> checkLifespanGate now.

Definition onClick (w : World) : World :=
  let timeSpeed_ := getTimeSpeed (state w) in
  if neq timeSpeed_ (Fin 0) then w
  else if isReincarnating (lifecycle (state w)) then w
  else
    let timeMultiplier := getCurrentTimeMultiplier (state w) in
    let gain := nmul (totalQPC (state w)) timeMultiplier in
    let w := w |> onS (safeAddQi gain) in
    w |> onS (fun s =>
      s |> set_reinc
             (reinc s
              |> set_lifetimeQi
                   (safeNum (nadd (lifetimeQi (reinc s)) gain) (Fin 0)))).

(** ** Session snapshot and offline replay *)

Definition saveSessionSnapshot (now : Z) (s : State) : State :=
  s |> set_session
         (Some (mkSession now (orElse (ts_current (timeSpeed s)) (Fin 0))
                  (realmIndex s) (qi s))).

(** The aging part of the offline replay; the boolean is
    [lifespanExceeded]. *)
Definition offlineAge (yearsPassed : num) (s : State) : State * bool :=
  match isImmortal s, ls_max (lifespan s) with
  | false, Some lmax =>
      let oldAge := ageNum s in
      let newAge := nadd oldAge yearsPassed in
      if negb (isFinite newAge) then (s, false) (* S.age = oldAge *)
      else
        let s := s |> set_age (Some (nmax (Fin 0) (nmin newAge lmax))) in
        let s :=
          s |> set_lifespan
                 (lifespan s
                  |> set_ls_current (Some (nmax (Fin 0) (nsub lmax (ageNum s))))) in
        (s, nge (ageNum s) lmax)
  | false, None => (s |> set_age (Some (nadd (ageNum s) yearsPassed)), false)
  | true, _ => (s, false)
  end.

(** The body of [applyOfflineProgressOnResume] once its early returns are
    passed (from "Cap offline time" on), given the elapsed whole seconds
    and the speed stored in the snapshot. *)
Definition offlineReplay (showPopup : bool) (now : Z) (elapsedSec : Z)
  (lastSpeed_ : num) (w : World) : World :=
  let s := state w in
  let cappedSec := nmin (Fin (IZR elapsedSec)) (Fin (capHours BAL * 3600)) in
  let effectiveTime := nmul cappedSec lastSpeed_ in
  let yearsPassed := nmul effectiveTime baseYearsPerSecond in
  let qpsProduction := totalQPS s in
  let offlineMultiplier := totalOfflineMult s in
  let qiGains := nmul (nmul qpsProduction effectiveTime) offlineMultiplier in
  let s :=
    if ngt qiGains (Fin 0)
    then
      let s := s |> safeAddQi qiGains in
      s |> set_reinc
             (reinc s
              |> set_lifetimeQi
                   (safeNum (nadd (lifetimeQi (reinc s)) qiGains) (Fin 0)))
    else s in
  let s := s |> migrateAge |> initAge in
  let '(s, lifespanExceeded) := offlineAge yearsPassed s in
  let s := s |> set_session None in
  if lifespanExceeded then w |> set_state s |> checkLifespanGate now
  else if showPopup && ngt qiGains (Fin 0)
  then w |> set_state s |> show (ModalOfflineGains qiGains yearsPassed)
  else w |> set_state s.

Definition applyOfflineProgressOnResume (showPopup : bool) (now : Z) (w : World)
  : World :=
  let s := state w in
  match session s with
  | None => w |> set_state (s |> set_session None)
  | Some snap =>
      if (lastTs snap =? 0)%Z then w |> set_state (s |> set_session None)
      else
        let lastSpeed_ := orElse (lastSpeed snap) (Fin 0) in
        if nle lastSpeed_ (Fin 0) then w |> set_state (s |> set_session None)
        else
          let elapsedMs := (now - lastTs snap)%Z in
          let elapsedSec := Z.max 0 (elapsedMs / 1000) in
          if (elapsedSec <? 1)%Z then w |> set_state (s |> set_session None)
          else offlineReplay showPopup now elapsedSec lastSpeed_ w
  end.

End Game.

(** ** The formulas as the specification words them

    These follow the specification's sentences, not the source; they are
    compared with the source's functions below. *)

(** "max(minKarma, floor(sqrt(lifetimeQi / divisor)) + realmIndex x
    realmKarmaFactor) x cycleKarmaMultiplier": the floor [minKarma] is
    taken before the cycle multiplier is applied. *)
Definition spec_karmaGain (BAL : Balance) (s : State) : num :=
  let cycleKarmaMultiplier :=
    match currentCycle s with spirit => Fin 2 | mortal => Fin 1 end in
  nmul
    (nmax (Fin (minKarma BAL))
       (nadd
          (nfloor (nsqrt (ndiv (lifetimeQi (reinc s)) (Fin (lifetimeQiDivisor BAL)))))
          (nmul (Fin (IZR (realmIndex s))) (Fin (realmKarmaFactor BAL)))))
    cycleKarmaMultiplier.

(** "floor(realmBase x realmBaseScale^realmIndex x stageScale^(stage-1) /
    karmaStageMult(karma))": one floor, of the karma-divided quantity. *)
Definition spec_stageRequirement (BAL : Balance) (realmIndex stage : Z) (k : num)
  : num :=
  nfloor
    (ndiv
       (nmul (nmul (Fin (realmBase BAL)) (npow (realmBaseScale BAL) realmIndex))
          (npow (stageScale BAL) (stage - 1)))
       (karmaStageMult k)).

(** [n] live ticks of one second each. *)
Fixpoint ticks (BAL : Balance) (now : Z) (n : nat) (w : World) : World :=
  match n with
  | O => w
  | S n' => ticks BAL now n' (tick BAL now (Fin 1) w)
  end.

(** ** Notions used to state the properties *)

(** The shape the three soft caps share,
    [1 + amplitude * (1 - e^(-rate * karma))]. *)
Definition softCap (amplitude rate : R) (k : num) : num :=
  nadd (Fin 1) (nmul (Fin amplitude) (nsub (Fin 1) (nexp (nmul (Fin (- rate)) k)))).

(** The same shape in binary64. *)
Definition softCap64 (Math_exp : R -> R) (amplitude rate karma : R) : R :=
  fadd 1 (fmul (round64 amplitude)
            (fsub 1 (Math_exp (fmul (- round64 rate) karma)))).

(** The cycle multiplier of the karma formula. *)
Definition cycleMultiplierR (c : Cycle) : R :=
  match c with spirit => 2 | mortal => 1 end.

(** [deathPenalty || 0.5] as a real number. *)
Definition deathPenaltyR (BAL : Balance) : R :=
  match deathPenalty BAL with
  | Some p => if Req_dec_T p 0 then 0.5 else p
  | None => 0.5
  end.

(** A table with another [minKarma], as balance.json may set it. *)
Definition withMinKarma (m : R) (B : Balance) : Balance :=
  mkBalance (breath_control B) (meridian_flow B) (lotus_meditation B)
    (dantian_temps B) (closed_door B) (realmBase B) (realmBaseScale B)
    (stageScale B) (qpcBaseStart B) (qpsBaseStart B) (qpcBaseAdd B)
    (qpsBaseAdd B) (karmaPerUnit B) (lifetimeQiDivisor B) (realmKarmaFactor B)
    m (deathPenalty B) (capHours B) (realmMaxLifespan B) (yearsPerSecond B)
    (speeds B) (unlockRealmIndex B) (mortalRealms B) (spiritRealms B).

(** The age an aging step or a replay starts from: [S.age] after the
    migration of [ageYears] and the reset of a missing, zero or
    non-finite age to 0. *)
Definition ageAfterInit (s : State) : R :=
  match age (migrateAge s) with Some (Fin a) => a | _ => 0 end.

(** The world with the time stamp of the last death erased: the one
    field into which a replay writes the wall clock. *)
Definition forgetDeathStamp (w : World) : World :=
  w |> onS (fun s => s |> set_lifecycle (lifecycle s |> set_lastDeathAt 0%Z)).

(** The state a live run reaches from [s] once [g] Qi and [d] years
    have been added to a stock [q], a lifetime total [l] and an age [a],
    under a stored lifespan ceiling [L]. *)
Definition liveAfter (s : State) (q l a L g d : R) : State :=
  s |> set_ageYears (ageYears (migrateAge s))
    |> set_qi (Fin (Rmin (q + g) qiCeiling))
    |> set_reinc (reinc s |> set_lifetimeQi (Fin (l + g)))
    |> set_age (Some (Fin (a + d)))
    |> set_lifespan
         (lifespan s |> set_ls_current (Some (Fin (Rmax 0 (L - (a + d)))))).

(** A run in which ticks pass every guard: nothing is paused, dead or in
    transition, the speed [v] is positive, the production [p] per second
    is a non-negative real, and the realm has a finite lifespan ceiling,
    [M] as computed and [L] as stored. *)
Definition LiveRun (BAL : Balance) (w : World) (v p M L : R) : Prop :=
  isHandlingDeath w = false
  /\ paused (timeSpeed (state w)) = false
  /\ isDead (state w) = false
  /\ isReincarnating (lifecycle (state w)) = false
  /\ getMaxLifespan BAL None (state w) = Some (Fin M)
  /\ ls_max (lifespan (state w)) = Some (Fin L)
  /\ ts_current (timeSpeed (state w)) = Fin v
  /\ 0 < v
  /\ 0 < yearsPerSecond BAL
  /\ totalQPS BAL (state w) = Fin p
  /\ 0 <= p.

(** ** Runs of the game

    What the player and the frame loop can do: a frame tick, a click, a
    breakthrough, a resume after an absence, a confirmed reincarnation
    dialog (any mode [doReincarnate] accepts), and the dismissal of the
    death alert. *)
Inductive Action : Type :=
| ATick (now : Z) (dt : num)
| AClick
| ABreakthrough
| AResume (showPopup : bool) (now : Z)
| AReincarnate (options : option Mode) (now : Z)
| ADismissDeath (now : Z).

Definition act (BAL : Balance) (a : Action) (w : World) : World :=
  match a with
  | ATick now dt => tick BAL now dt w
  | AClick => onClick BAL w
  | ABreakthrough => doBreakthrough BAL w
  | AResume showPopup now => applyOfflineProgressOnResume BAL showPopup now w
  | AReincarnate options now => doReincarnate BAL options now w
  | ADismissDeath now => dismissDeathAlert BAL now w
  end.

Fixpoint run (BAL : Balance) (acts : list Action) (w : World) : World :=
  match acts with
  | [] => w
  | a :: rest => run BAL rest (act BAL a w)
  end.

(** A step completes a transition when it runs one of the two reset
    routines. *)
Definition completesTransition (a : Action) (w : World) : bool :=
  match a with
  | AReincarnate _ _ => true
  | ADismissDeath _ => match awaitingDeath w with Some _ => true | None => false end
  | _ => false
  end.

Fixpoint transitionsCompleted (BAL : Balance) (acts : list Action) (w : World)
  : nat :=
  match acts with
  | [] => O
  | a :: rest =>
      ((if completesTransition a w then 1 else 0)
       + transitionsCompleted BAL rest (act BAL a w))%nat
  end.

(** A number that is not a negative real: a real that is at least 0, or
    a non-finite value. *)
Definition notNegative (x : num) : Prop :=
  match x with Fin r => 0 <= r | _ => True end.

(** The lifetime Qi is not negative; [safeNum] replaces a non-finite one
    by 0. *)
Definition lifetimeQiOK (s : State) : Prop :=
  notNegative (lifetimeQi (reinc s)).

(** The values the production is computed from are not negative: the
    base rates and multipliers, the time speed and the skill levels. *)
Definition productionOK (s : State) : Prop :=
  notNegative (qpcBase s) /\ notNegative (qpsBase s)
  /\ notNegative (qpcMult s) /\ notNegative (qpsMult s)
  /\ notNegative (ts_current (timeSpeed s))
  /\ (forall (id : string) (l : Z), skills s !! id = Some l -> (0 <= l)%Z).

(** The configured production values are not negative: the effect of
    the four production skills, the starting base rates and their
    increments per realm. *)
Definition balanceOK (BAL : Balance) : Prop :=
  0 <= base (breath_control BAL) /\ 0 <= base (meridian_flow BAL)
  /\ 0 <= base (lotus_meditation BAL) /\ 0 <= base (dantian_temps BAL)
  /\ 0 <= qpcBaseStart BAL /\ 0 <= qpsBaseStart BAL
  /\ 0 <= qpcBaseAdd BAL /\ 0 <= qpsBaseAdd BAL.

(** The frame loop hands [tick] a time step that is not negative. *)
Definition forwardInTime (a : Action) : Prop :=
  match a with ATick _ dt => notNegative dt | _ => True end.

(** A karma gain of at least [minKarma]. *)
Definition gainOK (BAL : Balance) (g : num) : Prop :=
  exists r : R, g = Fin r /\ minKarma BAL <= r.

(** The gain held by an open death alert, if any, is such a gain. *)
Definition pendingOK (BAL : Balance) (w : World) : Prop :=
  forall g : num, awaitingDeath w = Some g -> gainOK BAL g.

(** A world a run may start from. *)
Definition worldOK (BAL : Balance) (w : World) : Prop :=
  lifetimeQiOK (state w) /\ productionOK (state w) /\ pendingOK BAL w.

(** ** Example states *)

(** A fresh life that carries 2 karma. *)
Definition st_karma2 : State :=
  defaultState defaultBAL 0 |> set_reinc (mkReinc 0 (Fin 2) (Fin 0)).

(** A state in the spirit cycle with no lifetime Qi, at realm 0. *)
Definition st_spirit0 : State :=
  defaultState defaultBAL 0 |> set_currentCycle spirit.

(** Void Refining stage 1, the first realm of the spirit cycle, with no
    lifetime Qi yet. *)
Definition st_void : State :=
  defaultState defaultBAL 0 |> set_realmIndex 5%Z |> set_currentCycle spirit.

(** Spirit Transformation stage 10 before the gate was passed, with
    plenty of qi. *)
Definition st_gate : State :=
  defaultState defaultBAL 0
  |> set_realmIndex 4%Z |> set_stage 10%Z |> set_qi (Fin 1e12).

Definition w_gate : World := mkWorld st_gate false None [].

(** A fresh life at the age of 10 years, and the same life while a
    reincarnation is in progress. *)
Definition w_aging : World :=
  mkWorld (defaultState defaultBAL 0 |> set_age (Some (Fin 10))) false None [].

Definition w_guarded : World :=
  mkWorld
    (defaultState defaultBAL 0
     |> set_age (Some (Fin 10))
     |> set_lifecycle (mkLifecycle true 0 0))
    false None [].

(** A first life at realm 0 that was left at time stamp 1000 at speed 1
    with two levels of Breathing Control (1 Qi per second), [cd] levels
    of Closed Door Cultivation, and the lifecycle guard set or not. *)
Definition awayState (cd : Z) (guard : bool) : State :=
  mkState (Fin 0) (Fin 1) (Fin 0) (Fin 1) (Fin 1) (Fin 1) 0 1 0
    (<["closed_door"%string := cd]> (<["breath_control"%string := 2%Z]> ∅))
    (mkReinc 0 (Fin 0) (Fin 0))
    (mkLifespan (Some (Fin 100)) (Some (Fin 100)))
    None (Some (Fin 0)) false (mkTimeSpeed (Fin 1) false) mortal
    (mkLife true) (mkFlags false false false false false)
    (mkLifecycle guard 0 0) (mkStats 0) (mkMeta [Fin 0; Fin 0.5; Fin 1])
    (Some (mkSession 1000 (Fin 1) 0 (Fin 0))).

Definition w_away : World := mkWorld (awayState 0 false) false None [].

Definition w_closed_door : World := mkWorld (awayState 1 false) false None [].

Definition w_away_guarded : World := mkWorld (awayState 0 true) false None [].

(** A cultivator who completed the mandatory reincarnation, died three
    times since, and stands at Spirit Transformation stage 1. *)
Definition st_veteran : State :=
  defaultState defaultBAL 0
  |> set_realmIndex 4%Z
  |> set_reinc (mkReinc 1 (Fin 20) (Fin 0))
  |> set_flags (mkFlags true true true true false)
  |> set_stats (mkStats 3).

Definition w_veteran : World := mkWorld st_veteran false None [].

(** A second of play, a click, a voluntary reincarnation and a
    reincarnation in death mode. *)
Definition veteranRun : list Action :=
  [ATick 1000 (Fin 1); AClick;
   AReincarnate (Some voluntary) 2000; AReincarnate (Some death) 3000].

(** ** The shop, the speed buttons, the breakthrough button *)

Definition set_skills (v : gmap string Z) (s : State) : State :=
  mkState (qi s) (qpcBase s) (qpsBase s) (qpcMult s) (qpsMult s)
    (offlineMult s) (realmIndex s) (stage s) (lastTick s) v (reinc s)
    (lifespan s) (age s) (ageYears s) (isDead s) (timeSpeed s)
    (currentCycle s) (life s) (flags s) (lifecycle s) (stats s) (meta s)
    (session s).

(** [a.includes(x)]: membership by SameValueZero, under which [NaN] is
    equal to itself. *)
Definition sameValueZero (x y : num) : bool :=
  match x, y with
  | NaN, NaN => true
  | _, _ => neq x y
  end.

Definition includes (l : list num) (x : num) : bool :=
  existsb (sameValueZero x) l.

(** [[...new Set(l)]]: the first occurrence of every value, in order. *)
Definition uniq (l : list num) : list num :=
  fold_left (fun acc x => if includes acc x then acc else acc ++ [x]) l [].

(** [l.sort((a, b) => a - b)] as a stable insertion sort: [x] goes in
    front of the first [y] with [x - y < 0].  On the distinct finite
    numbers a [Set] of speeds holds, every sort gives this order. *)
Fixpoint insertSorted (x : num) (l : list num) : list num :=
  match l with
  | [] => [x]
  | y :: r =>
      if nlt (nsub x y) (Fin 0) then x :: y :: r else y :: insertSorted x r
  end.

Definition sortNums (l : list num) : list num :=
  fold_left (fun acc x => insertSorted x acc) l [].

Definition getAvailableSpeeds (s : State) : list num :=
  let allUnlocked := uniq (baseSpeedsAlwaysAvailable ++ unlockedSpeeds (meta s)) in
  sortNums allUnlocked.

Definition setTimeSpeed (speed : num) (s : State) : State :=
  let availableSpeeds := getAvailableSpeeds s in
  let speed := if negb (includes availableSpeeds speed) then Fin 1 else speed in
  if neq speed (Fin 0)
  then s |> set_timeSpeed (mkTimeSpeed (Fin 0) true)
  else s |> set_timeSpeed (mkTimeSpeed speed false).

Section Play.

Variable BAL : Balance.

(** [skillCost(id)]; [None] is the TypeError raised by reading [.cost]
    of the [undefined] that [getSkill] returns for an unknown id. *)
Definition skillCost (s : State) (id : string) : option num :=
  match getSkill BAL id with
  | Some sk =>
      let lvl := default 0%Z (skills s !! id) in
      Some (nfloor (nmul (Fin (cost sk)) (npow (costScale sk) lvl)))
  | None => None
  end.

(** The click handler of a shop button ([renderShop]); an exception
    leaves [S] as it was. *)
Definition buySkill (id : string) (w : World) : World :=
  match skillCost (state w) id with
  | None => w
  | Some cost_ =>
      if nlt (qi (state w)) cost_ then w
      else
        w |> onS (fun s =>
          s |> set_qi (nsub (qi s) cost_)
            |> set_skills
                 (<[id := (default 0 (skills s !! id) + 1)%Z]> (skills s)))
  end.

Definition canBreakthrough (s : State) : bool :=
  let req := stageRequirement BAL s (realmIndex s) (stage s) in
  if nlt (qi s) req then false
  else if (realmIndex s =? 4)%Z && (stage s =? 10)%Z
          && negb (unlockedBeyondSpirit (flags s))
  then true
  else true.

(** The helpers of the completion simulator; [REALM_SKILL_BONUS] is a
    global of the source, 0.20 unless balance.json sets it. *)
Definition baseEff_for (REALM_SKILL_BONUS : R) (st : State) (id : string) : num :=
  match getSkill BAL id with
  | Some sk =>
      let realmMult :=
        nadd (Fin 1) (nmul (Fin (IZR (realmIndex st))) (Fin REALM_SKILL_BONUS)) in
      nmul (Fin (base sk)) realmMult
  | None => NaN
  end.

Definition totalQPC_for (REALM_SKILL_BONUS : R) (st : State) : num :=
  let val := qpcBase st in
  let val :=
    nadd val (nmul (skillLevel st "meridian_flow")
                (baseEff_for REALM_SKILL_BONUS st "meridian_flow")) in
  let mult :=
    nadd (Fin 1)
      (nmul (skillLevel st "dantian_temps")
         (baseEff_for REALM_SKILL_BONUS st "dantian_temps")) in
  let karmaMult := karmaQiMult (orElse (karma (reinc st)) (Fin 0)) in
  let cycleMult := cyclePowerMult (realmIndex st) in
  nmul (nmul (nmul (nmul val mult) (qpcMult st)) karmaMult) cycleMult.

Definition totalQPS_for (REALM_SKILL_BONUS : R) (st : State) : num :=
  let val := qpsBase st in
  let val :=
    nadd val (nmul (skillLevel st "breath_control")
                (baseEff_for REALM_SKILL_BONUS st "breath_control")) in
  let mult :=
    nadd (Fin 1)
      (nmul (skillLevel st "lotus_meditation")
         (baseEff_for REALM_SKILL_BONUS st "lotus_meditation")) in
  let karmaMult := karmaQiMult (orElse (karma (reinc st)) (Fin 0)) in
  let cycleMult := cyclePowerMult (realmIndex st) in
  nmul (nmul (nmul (nmul val mult) (qpsMult st)) karmaMult) cycleMult.

(** ** Commands

    Beside the steps of [Action]: a shop purchase, a speed button, the
    snapshot taken when the tab is hidden or closed, the reincarnation
    button and the confirmation of its dialog.  A play is a sequence of
    commands; loading or importing a save and the developer panel are
    not among them. *)
Inductive Command : Type :=
| CAct (a : Action)
| CBuy (id : string)
| CSetSpeed (speed : num)
| CSnapshot (now : Z)
| CTryReincarnate
| CConfirmVoluntary (now : Z).

Definition exec (c : Command) (w : World) : World :=
  match c with
  | CAct a => act BAL a w
  | CBuy id => buySkill id w
  | CSetSpeed speed => w |> onS (setTimeSpeed speed)
  | CSnapshot now => w |> onS (saveSessionSnapshot now)
  | CTryReincarnate => tryManualReincarnate w
  | CConfirmVoluntary now => confirmVoluntary BAL now w
  end.

Fixpoint play (cs : list Command) (w : World) : World :=
  match cs with
  | [] => w
  | c :: rest => play rest (exec c w)
  end.

End Play.

(** The two loops of [checkAndUnlockSpeeds] have one shape: push the
    value of an entry when the entry is wanted and its value is not in
    the list yet. *)
Definition pushWhen {A : Type} (want : A -> bool) (val : A -> num)
  (acc : list num) (a : A) : list num :=
  if want a && negb (includesNum acc (val a)) then acc ++ [val a] else acc.

(** The speed at index [i] of the table is not a base speed and its
    realm is reached. *)
Definition speedWanted (BAL : Balance) (realm : Z) (p : nat * R) : bool :=
  negb (includesNum baseSpeedsAlwaysAvailable (Fin (snd p)))
  && (default 0%Z (nth_error (unlockRealmIndex BAL) (fst p)) <=? realm)%Z.

(** The price the shop asks at a level, as a real number. *)
Definition priceAt (sk : SkillBal) (lvl : Z) : R :=
  IZR (Zfloor (cost sk * powerRZ (costScale sk) lvl)).

(** ** Notions used to state the properties of a play *)

(** What a life leaves behind and where the cultivator stands: realm,
    stage, cycle, the unlocked speeds and the four unlock flags. *)
Definition standing (s : State) : Z * Z * Cycle * Meta * (bool * bool * bool * bool) :=
  (realmIndex s, stage s, currentCycle s, meta s,
   (unlockedBeyondSpirit (flags s), hasUnlockedSpiritCycle (flags s),
    hasCompletedMandatoryST10 (flags s), canManualReincarnate (flags s))).

(** The commands that leave the standing alone. *)
Definition quiet (c : Command) : bool :=
  match c with
  | CAct (ATick _ _) | CAct AClick | CAct (AResume _ _)
  | CBuy _ | CSetSpeed _ | CSnapshot _ | CTryReincarnate => true
  | CAct ABreakthrough | CAct (AReincarnate _ _) | CAct (ADismissDeath _)
  | CConfirmVoluntary _ => false
  end.

(** The four unlock flags. *)
Definition unlocks (f : Flags) : bool * bool * bool * bool :=
  (unlockedBeyondSpirit f, hasUnlockedSpiritCycle f,
   hasCompletedMandatoryST10 f, canManualReincarnate f).

(** How one command can change the standing: not at all, one stage up,
    on to the next realm, or back to the start of a new life. *)
Inductive StandingStep (BAL : Balance) (s s' : State) : Prop :=
| SameStanding :
    standing s' = standing s -> StandingStep BAL s s'
| StageUp :
    (stage s < 10)%Z ->
    standing s' = standing (s |> set_stage (stage s + 1)%Z) ->
    StandingStep BAL s s'
| RealmUp :
    (10 <= stage s)%Z -> (realmIndex s < realms_length - 1)%Z ->
    (realmIndex s = 4%Z -> unlockedBeyondSpirit (flags s) = true) ->
    standing s'
    = standing
        (s |> set_realmIndex (realmIndex s + 1)%Z |> set_stage 1%Z
           |> updateCurrentCycle BAL |> checkAndUnlockSpeeds BAL) ->
    StandingStep BAL s s'
| NewLife :
    realmIndex s' = 0%Z -> stage s' = 1%Z -> meta s' = meta s ->
    currentCycle s'
    = currentCycle
        (updateCurrentCycle BAL (s |> set_realmIndex 0%Z |> set_currentCycle mortal))
    \/ currentCycle s' = mortal ->
    unlocks (flags s') = unlocks (flags s)
    \/ unlocks (flags s') = (true, true, true, true) ->
    StandingStep BAL s s'.

(** Realm and stage lie in the tables: realms 0 to 9, stages 1 to 10. *)
Definition inBounds (s : State) : Prop :=
  (0 <= realmIndex s <= 9)%Z /\ (1 <= stage s <= 10)%Z.

(** The cycle is the one of the realm, by the source's [CYCLES]. *)
Definition cycleMatchesRealm (s : State) : Prop :=
  ((0 <= realmIndex s <= 4)%Z -> currentCycle s = mortal)
  /\ ((5 <= realmIndex s <= 9)%Z -> currentCycle s = spirit).

(** No death is being handled and no reincarnation is in progress. *)
Definition alive (w : World) : Prop :=
  isHandlingDeath w = false
  /\ isReincarnating (lifecycle (state w)) = false
  /\ isDead (state w) = false.

(** The steps of the frame loop and of the click button. *)
Definition isTickOrClick (a : Action) : bool :=
  match a with ATick _ _ | AClick => true | _ => false end.

(** Everything the aging and death-trigger routines leave alone: all of
    [S] but the age, the lifespan, the latch, the death flag, the
    lifecycle guard and the time speed. *)
Definition beyondAging (s : State) :=
  (qi s, qpcBase s, qpsBase s, qpcMult s, qpsMult s, offlineMult s,
   realmIndex s, stage s, skills s, reinc s, currentCycle s, life s,
   stats s, meta s, session s, unlocks (flags s)).

(** The steps that produce Qi. *)
Definition produces (a : Action) : bool :=
  match a with ATick _ _ | AClick | AResume _ _ => true | _ => false end.

(** A configuration without negative prices, requirements or speeds. *)
Definition shopOK (BAL : Balance) : Prop :=
  forall (id : string) (sk : SkillBal),
    getSkill BAL id = Some sk -> 0 <= cost sk /\ 0 < costScale sk.

Definition pathOK (BAL : Balance) : Prop :=
  0 <= realmBase BAL /\ 0 < realmBaseScale BAL /\ 0 < stageScale BAL.

Definition soundBalance (BAL : Balance) : Prop :=
  0 < minKarma BAL /\ 0 < lifetimeQiDivisor BAL /\ balanceOK BAL
  /\ shopOK BAL /\ pathOK BAL /\ Forall (fun v => 0 <= v) (speeds BAL).

(** A world whose numbers are sound: karma a real number that is not
    negative, the Qi stock a real number in [0, 1e300], lifetime Qi,
    production values and unlocked speeds not negative, and a pending
    death gain, if any, of at least [minKarma]. *)
Definition soundWorld (BAL : Balance) (w : World) : Prop :=
  worldOK BAL w
  /\ (exists k : R, karma (reinc (state w)) = Fin k /\ 0 <= k)
  /\ (exists q : R, qi (state w) = Fin q /\ 0 <= q <= qiCeiling)
  /\ Forall notNegative (unlockedSpeeds (meta (state w))).

(** Time steps handed to [tick] are not negative. *)
Definition forwardCommand (c : Command) : Prop :=
  match c with CAct a => forwardInTime a | _ => True end.

(** The dialogs opened between two worlds do not include the gate of
    Spirit Transformation. *)
Definition noGateShown (w w' : World) : Prop :=
  exists ext : list Event, ui w' = ui w ++ ext /\ ~ In ConfirmSpiritGate ext.

(** ** More example states and plays *)

(** A fresh cultivator with 100 Qi to spend. *)
Definition w_shopper : World :=
  mkWorld (defaultState defaultBAL 0 |> set_qi (Fin 100)) false None [].

(** The same cultivator with one level of Breathing Control. *)
Definition st_level1 : State :=
  defaultState defaultBAL 0
  |> set_skills (<["breath_control"%string := 1%Z]> ∅).

(** A fresh cultivator with 5 karma. *)
Definition st_karma5 : State :=
  defaultState defaultBAL 0 |> set_reinc (mkReinc 0 (Fin 5) (Fin 0)).

(** A purchase, a speed button, a second of play, a breakthrough
    attempt, a snapshot and the resume seven seconds later, the
    reincarnation button and a confirmed voluntary reincarnation. *)
Definition anAfternoon : list Command :=
  [CBuy "breath_control"; CSetSpeed (Fin 2); CAct (ATick 1000 (Fin 1));
   CAct ABreakthrough; CSnapshot 2000; CAct (AResume true 9000);
   CTryReincarnate; CConfirmVoluntary 9500].

(** A cultivator who has passed the gate. *)
Definition w_transcended : World :=
  mkWorld
    (defaultState defaultBAL 0
     |> set_flags (mkFlags true true true true false))
    false None [].

(** A first life close to its end: 99.99 of its 100 years, one level of
    Breathing Control bought for 25 Qi, 5000 lifetime Qi. *)
Definition st_late_life : State :=
  defaultState defaultBAL 0
  |> set_qi (Fin 4975)
  |> set_skills (<["breath_control"%string := 1%Z]> ∅)
  |> set_reinc (mkReinc 0 (Fin 0) (Fin 5000))
  |> set_age (Some (Fin 99.99)).

Definition w_late_life : World := mkWorld st_late_life false None [].

(** The system clock is set back by six hours between two frames, so
    that [loop] hands [tick] a step of -21600 seconds; two seconds later
    the life ends and the player dismisses the death alert. *)
Definition clockSetBack : list Action :=
  [ATick 0 (Fin (-21600)); ATick 0 (Fin 2); ADismissDeath 0].

(** ** Proof automation *)

(** Case analysis on the innermost tests of the goal. *)
Ltac split_tests :=
  repeat match goal with
         | |- context [if ?c then _ else _] =>
             lazymatch c with
             | context [if _ then _ else _] => fail
             | context [match _ with Some _ => _ | None => _ end] => fail
             | _ => destruct c
             end
         | |- context [match ?c with Some _ => _ | None => _ end] =>
             lazymatch c with
             | context [if _ then _ else _] => fail
             | context [match _ with Some _ => _ | None => _ end] => fail
             | _ => destruct c
             end
         end.

(** Case analysis on the tests that decide the resulting state, from
    the outermost inwards. *)
Ltac split_head :=
  repeat match goal with
         | |- context [state (if ?c then _ else _)] => destruct c
         end.

(** A routine that leaves the production values alone keeps
    [productionOK]. *)
Ltac production_frame :=
  split_tests; unfold productionOK in *; cbn; intuition (auto; try lra).

(** ** Comparisons on finite numbers *)

Lemma nlt_Fin (a b : R) : nlt (Fin a) (Fin b) = true <-> a < b.
Proof. simpl. destruct (Rlt_dec a b); split; intros; (easy || lra). Qed.

Lemma nle_Fin (a b : R) : nle (Fin a) (Fin b) = true <-> a <= b.
Proof. simpl. destruct (Rle_dec a b); split; intros; (easy || lra). Qed.

Lemma nlt_Fin_false (a b : R) : nlt (Fin a) (Fin b) = false <-> b <= a.
Proof. simpl. destruct (Rlt_dec a b); split; intros; (easy || lra). Qed.

Lemma neq_Fin (a b : R) : neq (Fin a) (Fin b) = true <-> a = b.
Proof. simpl. destruct (Req_dec_T a b); split; intros; (easy || lra). Qed.

Lemma truthy_Fin (a : R) : truthy (Fin a) = true <-> a <> 0.
Proof. simpl. destruct (Req_dec_T a 0); split; intros; (easy || lra). Qed.

Lemma orElse_Fin (a : R) (d : num) : a <> 0 -> orElse (Fin a) d = Fin a.
Proof. intros H. unfold orElse. apply truthy_Fin in H. now rewrite H. Qed.

Lemma ndiv_Fin (a b : R) : b <> 0 -> ndiv (Fin a) (Fin b) = Fin (a / b).
Proof. intros H. simpl. destruct (Req_dec_T b 0); [contradiction | reflexivity]. Qed.

Lemma nsqrt_Fin (a : R) : 0 <= a -> nsqrt (Fin a) = Fin (sqrt a).
Proof. intros H. simpl. destruct (Rlt_dec a 0); [lra | reflexivity]. Qed.

(** ** Soft caps *)

Section SoftCap.

Variables amplitude rate : R.
Hypothesis amplitude_pos : 0 < amplitude.
Hypothesis rate_pos : 0 < rate.

Lemma softCap_Fin (a : R) :
  softCap amplitude rate (Fin a) = Fin (1 + amplitude * (1 - exp (- rate * a))).
Proof. reflexivity. Qed.

Lemma softCap_PInf : softCap amplitude rate PInf = Fin (1 + amplitude).
Proof.
  unfold softCap. simpl. unfold sgn.
  destruct (Rlt_dec 0 (- rate)); [lra |].
  destruct (Rlt_dec (- rate) 0); [| lra].
  simpl. f_equal. lra.
Qed.

Lemma softCap_zero : softCap amplitude rate (Fin 0) = Fin 1.
Proof.
  rewrite softCap_Fin. f_equal. rewrite Rmult_0_r, exp_0. lra.
Qed.

Lemma softCap_bounded (k : num) :
  nle (Fin 0) k = true ->
  nle (softCap amplitude rate k) (Fin (1 + amplitude)) = true.
Proof.
  intros H. destruct k as [a | | |]; simpl in H; try discriminate.
  - rewrite softCap_Fin. apply nle_Fin.
    pose proof (exp_pos (- rate * a)). nra.
  - rewrite softCap_PInf. apply nle_Fin. lra.
Qed.

(** Taken as exact, the shape is strictly increasing.  Binary64 does not
    keep this, as the section on the soft caps in binary64 shows. *)
Lemma softCap_increasing (k1 k2 : num) :
  nle (Fin 0) k1 = true -> nlt k1 k2 = true ->
  nlt (softCap amplitude rate k1) (softCap amplitude rate k2) = true.
Proof.
  intros H0 H.
  destruct k1 as [a | | |], k2 as [b | | |]; simpl in H0, H; try discriminate.
  - rewrite !softCap_Fin. apply nlt_Fin. apply nlt_Fin in H.
    assert (exp (- rate * b) < exp (- rate * a)) by (apply exp_increasing; nra).
    nra.
  - rewrite softCap_Fin, softCap_PInf. apply nlt_Fin.
    pose proof (exp_pos (- rate * a)). nra.
Qed.

End SoftCap.

Lemma karmaQiMult_softCap (k : num) : karmaQiMult k = softCap 1.2 0.04 k.
Proof. unfold karmaQiMult, softCap. do 5 f_equal. apply f_equal. lra. Qed.

Lemma karmaLifeMult_softCap (k : num) : karmaLifeMult k = softCap 1.5 0.03 k.
Proof. unfold karmaLifeMult, softCap. do 5 f_equal. apply f_equal. lra. Qed.

Lemma karmaStageMult_softCap (k : num) : karmaStageMult k = softCap 0.6 0.03 k.
Proof. unfold karmaStageMult, softCap. do 5 f_equal. apply f_equal. lra. Qed.

(** ** Binary64 rounding *)

Lemma ln2_pos : 0 < ln 2.
Proof. pose proof ln_lt_2. lra. Qed.

Lemma pow2_exp (n : Z) : powerRZ 2 n = exp (IZR n * ln 2).
Proof. rewrite powerRZ_Rpower by lra. reflexivity. Qed.

Lemma pow2_pos (n : Z) : 0 < powerRZ 2 n.
Proof. apply powerRZ_lt. lra. Qed.

Lemma pow2_le (n m : Z) : (n <= m)%Z -> powerRZ 2 n <= powerRZ 2 m.
Proof.
  intros H. rewrite !pow2_exp.
  destruct (Z.eq_dec n m) as [-> | Hne]; [lra |].
  left. apply exp_increasing. apply Rmult_lt_compat_r; [exact ln2_pos |].
  apply IZR_lt. lia.
Qed.

Lemma binade_bound (x : R) :
  x <> 0 -> powerRZ 2 (binade x) <= Rabs x < powerRZ 2 (binade x + 1).
Proof.
  intros Hx. assert (Ha : 0 < Rabs x) by now apply Rabs_pos_lt.
  unfold binade. pose proof (Zfloor_bound (ln (Rabs x) / ln 2)) as [H1 H2].
  set (n := Zfloor (ln (Rabs x) / ln 2)) in *.
  pose proof ln2_pos as L.
  rewrite !pow2_exp, plus_IZR.
  assert (Ex : exp (ln (Rabs x)) = Rabs x) by now apply exp_ln.
  assert (E : ln (Rabs x) = ln (Rabs x) / ln 2 * ln 2) by (field; lra).
  rewrite <- Ex. split.
  - destruct (Req_dec (IZR n * ln 2) (ln (Rabs x))) as [-> | Hne]; [lra |].
    left. apply exp_increasing. rewrite E. nra.
  - apply exp_increasing. rewrite E at 1. nra.
Qed.

Lemma binade_eq (x : R) (n : Z) :
  powerRZ 2 n <= Rabs x < powerRZ 2 (n + 1) -> binade x = n.
Proof.
  intros [H1 H2]. pose proof (pow2_pos n) as P.
  assert (Ha : 0 < Rabs x) by lra.
  pose proof ln2_pos as L.
  unfold binade. apply Zfloor_eq.
  rewrite !pow2_exp, plus_IZR in *.
  assert (G1 : IZR n * ln 2 <= ln (Rabs x)).
  { destruct H1 as [H1 | H1].
    - left. rewrite <- (ln_exp (IZR n * ln 2)). now apply ln_increasing; [apply exp_pos |].
    - rewrite <- H1, ln_exp. lra. }
  assert (G2 : ln (Rabs x) < (IZR n + 1) * ln 2).
  { rewrite <- (ln_exp ((IZR n + 1) * ln 2)). now apply ln_increasing. }
  split.
  - apply (Rmult_le_reg_r (ln 2)); [exact L |].
    replace (ln (Rabs x) / ln 2 * ln 2) with (ln (Rabs x)) by (field; lra). exact G1.
  - apply (Rmult_lt_reg_r (ln 2)); [exact L |].
    replace (ln (Rabs x) / ln 2 * ln 2) with (ln (Rabs x)) by (field; lra). exact G2.
Qed.

Lemma nearestEven_err (z : R) : Rabs (IZR (nearestEven z) - z) <= 1 / 2.
Proof.
  unfold nearestEven. pose proof (Zfloor_bound z) as [H1 H2].
  set (f := Zfloor z) in *.
  destruct (Rlt_dec (z - IZR f) (1 / 2)) as [A | A].
  - apply Rabs_le. lra.
  - destruct (Rlt_dec (1 / 2) (z - IZR f)) as [B | B].
    + rewrite plus_IZR. apply Rabs_le. lra.
    + destruct (Z.even f); [| rewrite plus_IZR]; apply Rabs_le; lra.
Qed.

Lemma nearestEven_nonneg (z : R) : 0 <= z -> (0 <= nearestEven z)%Z.
Proof.
  intros Hz. unfold nearestEven.
  assert (H : (0 <= Zfloor z)%Z) by (apply Zfloor_lub; simpl; lra).
  destruct (Rlt_dec _ _); [exact H |].
  destruct (Rlt_dec _ _); [lia |]. destruct (Z.even _); lia.
Qed.

Lemma round64_err (x : R) : Rabs (round64 x - x) <= ulp64 x / 2.
Proof.
  unfold round64. pose proof (pow2_pos (Z.max (binade x) (-1022) - 52)) as U.
  fold (ulp64 x) in U.
  destruct (Req_dec_T x 0) as [-> | Hx].
  - rewrite Rminus_0_r, Rabs_R0. lra.
  - pose proof (nearestEven_err (x / ulp64 x)) as H.
    replace (IZR (nearestEven (x / ulp64 x)) * ulp64 x - x)
      with ((IZR (nearestEven (x / ulp64 x)) - x / ulp64 x) * ulp64 x)
      by (field; lra).
    rewrite Rabs_mult, (Rabs_pos_eq (ulp64 x)) by lra. nra.
Qed.

Lemma round64_nonneg (x : R) : 0 <= x -> 0 <= round64 x.
Proof.
  intros Hx. unfold round64. destruct (Req_dec_T x 0); [lra |].
  pose proof (pow2_pos (Z.max (binade x) (-1022) - 52)) as U.
  fold (ulp64 x) in U.
  apply Rmult_le_pos; [| lra]. apply IZR_le, nearestEven_nonneg.
  apply Rmult_le_pos; [lra |]. left. now apply Rinv_0_lt_compat.
Qed.

(** The spacing of the doubles around [x] is at most [|x| * 2^-52] in the
    normal range and [2^-1074] below it. *)
Lemma ulp64_bound (x : R) :
  x <> 0 -> ulp64 x <= Rabs x * powerRZ 2 (-52) + powerRZ 2 (-1074).
Proof.
  intros Hx. pose proof (binade_bound x Hx) as [H1 _].
  pose proof (pow2_pos (-1074)) as T. pose proof (pow2_pos (-52)) as T'.
  pose proof (Rabs_pos x) as A.
  unfold ulp64. destruct (Z.max_spec (binade x) (-1022)) as [[_ ->] | [_ ->]].
  - change (-1022 - 52)%Z with (-1074)%Z. nra.
  - replace (binade x - 52)%Z with (binade x + -52)%Z by lia.
    rewrite powerRZ_add by lra. nra.
Qed.

Lemma IZR_pow2 (n : nat) : IZR (2 ^ Z.of_nat n) = 2 ^ n.
Proof. symmetry. apply pow_IZR. Qed.

Lemma nearestEven_IZR (z : Z) : nearestEven (IZR z) = z.
Proof.
  unfold nearestEven. rewrite ZfloorZ.
  destruct (Rlt_dec _ _); [reflexivity | lra].
Qed.

(** [1 - e] rounds to 1 when [e] is less than half the spacing of the
    doubles below 1. *)
Lemma round64_near_1 (e : R) :
  0 <= e < powerRZ 2 (-54) -> round64 (1 - e) = 1.
Proof.
  intros [H0 H1].
  assert (P54 : powerRZ 2 (-54) = / 2 ^ 54) by reflexivity.
  assert (P53 : powerRZ 2 (-53) = / 2 ^ 53) by reflexivity.
  assert (P52 : powerRZ 2 (-52) = / 2 ^ 52) by reflexivity.
  destruct (Req_dec e 0) as [-> | He].
  - rewrite Rminus_0_r. unfold round64.
    destruct (Req_dec_T 1 0); [lra |].
    assert (B : binade 1 = 0%Z).
    { apply binade_eq. rewrite Rabs_R1. simpl. lra. }
    unfold ulp64. rewrite B. change (Z.max 0 (-1022) - 52)%Z with (-52)%Z.
    rewrite P52.
    replace (1 / / 2 ^ 52) with (IZR (2 ^ Z.of_nat 52))
      by (rewrite IZR_pow2; field; apply pow_nonzero; lra).
    rewrite nearestEven_IZR, IZR_pow2.
    field.
  - unfold round64.
    assert (Hpos : 0 < 2 ^ 54) by (apply pow_lt; lra).
    assert (Hsmall : / 2 ^ 54 <= / 2).
    { apply Rinv_le_contravar; [lra |]. simpl. lra. }
    destruct (Req_dec_T (1 - e) 0); [lra |].
    assert (B : binade (1 - e) = (-1)%Z).
    { apply binade_eq. rewrite Rabs_pos_eq by lra. simpl. lra. }
    unfold ulp64. rewrite B. change (Z.max (-1) (-1022) - 52)%Z with (-53)%Z.
    rewrite P53.
    assert (P : 0 < 2 ^ 53) by (apply pow_lt; lra).
    assert (N : nearestEven ((1 - e) / / 2 ^ 53) = (2 ^ Z.of_nat 53)%Z).
    { assert (E : (1 - e) / / 2 ^ 53
                  = IZR (2 ^ Z.of_nat 53 - 1) + (1 - e * 2 ^ 53)).
      { rewrite minus_IZR, IZR_pow2. field. }
      assert (E54 : 2 ^ 54 = 2 * 2 ^ 53) by (simpl; lra).
      assert (F1 : 0 < e * 2 ^ 53) by nra.
      assert (F2 : e * 2 ^ 53 < 1 / 2).
      { rewrite P54, E54 in H1.
        apply (Rmult_lt_compat_r (2 ^ 53)) in H1; [| exact P].
        replace (/ (2 * 2 ^ 53) * 2 ^ 53) with (1 / 2) in H1 by (field; lra).
        exact H1. }
      unfold nearestEven.
      assert (Fl : Zfloor ((1 - e) / / 2 ^ 53) = (2 ^ Z.of_nat 53 - 1)%Z).
      { apply Zfloor_eq. rewrite E. lra. }
      rewrite Fl. rewrite E.
      destruct (Rlt_dec _ _) as [A | A]; [lra |].
      destruct (Rlt_dec _ _) as [A' | A']; [lia | lra]. }
    rewrite N, IZR_pow2.
    field.
Qed.

Lemma pow2_m10 : powerRZ 2 (-10) = / 1024.
Proof. simpl. f_equal. lra. Qed.

Lemma pow2_small (n : Z) : (n <= -10)%Z -> 0 < powerRZ 2 n <= / 1024.
Proof.
  intros H. split; [apply pow2_pos |]. rewrite <- pow2_m10. now apply pow2_le.
Qed.

Lemma Rabs_within (a b : R) : Rabs a <= b -> - b <= a <= b.
Proof. unfold Rabs. destruct (Rcase_abs a); lra. Qed.

(** Rounding moves a number by at most a thousandth of its size, up to
    the smallest subnormal. *)
Lemma round64_close (x : R) :
  Rabs (round64 x - x) <= Rabs x / 1024 + powerRZ 2 (-1074).
Proof.
  pose proof (round64_err x) as H. pose proof (Rabs_pos x) as A.
  pose proof (pow2_pos (-1074)) as T.
  destruct (Req_dec x 0) as [-> | Hx].
  - unfold round64 in *. destruct (Req_dec_T 0 0); [| lra].
    rewrite Rminus_0_r, Rabs_R0. lra.
  - pose proof (ulp64_bound x Hx) as U.
    pose proof (pow2_small (-52) ltac:(lia)) as [S1 S2]. nra.
Qed.

Lemma exp_neg_nat (n : nat) : exp (- INR n) <= / 2 ^ n.
Proof.
  assert (E1 : exp (-1) <= / 2).
  { pose proof (exp_ineq1 1 ltac:(lra)) as H.
    replace (exp (-1)) with (/ exp 1)
      by (rewrite <- exp_Ropp; f_equal; lra).
    apply Rinv_le_contravar; lra. }
  induction n as [| n IH].
  - simpl. rewrite Ropp_0, exp_0. lra.
  - rewrite S_INR. replace (- (INR n + 1)) with (- INR n + -1) by lra.
    rewrite exp_plus. cbn [pow]. pose proof (exp_pos (- INR n)) as P1.
    pose proof (exp_pos (-1)) as P2.
    assert (Q : 0 < / 2 ^ n) by (apply Rinv_0_lt_compat, pow_lt; lra).
    rewrite Rinv_mult. nra.
Qed.

Lemma exp_small (a : R) : a <= -56 -> 0 < exp a <= / 2 ^ 56.
Proof.
  intros Ha. split; [apply exp_pos |].
  pose proof (exp_neg_nat 56) as H.
  assert (M : exp a <= exp (- INR 56)).
  { destruct (Req_dec a (- INR 56)) as [-> | Hne]; [lra |].
    left. apply exp_increasing.
    assert (I : INR 56 = 56) by (simpl; lra). lra. }
  lra.
Qed.

Lemma pow2_54_56 : powerRZ 2 (-54) = 4 * / 2 ^ 56.
Proof.
  change (powerRZ 2 (-54)) with (/ 2 ^ 54).
  change (2 ^ 56) with (2 * (2 * 2 ^ 54)).
  assert (0 < 2 ^ 54) by (apply pow_lt; lra). field.
Qed.

(** A [Math.exp] within a factor of 2 of the exponential vanishes against
    1 from -56 down, and so does the correctly rounded exponential. *)
Lemma Math_exp_small (Math_exp : R -> R) (a : R) :
  (forall x : R, 0 <= Math_exp x <= 2 * exp x) ->
  a <= -56 -> 0 <= Math_exp a < powerRZ 2 (-54).
Proof.
  intros H Ha. destruct (H a) as [H0 H1].
  destruct (exp_small a Ha) as [E0 E1].
  rewrite pow2_54_56. lra.
Qed.

Lemma exp64_small (a : R) : a <= -56 -> 0 <= exp64 a < powerRZ 2 (-54).
Proof.
  intros Ha. unfold exp64. destruct (exp_small a Ha) as [E0 E1].
  split; [apply round64_nonneg; lra |].
  pose proof (round64_close (exp a)) as C.
  rewrite (Rabs_pos_eq (exp a)) in C by lra.
  apply Rabs_within in C.
  assert (T : powerRZ 2 (-1074) <= powerRZ 2 (-56)) by (apply pow2_le; lia).
  change (powerRZ 2 (-56)) with (/ 2 ^ 56) in T.
  rewrite pow2_54_56. lra.
Qed.

(** The argument of the exponential at a rate of at least 0.03 and a
    karma of at least 2000. *)
Lemma softCap64_argument (rate karma : R) :
  0.03 <= rate -> 2000 <= karma -> fmul (- round64 rate) karma <= -56.
Proof.
  intros Hr Hk. unfold fmul.
  pose proof (pow2_small (-1074) ltac:(lia)) as [T1 T2].
  pose proof (round64_close rate) as C1.
  rewrite (Rabs_pos_eq rate) in C1 by lra. apply Rabs_within in C1.
  set (r := round64 rate) in *.
  assert (R1 : 0.0289 <= r) by lra.
  pose proof (round64_close (- r * karma)) as C2.
  assert (X : - r * karma <= -57.8) by nra.
  rewrite (Rabs_left (- r * karma)) in C2 by lra.
  apply Rabs_within in C2. lra.
Qed.

(** Once the exponential term is below [2^-54] the soft cap no longer
    depends on the karma. *)
Lemma softCap64_saturates (Math_exp : R -> R) (amplitude rate k1 k2 : R) :
  0 <= Math_exp (fmul (- round64 rate) k1) < powerRZ 2 (-54) ->
  0 <= Math_exp (fmul (- round64 rate) k2) < powerRZ 2 (-54) ->
  softCap64 Math_exp amplitude rate k1 = softCap64 Math_exp amplitude rate k2.
Proof.
  intros H1 H2. unfold softCap64, fsub.
  now rewrite !round64_near_1.
Qed.

Lemma softCap64_flat_any (Math_exp : R -> R) (amplitude rate : R) :
  (forall x : R, 0 <= Math_exp x <= 2 * exp x) -> 0.03 <= rate ->
  softCap64 Math_exp amplitude rate 2000
  = softCap64 Math_exp amplitude rate 4000.
Proof.
  intros H Hr. apply softCap64_saturates; apply Math_exp_small;
    try exact H; apply softCap64_argument; lra.
Qed.

Lemma softCap64_flat_2000_4000 (amplitude rate : R) :
  0.03 <= rate ->
  softCap64 exp64 amplitude rate 2000 = softCap64 exp64 amplitude rate 4000.
Proof.
  intros Hr. apply softCap64_saturates; apply exp64_small;
    apply softCap64_argument; lra.
Qed.

Lemma nearestEven_bounds (z : R) :
  (Zfloor z <= nearestEven z <= Zfloor z + 1)%Z.
Proof.
  unfold nearestEven.
  destruct (Rlt_dec _ _); [lia |]. destruct (Rlt_dec _ _); [lia |].
  destruct (Z.even _); lia.
Qed.

Lemma nearestEven_mono (z1 z2 : R) :
  z1 <= z2 -> (nearestEven z1 <= nearestEven z2)%Z.
Proof.
  intros H. pose proof (Zfloor_le z1 z2 H) as F.
  destruct (Z.eq_dec (Zfloor z1) (Zfloor z2)) as [E | NE].
  - unfold nearestEven. rewrite E.
    destruct (Rlt_dec (z1 - IZR (Zfloor z2)) (1 / 2));
      destruct (Rlt_dec (z2 - IZR (Zfloor z2)) (1 / 2));
      destruct (Rlt_dec (1 / 2) (z1 - IZR (Zfloor z2)));
      destruct (Rlt_dec (1 / 2) (z2 - IZR (Zfloor z2)));
      destruct (Z.even (Zfloor z2)); try lia; lra.
  - pose proof (nearestEven_bounds z1). pose proof (nearestEven_bounds z2). lia.
Qed.

Lemma nearestEven_opp (z : R) : nearestEven (- z) = (- nearestEven z)%Z.
Proof.
  pose proof (Zfloor_bound z) as [H1 H2].
  destruct (Req_dec z (IZR (Zfloor z))) as [E | NE].
  - rewrite E at 1 2. rewrite <- opp_IZR, !nearestEven_IZR. reflexivity.
  - assert (F : Zfloor (- z) = (- Zfloor z - 1)%Z).
    { apply Zfloor_eq. rewrite minus_IZR, opp_IZR. lra. }
    unfold nearestEven. rewrite F, minus_IZR, opp_IZR.
    assert (Ev : Z.even (- Zfloor z - 1) = negb (Z.even (Zfloor z))).
    { replace (- Zfloor z - 1)%Z with (- (Zfloor z + 1))%Z by lia.
      rewrite Z.even_opp, Z.even_add. destruct (Z.even (Zfloor z)); reflexivity. }
    rewrite Ev.
    destruct (Rlt_dec (- z - (- IZR (Zfloor z) - 1)) (1 / 2));
      destruct (Rlt_dec (z - IZR (Zfloor z)) (1 / 2));
      destruct (Rlt_dec (1 / 2) (- z - (- IZR (Zfloor z) - 1)));
      destruct (Rlt_dec (1 / 2) (z - IZR (Zfloor z)));
      destruct (Z.even (Zfloor z)); cbn [negb]; try lia; lra.
Qed.

Lemma binade_opp (x : R) : binade (- x) = binade x.
Proof. unfold binade. now rewrite Rabs_Ropp. Qed.

Lemma ulp64_opp (x : R) : ulp64 (- x) = ulp64 x.
Proof. unfold ulp64. now rewrite binade_opp. Qed.

Lemma ulp64_pos (x : R) : 0 < ulp64 x.
Proof. apply pow2_pos. Qed.

Lemma round64_0 : round64 0 = 0.
Proof. unfold round64. destruct (Req_dec_T 0 0); [reflexivity | lra]. Qed.

Lemma round64_opp (x : R) : round64 (- x) = - round64 x.
Proof.
  unfold round64.
  destruct (Req_dec_T x 0) as [-> | Hx].
  - rewrite Ropp_0. destruct (Req_dec_T 0 0); lra.
  - destruct (Req_dec_T (- x) 0); [lra |].
    rewrite ulp64_opp. pose proof (ulp64_pos x) as U.
    replace (- x / ulp64 x) with (- (x / ulp64 x)) by (field; lra).
    rewrite nearestEven_opp, opp_IZR. ring.
Qed.

Lemma pow2_lt_inv (n m : Z) : powerRZ 2 n < powerRZ 2 m -> (n < m)%Z.
Proof.
  intros H. destruct (Z.lt_ge_cases n m) as [L | G]; [exact L |].
  apply pow2_le in G. lra.
Qed.

Lemma binade_mono (x y : R) :
  0 < x -> x <= y -> (binade x <= binade y)%Z.
Proof.
  intros Hx Hxy.
  pose proof (binade_bound x ltac:(lra)) as [A _].
  pose proof (binade_bound y ltac:(lra)) as [_ B].
  rewrite Rabs_pos_eq in A, B by lra.
  assert (L : powerRZ 2 (binade x) < powerRZ 2 (binade y + 1)) by lra.
  apply pow2_lt_inv in L. lia.
Qed.

Lemma round64_pos_mono (x y : R) :
  0 < x -> x <= y -> round64 x <= round64 y.
Proof.
  intros Hx Hxy. pose proof (binade_mono x y Hx Hxy) as Hb.
  unfold round64.
  destruct (Req_dec_T x 0); [lra |]. destruct (Req_dec_T y 0); [lra |].
  pose proof (ulp64_pos x) as Ux. pose proof (ulp64_pos y) as Uy.
  destruct (Z.eq_dec (Z.max (binade x) (-1022)) (Z.max (binade y) (-1022)))
    as [E | NE].
  - assert (Eu : ulp64 x = ulp64 y) by (unfold ulp64; now rewrite E).
    rewrite Eu in *. apply Rmult_le_compat_r; [lra |].
    apply IZR_le, nearestEven_mono.
    apply Rmult_le_compat_r; [| exact Hxy]. left. now apply Rinv_0_lt_compat.
  - set (e0 := Z.max (binade x) (-1022)) in *.
    assert (Ey : Z.max (binade y) (-1022) = binade y) by lia.
    assert (Hlt : (e0 + 1 <= binade y)%Z) by lia.
    pose proof (binade_bound x ltac:(lra)) as [_ Bx].
    pose proof (binade_bound y ltac:(lra)) as [By _].
    rewrite Rabs_pos_eq in Bx, By by lra.
    assert (Ex1 : ulp64 x = powerRZ 2 (e0 - 52)) by reflexivity.
    assert (Ey1 : ulp64 y = powerRZ 2 (binade y - 52))
      by (unfold ulp64; now rewrite Ey).
    (* the rounded x is at most 2^(e0+1) *)
    assert (P53 : powerRZ 2 (e0 + 1) = IZR (2 ^ Z.of_nat 53) * ulp64 x).
    { rewrite Ex1, IZR_pow2.
      replace (e0 + 1)%Z with (53 + (e0 - 52))%Z by lia.
      rewrite powerRZ_add by lra. reflexivity. }
    assert (Hx1 : IZR (nearestEven (x / ulp64 x)) * ulp64 x <= powerRZ 2 (e0 + 1)).
    { rewrite P53. apply Rmult_le_compat_r; [lra |].
      rewrite <- (nearestEven_IZR (2 ^ Z.of_nat 53)) at 1.
      apply IZR_le, nearestEven_mono.
      apply (Rmult_le_reg_r (ulp64 x)); [exact Ux |].
      replace (x / ulp64 x * ulp64 x) with x by (field; lra).
      rewrite <- P53.
      assert (powerRZ 2 (binade x + 1) <= powerRZ 2 (e0 + 1))
        by (apply pow2_le; lia).
      lra. }
    (* the rounded y is at least 2^(binade y) *)
    assert (P52 : powerRZ 2 (binade y) = IZR (2 ^ Z.of_nat 52) * ulp64 y).
    { rewrite Ey1, IZR_pow2.
      replace (binade y) with (52 + (binade y - 52))%Z at 1 by lia.
      rewrite powerRZ_add by lra. reflexivity. }
    assert (Hy1 : powerRZ 2 (binade y) <= IZR (nearestEven (y / ulp64 y)) * ulp64 y).
    { rewrite P52. apply Rmult_le_compat_r; [lra |].
      rewrite <- (nearestEven_IZR (2 ^ Z.of_nat 52)) at 1.
      apply IZR_le, nearestEven_mono.
      apply (Rmult_le_reg_r (ulp64 y)); [exact Uy |].
      replace (y / ulp64 y * ulp64 y) with y by (field; lra).
      rewrite <- P52. exact By. }
    assert (powerRZ 2 (e0 + 1) <= powerRZ 2 (binade y)) by (apply pow2_le; lia).
    lra.
Qed.

(** Rounding to the nearest double is monotone. *)
Lemma round64_mono (x y : R) : x <= y -> round64 x <= round64 y.
Proof.
  intros H.
  destruct (Rlt_dec 0 x) as [Hx | Hx]; [now apply round64_pos_mono |].
  destruct (Rle_dec 0 y) as [Hy | Hy].
  - pose proof (round64_nonneg y Hy) as A.
    pose proof (round64_nonneg (- x) ltac:(lra)) as B.
    rewrite round64_opp in B. lra.
  - assert (L : round64 (- y) <= round64 (- x))
      by (apply round64_pos_mono; lra).
    rewrite !round64_opp in L. lra.
Qed.

Lemma round64_1 : round64 1 = 1.
Proof.
  replace 1 with (1 - 0) at 1 by lra. apply round64_near_1.
  split; [lra | apply pow2_pos].
Qed.

(** In the normal range, a number whose distance to the double below it
    is less than half the spacing is rounded down. *)
Lemma round64_down (x : R) (n f : Z) :
  (-1022 <= n)%Z ->
  powerRZ 2 n <= Rabs x < powerRZ 2 (n + 1) ->
  IZR f <= x * powerRZ 2 (52 - n) < IZR f + 1 / 2 ->
  round64 x = IZR f * powerRZ 2 (n - 52).
Proof.
  intros Hn Hb Hf. pose proof (pow2_pos n) as P.
  assert (Hx : x <> 0).
  { intros ->. rewrite Rabs_R0 in Hb. lra. }
  unfold round64. destruct (Req_dec_T x 0); [contradiction |].
  unfold ulp64. rewrite (binade_eq x n Hb), Z.max_l by lia.
  assert (E : x / powerRZ 2 (n - 52) = x * powerRZ 2 (52 - n)).
  { replace (52 - n)%Z with (- (n - 52))%Z by lia. rewrite powerRZ_neg'.
    reflexivity. }
  rewrite E.
  assert (N : nearestEven (x * powerRZ 2 (52 - n)) = f).
  { unfold nearestEven.
    assert (Fl : Zfloor (x * powerRZ 2 (52 - n)) = f) by (apply Zfloor_eq; lra).
    rewrite Fl. destruct (Rlt_dec _ _); [reflexivity | lra]. }
  now rewrite N.
Qed.

Lemma round64_down_le (x : R) (n f : Z) :
  (-1022 <= n)%Z ->
  powerRZ 2 n <= Rabs x < powerRZ 2 (n + 1) ->
  IZR f <= x * powerRZ 2 (52 - n) < IZR f + 1 / 2 ->
  round64 x <= x.
Proof.
  intros Hn Hb Hf. rewrite (round64_down x n f Hn Hb Hf).
  pose proof (pow2_pos (n - 52)) as P.
  assert (E : x = x * powerRZ 2 (52 - n) * powerRZ 2 (n - 52)).
  { rewrite Rmult_assoc, <- powerRZ_add by lra.
    replace (52 - n + (n - 52))%Z with 0%Z by lia. simpl. lra. }
  rewrite E at 1. apply Rmult_le_compat_r; lra.
Qed.

Lemma pow2_52 : powerRZ 2 52 = 4503599627370496.
Proof.
  change (powerRZ 2 52) with (2 ^ 52).
  rewrite <- IZR_pow2. reflexivity.
Qed.

Lemma pow2_53 : powerRZ 2 53 = 9007199254740992.
Proof.
  change (powerRZ 2 53) with (2 ^ 53).
  rewrite <- IZR_pow2. reflexivity.
Qed.

(** The doubles written 1.2, 1.5 and 0.6 are not above these numbers. *)
Lemma round64_1_2 : round64 1.2 <= 1.2.
Proof.
  apply (round64_down_le 1.2 0 5404319552844595); [lia | |].
  - rewrite Rabs_pos_eq by lra. simpl. lra.
  - change (52 - 0)%Z with 52%Z. rewrite pow2_52. lra.
Qed.

Lemma round64_1_5 : round64 1.5 <= 1.5.
Proof.
  apply (round64_down_le 1.5 0 6755399441055744); [lia | |].
  - rewrite Rabs_pos_eq by lra. simpl. lra.
  - change (52 - 0)%Z with 52%Z. rewrite pow2_52. lra.
Qed.

Lemma round64_0_6 : round64 0.6 <= 0.6.
Proof.
  apply (round64_down_le 0.6 (-1) 5404319552844595); [lia | |].
  - rewrite Rabs_pos_eq by lra. simpl. lra.
  - change (52 - -1)%Z with 53%Z. rewrite pow2_53. lra.
Qed.

(** ** The soft caps in binary64 *)

Section SoftCap64.

Variable Math_exp : R -> R.
Hypothesis Math_exp_mono : forall x y : R, x <= y -> Math_exp x <= Math_exp y.
Hypothesis Math_exp_nonneg : forall x : R, 0 <= Math_exp x.
Hypothesis Math_exp_0 : Math_exp 0 = 1.

Variables amplitude rate : R.
Hypothesis amplitude_nonneg : 0 <= amplitude.
Hypothesis rate_nonneg : 0 <= rate.

Lemma softCap64_mono (k1 k2 : R) :
  k1 <= k2 ->
  softCap64 Math_exp amplitude rate k1 <= softCap64 Math_exp amplitude rate k2.
Proof.
  intros H. unfold softCap64, fadd, fmul, fsub.
  pose proof (round64_nonneg amplitude amplitude_nonneg) as A.
  pose proof (round64_nonneg rate rate_nonneg) as Rt.
  apply round64_mono, Rplus_le_compat_l.
  apply round64_mono, Rmult_le_compat_l; [exact A |].
  apply round64_mono.
  assert (M : Math_exp (round64 (- round64 rate * k2))
              <= Math_exp (round64 (- round64 rate * k1))).
  { apply Math_exp_mono, round64_mono. nra. }
  lra.
Qed.

Lemma softCap64_bounded (k : R) :
  round64 amplitude <= amplitude ->
  softCap64 Math_exp amplitude rate k <= round64 (1 + amplitude).
Proof.
  intros Hd. unfold softCap64, fadd, fmul, fsub.
  pose proof (round64_nonneg amplitude amplitude_nonneg) as A.
  set (e := Math_exp (round64 (- round64 rate * k))).
  pose proof (Math_exp_nonneg (round64 (- round64 rate * k))) as He. fold e in He.
  assert (S1 : round64 (1 - e) <= 1).
  { rewrite <- round64_1 at 2. apply round64_mono. lra. }
  assert (S2 : round64 (round64 amplitude * round64 (1 - e)) <= round64 amplitude).
  { apply Rle_trans with (round64 amplitude).
    - apply Rle_trans with (round64 (round64 amplitude)).
      + apply round64_mono. nra.
      + apply Rle_trans with (round64 amplitude); [| lra].
        apply round64_mono. exact Hd.
    - lra. }
  apply round64_mono. lra.
Qed.

Lemma softCap64_zero : softCap64 Math_exp amplitude rate 0 = 1.
Proof.
  unfold softCap64, fadd, fmul, fsub.
  rewrite Rmult_0_r, round64_0, Math_exp_0.
  replace (1 - 1) with 0 by lra. rewrite round64_0, Rmult_0_r, round64_0.
  rewrite Rplus_0_r. apply round64_1.
Qed.

End SoftCap64.

Lemma karmaQiMult64_softCap (Math_exp : R -> R) (k : R) :
  karmaQiMult64 Math_exp k = softCap64 Math_exp 1.2 0.04 k.
Proof. reflexivity. Qed.

Lemma karmaLifeMult64_softCap (Math_exp : R -> R) (k : R) :
  karmaLifeMult64 Math_exp k = softCap64 Math_exp 1.5 0.03 k.
Proof. reflexivity. Qed.

Lemma karmaStageMult64_softCap (Math_exp : R -> R) (k : R) :
  karmaStageMult64 Math_exp k = softCap64 Math_exp 0.6 0.03 k.
Proof. reflexivity. Qed.

(** The correctly rounded exponential is non-decreasing, not negative
    and 1 at 0. *)
Lemma exp64_mono (x y : R) : x <= y -> exp64 x <= exp64 y.
Proof.
  intros H. apply round64_mono.
  destruct (Req_dec x y) as [-> | Hne]; [lra |].
  left. apply exp_increasing. lra.
Qed.

Lemma exp64_nonneg (x : R) : 0 <= exp64 x.
Proof. apply round64_nonneg. left. apply exp_pos. Qed.

Lemma exp64_0 : exp64 0 = 1.
Proof. unfold exp64. rewrite exp_0. apply round64_1. Qed.

(** C6 (amended). In binary64, with a [Math.exp] that is non-decreasing,
    not negative and 1 at 0 (as the correctly rounded exponential is),
    each of the three soft caps is non-decreasing in karma, is bounded
    above by the double written 1 plus its amplitude (2.2, 2.5 and 1.6)
    and equals exactly 1 at karma = 0. *)
Theorem softcaps_nondecreasing_bounded_one (Math_exp : R -> R) (k1 k2 : R) :
  (forall x y : R, x <= y -> Math_exp x <= Math_exp y) ->
  (forall x : R, 0 <= Math_exp x) ->
  Math_exp 0 = 1 ->
  0 <= k1 -> k1 <= k2 ->
  (karmaQiMult64 Math_exp k1 <= karmaQiMult64 Math_exp k2
   /\ karmaQiMult64 Math_exp k1 <= round64 2.2
   /\ karmaQiMult64 Math_exp k2 <= round64 2.2
   /\ karmaQiMult64 Math_exp 0 = 1)
  /\ (karmaLifeMult64 Math_exp k1 <= karmaLifeMult64 Math_exp k2
      /\ karmaLifeMult64 Math_exp k1 <= round64 2.5
      /\ karmaLifeMult64 Math_exp k2 <= round64 2.5
      /\ karmaLifeMult64 Math_exp 0 = 1)
  /\ (karmaStageMult64 Math_exp k1 <= karmaStageMult64 Math_exp k2
      /\ karmaStageMult64 Math_exp k1 <= round64 1.6
      /\ karmaStageMult64 Math_exp k2 <= round64 1.6
      /\ karmaStageMult64 Math_exp 0 = 1).
Proof.
  intros Hm Hn H0 Hk1 Hk12.
  rewrite !karmaQiMult64_softCap, !karmaLifeMult64_softCap,
    !karmaStageMult64_softCap.
  replace 2.2 with (1 + 1.2) by lra.
  replace 2.5 with (1 + 1.5) by lra.
  replace 1.6 with (1 + 0.6) by lra.
  pose proof round64_1_2. pose proof round64_1_5. pose proof round64_0_6.
  repeat split;
    first [ apply softCap64_mono; (assumption || lra)
          | apply softCap64_bounded; (assumption || lra)
          | apply softCap64_zero; assumption ].
Qed.

(** The soft caps with the correctly rounded exponential, at karma 10
    and karma 4000. *)
Lemma softcaps_nondecreasing_bounded_one_witness :
  karmaQiMult64 exp64 10 <= karmaQiMult64 exp64 4000
  /\ karmaLifeMult64 exp64 4000 <= round64 2.5
  /\ karmaStageMult64 exp64 0 = 1.
Proof.
  assert (H1 : 0 <= 10) by lra. assert (H2 : 10 <= 4000) by lra.
  pose proof (softcaps_nondecreasing_bounded_one exp64 10 4000
                exp64_mono exp64_nonneg exp64_0 H1 H2) as H.
  split; [apply H |]. split; apply H.
Defined.

(** At the low end the binary64 soft caps do rise: at karma 10 each is
    above the 1 it takes at karma 0. *)
Lemma softCap64_rises (amplitude rate : R) :
  0.6 <= amplitude <= 2 -> 0.03 <= rate <= 0.04 ->
  1 < softCap64 exp64 amplitude rate 10.
Proof.
  intros Ha Hr. unfold softCap64, fadd, fmul, fsub, exp64.
  pose proof (pow2_small (-1074) ltac:(lia)) as [T1 T2].
  assert (T3 : powerRZ 2 (-1074) <= / 1000000).
  { apply Rle_trans with (powerRZ 2 (-20)); [apply pow2_le; lia |].
    simpl. apply Rinv_le_contravar; lra. }
  pose proof (round64_close rate) as C1.
  rewrite (Rabs_pos_eq rate) in C1 by lra. apply Rabs_within in C1.
  set (r := round64 rate) in *.
  assert (R1 : 0.029 <= r <= 0.041) by lra.
  pose proof (round64_close (- r * 10)) as C2.
  rewrite (Rabs_left (- r * 10)) in C2 by lra. apply Rabs_within in C2.
  set (a := round64 (- r * 10)) in *.
  assert (A1 : a <= -0.28) by lra.
  assert (E1 : exp a <= / 1.28).
  { pose proof (exp_ineq1 0.28 ltac:(lra)) as I.
    assert (M : exp a <= exp (Ropp 0.28)).
    { destruct (Req_dec a (Ropp 0.28)) as [-> | Hne]; [lra |].
      left. apply exp_increasing. lra. }
    rewrite exp_Ropp in M.
    assert (/ exp 0.28 <= / 1.28) by (apply Rinv_le_contravar; lra).
    lra. }
  assert (E0 : 0 < exp a) by apply exp_pos.
  assert (E2 : / 1.28 <= 0.782) by lra.
  pose proof (round64_close (exp a)) as C3.
  rewrite (Rabs_pos_eq (exp a)) in C3 by lra. apply Rabs_within in C3.
  set (e := round64 (exp a)) in *.
  assert (E3 : e <= 0.79) by lra.
  pose proof (round64_close (1 - e)) as C4.
  rewrite (Rabs_pos_eq (1 - e)) in C4 by lra. apply Rabs_within in C4.
  set (s := round64 (1 - e)) in *.
  assert (S1 : 0.2 <= s) by lra.
  pose proof (round64_close amplitude) as C5.
  rewrite (Rabs_pos_eq amplitude) in C5 by lra. apply Rabs_within in C5.
  set (A := round64 amplitude) in *.
  assert (A2 : 0.59 <= A) by lra.
  assert (P : 0.118 <= A * s) by nra.
  pose proof (round64_close (A * s)) as C6.
  rewrite (Rabs_pos_eq (A * s)) in C6 by lra. apply Rabs_within in C6.
  set (m := round64 (A * s)) in *.
  assert (M1 : 0.11 <= m) by lra.
  pose proof (round64_close (1 + m)) as C7.
  rewrite (Rabs_pos_eq (1 + m)) in C7 by lra. apply Rabs_within in C7.
  lra.
Qed.

(** C6 (counterexample). With the correctly rounded exponential the
    soft caps rise at first, each is above 1 at karma 10, but between
    karma 2000 and karma 4000 none of the three increases: there the
    exponential term is below [2^-54], and [1 - e] is 1 in binary64.
    The same holds for every [Math.exp] that stays within a factor of 2
    of the exponential. *)
Lemma softcaps_flat_in_binary64 :
  (1 < karmaQiMult64 exp64 10 /\ 1 < karmaLifeMult64 exp64 10
   /\ 1 < karmaStageMult64 exp64 10)
  /\ 2000 < 4000
  /\ karmaQiMult64 exp64 2000 = karmaQiMult64 exp64 4000
  /\ karmaLifeMult64 exp64 2000 = karmaLifeMult64 exp64 4000
  /\ karmaStageMult64 exp64 2000 = karmaStageMult64 exp64 4000
  /\ ~ karmaQiMult64 exp64 2000 < karmaQiMult64 exp64 4000
  /\ (forall Math_exp : R -> R,
        (forall x : R, 0 <= Math_exp x <= 2 * exp x) ->
        karmaQiMult64 Math_exp 2000 = karmaQiMult64 Math_exp 4000
        /\ karmaLifeMult64 Math_exp 2000 = karmaLifeMult64 Math_exp 4000
        /\ karmaStageMult64 Math_exp 2000 = karmaStageMult64 Math_exp 4000).
Proof.
  rewrite !karmaQiMult64_softCap, !karmaLifeMult64_softCap,
    !karmaStageMult64_softCap.
  pose proof (softCap64_flat_2000_4000 1.2 0.04 ltac:(lra)) as Q.
  pose proof (softCap64_flat_2000_4000 1.5 0.03 ltac:(lra)) as L.
  pose proof (softCap64_flat_2000_4000 0.6 0.03 ltac:(lra)) as S.
  split; [repeat split; apply softCap64_rises; lra |].
  split; [lra |].
  split; [exact Q |]. split; [exact L |]. split; [exact S |].
  split; [rewrite Q; lra |].
  intros Math_exp H.
  rewrite !karmaQiMult64_softCap, !karmaLifeMult64_softCap,
    !karmaStageMult64_softCap.
  repeat split; apply softCap64_flat_any; (exact H || lra).
Qed.

(** ** Stage requirement *)

Lemma karmaStageMult_Fin (k : R) :
  karmaStageMult (Fin k) = Fin (1 + 0.6 * (1 - exp (-0.03 * k))).
Proof. reflexivity. Qed.

Lemma karmaStageMult_ge_1 (k : R) :
  0 <= k -> 1 <= 1 + 0.6 * (1 - exp (-0.03 * k)).
Proof.
  intros Hk.
  assert (exp (-0.03 * k) <= 1).
  { rewrite <- exp_0. destruct (Req_dec_T k 0) as [-> | Hne].
    - rewrite Rmult_0_r. lra.
    - left. apply exp_increasing. lra. }
  lra.
Qed.

(** The requirement on a state whose karma is a non-negative real. *)
Lemma stageRequirement_Fin
  (BAL : Balance) (s : State) (realmIndex stage : Z) (k : R) :
  karma (reinc s) = Fin k -> 0 <= k ->
  stageRequirement BAL s realmIndex stage =
  Fin (IZR (Zfloor
    (IZR (Zfloor (realmBase BAL * powerRZ (realmBaseScale BAL) realmIndex
                  * powerRZ (stageScale BAL) (stage - 1)))
     * (1 / (1 + 0.6 * (1 - exp (-0.03 * k))))))).
Proof.
  intros Hk Hpos.
  unfold stageRequirement, karmaStageBonus. rewrite Hk, karmaStageMult_Fin.
  rewrite ndiv_Fin by (pose proof (karmaStageMult_ge_1 k Hpos); lra).
  replace 1.0 with 1 by lra. reflexivity.
Qed.

(** C4 (amended). For every realm index, stage and karma >= 0 the stage
    requirement is the base requirement floored first, then multiplied by
    the karma reduction [1 / karmaStageMult(karma)] and floored again:
    two floors, not one floor of the karma-divided product. *)
Theorem stageRequirement_two_floors
  (BAL : Balance) (s : State) (realmIndex stage : Z) (k : R) :
  karma (reinc s) = Fin k -> 0 <= k ->
  exists baseRequirement : Z,
    baseRequirement
    = Zfloor (realmBase BAL * powerRZ (realmBaseScale BAL) realmIndex
              * powerRZ (stageScale BAL) (stage - 1))
    /\ karmaStageMult (Fin k) = Fin (1 + 0.6 * (1 - exp (-0.03 * k)))
    /\ stageRequirement BAL s realmIndex stage
       = Fin (IZR (Zfloor (IZR baseRequirement
                           * (1 / (1 + 0.6 * (1 - exp (-0.03 * k))))))).
Proof.
  intros Hk Hpos. eexists. split; [reflexivity |]. split; [reflexivity |].
  now apply stageRequirement_Fin.
Qed.

(** The requirement of realm 0, stage 3 on a life that carries 2 karma. *)
Lemma stageRequirement_two_floors_witness :
  exists baseRequirement : Z,
    baseRequirement
    = Zfloor (realmBase defaultBAL * powerRZ (realmBaseScale defaultBAL) 0
              * powerRZ (stageScale defaultBAL) (3 - 1))
    /\ karmaStageMult (Fin 2) = Fin (1 + 0.6 * (1 - exp (-0.03 * 2)))
    /\ stageRequirement defaultBAL st_karma2 0 3
       = Fin (IZR (Zfloor (IZR baseRequirement
                           * (1 / (1 + 0.6 * (1 - exp (-0.03 * 2))))))).
Proof.
  apply (stageRequirement_two_floors defaultBAL st_karma2 0 3 2);
    [reflexivity | lra].
Defined.

(** [exp(-0.06)] lies between 0.9415 and 0.942. *)
Lemma exp_m006_bounds : 0.9415 < exp (-0.06) < 0.942.
Proof.
  assert (Hlo : 0.9925 < exp (-0.0075)).
  { pose proof (exp_ineq1 (-0.0075)). lra. }
  assert (Hhi : 1.0075 < exp 0.0075).
  { pose proof (exp_ineq1 0.0075). lra. }
  assert (Hinv : exp (-0.0075) * exp 0.0075 = 1).
  { rewrite <- exp_plus. replace (-0.0075 + 0.0075) with 0 by lra. apply exp_0. }
  assert (H8 : exp (-0.06) =
               (exp (-0.0075) * exp (-0.0075)) * (exp (-0.0075) * exp (-0.0075))
               * ((exp (-0.0075) * exp (-0.0075)) * (exp (-0.0075) * exp (-0.0075)))).
  { rewrite <- !exp_plus. f_equal. lra. }
  set (e := exp (-0.0075)) in *.
  assert (Hup : e < 0.992557) by (pose proof (exp_pos 0.0075); nra).
  assert (L2 : 0.98505 < e * e) by nra.
  assert (U2 : e * e < 0.98517) by nra.
  set (e2 := e * e) in *.
  assert (L4 : 0.97032 < e2 * e2) by nra.
  assert (U4 : e2 * e2 < 0.97056) by nra.
  set (e4 := e2 * e2) in *.
  rewrite H8. split; nra.
Qed.

(** C4 (counterexample). With the built-in balance table, 2 karma, realm 0
    and stage 3 the source returns 262 while the single-floor formula
    gives 263: the base requirement 272.25 is floored to 272 before the
    karma reduction is applied. *)
Lemma stageRequirement_single_floor_fails :
  karma (reinc st_karma2) = Fin 2
  /\ stageRequirement defaultBAL st_karma2 0 3 = Fin 262
  /\ spec_stageRequirement defaultBAL 0 3 (Fin 2) = Fin 263
  /\ stageRequirement defaultBAL st_karma2 0 3
     <> spec_stageRequirement defaultBAL 0 3 (karma (reinc st_karma2)).
Proof.
  assert (Hb : realmBase defaultBAL * powerRZ (realmBaseScale defaultBAL) 0
               * powerRZ (stageScale defaultBAL) (3 - 1) = 272.25).
  { simpl. lra. }
  assert (He : 0.9415 < exp (-0.03 * 2) < 0.942).
  { replace (-0.03 * 2) with (-0.06) by lra. apply exp_m006_bounds. }
  set (m := 1 + 0.6 * (1 - exp (-0.03 * 2))) in *.
  assert (Hm : 1.0348 < m < 1.0351) by (unfold m; lra).
  assert (H1 : stageRequirement defaultBAL st_karma2 0 3 = Fin 262).
  { rewrite (stageRequirement_Fin defaultBAL st_karma2 0 3 2) by (reflexivity || lra).
    rewrite Hb. fold m.
    replace (Zfloor 272.25) with 272%Z by (symmetry; apply Zfloor_eq; lra).
    do 2 f_equal. apply Zfloor_eq.
    assert (Hx : 272 * (1 / m) * m = 272) by (field; lra).
    split; nra. }
  assert (H2 : spec_stageRequirement defaultBAL 0 3 (Fin 2) = Fin 263).
  { unfold spec_stageRequirement. rewrite karmaStageMult_Fin. fold m.
    unfold npow, nmul. rewrite Hb. rewrite ndiv_Fin by lra.
    unfold nfloor. do 2 f_equal. apply Zfloor_eq.
    assert (Hx : 272.25 / m * m = 272.25) by (field; lra).
    split; nra. }
  repeat split; try assumption.
  simpl karma. rewrite H1, H2. intros H. inversion H. lra.
Qed.

(** ** Karma gain *)

Lemma sqrt_0_div (d : R) : sqrt (0 / d) = 0.
Proof. unfold Rdiv. rewrite Rmult_0_l. apply sqrt_0. Qed.

Lemma div_nonneg (q d : R) : 0 <= q -> 0 < d -> 0 <= q / d.
Proof.
  intros Hq Hd. apply Rmult_le_pos; [lra | left; apply Rinv_0_lt_compat; lra].
Qed.

(** The base gain on a run whose lifetime Qi is a non-negative real. *)
Lemma computeKarmaGain_Fin (BAL : Balance) (s : State) (q : R) :
  lifetimeQi (reinc s) = Fin q -> 0 <= q -> 0 < lifetimeQiDivisor BAL ->
  computeKarmaGain BAL s =
  Fin (Rmax (minKarma BAL)
         ((IZR (Zfloor (sqrt (q / lifetimeQiDivisor BAL)))
           + IZR (realmIndex s) * realmKarmaFactor BAL)
          * cycleMultiplierR (currentCycle s))).
Proof.
  intros Hq Hpos Hdiv.
  unfold computeKarmaGain. rewrite Hq. unfold safeNum; simpl isFinite; cbv iota.
  rewrite ndiv_Fin by lra.
  rewrite nsqrt_Fin by (apply div_nonneg; lra).
  unfold cycleMultiplierR. destruct (currentCycle s); reflexivity.
Qed.

(** C2 (amended). For a run with lifetime Qi q >= 0 the base karma gain is
    max(minKarma, (floor(sqrt(q / divisor)) + realmIndex x realmKarmaFactor)
    x cycleMultiplier): the cycle multiplier (2 in the spirit cycle, 1
    otherwise) is applied first and the [minKarma] floor last.  A voluntary
    or mandatory transition pays exactly this; a death pays
    max(minKarma, floor(deathPenalty x this)). *)
Theorem computeKarmaGain_floor_after_multiplier
  (BAL : Balance) (s : State) (q : R) :
  lifetimeQi (reinc s) = Fin q -> 0 <= q -> 0 < lifetimeQiDivisor BAL ->
  let g :=
    Rmax (minKarma BAL)
      ((IZR (Zfloor (sqrt (q / lifetimeQiDivisor BAL)))
        + IZR (realmIndex s) * realmKarmaFactor BAL)
       * cycleMultiplierR (currentCycle s)) in
  computeKarmaGain BAL s = Fin g
  /\ computeVoluntaryKarma BAL s = Fin g
  /\ computeDeathKarma BAL s
     = Fin (Rmax (minKarma BAL) (IZR (Zfloor (g * deathPenaltyR BAL)))).
Proof.
  intros Hq Hpos Hdiv g.
  pose proof (computeKarmaGain_Fin BAL s q Hq Hpos Hdiv) as Hg. fold g in Hg.
  split; [exact Hg |]. split.
  - unfold computeVoluntaryKarma. rewrite Hg. simpl. f_equal.
    apply Rmax_right. unfold g. apply Rmax_l.
  - unfold computeDeathKarma. rewrite Hg. unfold deathPenaltyR.
    destruct (deathPenalty BAL) as [p |]; [| reflexivity].
    unfold orElse, truthy. destruct (Req_dec_T p 0); reflexivity.
Qed.

(** The gains of a fresh mortal life under the built-in table. *)
Lemma computeKarmaGain_floor_after_multiplier_witness :
  computeKarmaGain defaultBAL (defaultState defaultBAL 0)
  = Fin (Rmax 1 ((IZR (Zfloor (sqrt (0 / 1000))) + 0 * 2) * 1)).
Proof.
  apply (computeKarmaGain_floor_after_multiplier defaultBAL
           (defaultState defaultBAL 0) 0);
    [reflexivity | lra | simpl; lra].
Defined.

(** C2 (counterexample). In the spirit cycle with no lifetime Qi at realm
    0 the source pays max(1, (0 + 0) x 2) = 1, while the formula with the
    floor taken before the multiplier gives max(1, 0 + 0) x 2 = 2. *)
Lemma karmaGain_floor_before_multiplier_fails :
  computeKarmaGain defaultBAL st_spirit0 = Fin 1
  /\ computeVoluntaryKarma defaultBAL st_spirit0 = Fin 1
  /\ spec_karmaGain defaultBAL st_spirit0 = Fin 2
  /\ computeKarmaGain defaultBAL st_spirit0 <> spec_karmaGain defaultBAL st_spirit0.
Proof.
  assert (Hz : Zfloor 0 = 0%Z) by (apply Zfloor_eq; simpl; lra).
  assert (H1 : computeKarmaGain defaultBAL st_spirit0 = Fin 1).
  { rewrite (computeKarmaGain_Fin defaultBAL st_spirit0 0)
      by (reflexivity || lra || (simpl; lra)).
    rewrite sqrt_0_div, Hz. simpl. f_equal. rewrite Rmax_left; lra. }
  assert (H2 : spec_karmaGain defaultBAL st_spirit0 = Fin 2).
  { unfold spec_karmaGain.
    change (lifetimeQi (reinc st_spirit0)) with (Fin 0).
    change (lifetimeQiDivisor defaultBAL) with 1000.
    rewrite ndiv_Fin by lra.
    rewrite nsqrt_Fin by (apply div_nonneg; lra).
    rewrite sqrt_0_div. simpl. rewrite Hz. f_equal. rewrite Rmax_left; lra. }
  repeat split; try assumption.
  - unfold computeVoluntaryKarma. rewrite H1. simpl. f_equal.
    apply Rmax_left. lra.
  - rewrite H1, H2. intros H. inversion H. lra.
Qed.

(** The same gap at realm 5 in the spirit cycle once [minKarma] is
    configured as 50: the source pays max(50, (0 + 10) x 2) = 50, the
    formula with the floor taken first max(50, 0 + 10) x 2 = 100. *)
Lemma karmaGain_floor_before_multiplier_fails_realm5 :
  computeKarmaGain (withMinKarma 50 defaultBAL) st_void = Fin 50
  /\ spec_karmaGain (withMinKarma 50 defaultBAL) st_void = Fin 100.
Proof.
  assert (Hz : Zfloor 0 = 0%Z) by (apply Zfloor_eq; simpl; lra).
  split.
  - rewrite (computeKarmaGain_Fin (withMinKarma 50 defaultBAL) st_void 0)
      by (reflexivity || lra || (simpl; lra)).
    rewrite sqrt_0_div, Hz. simpl. f_equal. rewrite Rmax_left; lra.
  - unfold spec_karmaGain.
    change (lifetimeQi (reinc st_void)) with (Fin 0).
    change (lifetimeQiDivisor (withMinKarma 50 defaultBAL)) with 1000.
    rewrite ndiv_Fin by lra.
    rewrite nsqrt_Fin by (apply div_nonneg; lra).
    rewrite sqrt_0_div. simpl. rewrite Hz. f_equal. rewrite Rmax_left; lra.
Qed.

(** ** Breakthrough at the Spirit Transformation gate *)

Lemma nge_not_nlt (a b : num) : nge a b = true -> nlt a b = false.
Proof.
  unfold nge. destruct a as [x | | |], b as [y | | |]; simpl; try easy.
  destruct (Rle_dec y x), (Rlt_dec x y); try easy. lra.
Qed.

(** C10. At Spirit Transformation stage 10 (realm index 4) without the
    [unlockedBeyondSpirit] flag and with qi >= the stage requirement,
    [doBreakthrough] subtracts the full requirement from qi, leaves realm
    and stage as they are, and only opens the mandatory-gate prompt. *)
Theorem doBreakthrough_gate_spends_qi (BAL : Balance) (w : World) :
  realmIndex (state w) = 4%Z ->
  stage (state w) = 10%Z ->
  unlockedBeyondSpirit (flags (state w)) = false ->
  nge (qi (state w)) (stageRequirement BAL (state w) 4 10) = true ->
  doBreakthrough BAL w =
    (w |> set_state
            (state w
             |> set_qi (nsub (qi (state w)) (stageRequirement BAL (state w) 4 10)))
       |> show ConfirmSpiritGate)
  /\ realmIndex (state (doBreakthrough BAL w)) = 4%Z
  /\ stage (state (doBreakthrough BAL w)) = 10%Z
  /\ qi (state (doBreakthrough BAL w))
     = nsub (qi (state w)) (stageRequirement BAL (state w) 4 10)
  /\ ui (doBreakthrough BAL w) = ui w ++ [ConfirmSpiritGate].
Proof.
  intros Hr Hs Hf Hq.
  assert (E : doBreakthrough BAL w =
              (w |> set_state
                      (state w
                       |> set_qi (nsub (qi (state w))
                                    (stageRequirement BAL (state w) 4 10)))
                 |> show ConfirmSpiritGate)).
  { unfold doBreakthrough. rewrite Hr, Hs.
    rewrite (nge_not_nlt _ _ Hq). cbn [set_qi stage realmIndex flags].
    rewrite Hr, Hs, Hf. reflexivity. }
  rewrite E. cbn. rewrite Hr, Hs. repeat split.
Qed.

(** The gate world: realm 4, stage 10, flag unset, qi = 1e12. *)
Lemma doBreakthrough_gate_spends_qi_witness :
  realmIndex (state (doBreakthrough defaultBAL w_gate)) = 4%Z
  /\ stage (state (doBreakthrough defaultBAL w_gate)) = 10%Z
  /\ qi (state (doBreakthrough defaultBAL w_gate))
     = nsub (Fin 1e12) (stageRequirement defaultBAL st_gate 4 10).
Proof.
  assert (Hq : nge (qi (state w_gate))
                 (stageRequirement defaultBAL (state w_gate) 4 10) = true).
  { change (state w_gate) with st_gate.
    rewrite (stageRequirement_Fin defaultBAL st_gate 4 10 0) by (reflexivity || lra).
    apply nle_Fin.
    replace (-0.03 * 0) with 0 by lra. rewrite exp_0.
    replace (1 / (1 + 0.6 * (1 - 1))) with 1 by lra.
    set (X := realmBase defaultBAL * powerRZ (realmBaseScale defaultBAL) 4
              * powerRZ (stageScale defaultBAL) (10 - 1)).
    assert (HX : X <= 1e12) by (unfold X; simpl; lra).
    pose proof (Zfloor_bound X) as Hx.
    pose proof (Zfloor_bound (IZR (Zfloor X) * 1)) as Hy.
    simpl qi. lra. }
  pose proof (doBreakthrough_gate_spends_qi defaultBAL w_gate
                eq_refl eq_refl eq_refl Hq) as H.
  split; [apply H |]. split; apply H.
Defined.

(** ** Aging *)

Lemma clamp_range (x M : R) : 0 <= M -> 0 <= Rmax 0 (Rmin x M) <= M.
Proof.
  intros HM. unfold Rmax, Rmin.
  destruct (Rle_dec x M); destruct (Rle_dec 0 _); lra.
Qed.

Lemma clamp_id (a M : R) : 0 <= a <= M -> Rmax 0 (Rmin a M) = a.
Proof.
  intros H. unfold Rmax, Rmin.
  destruct (Rle_dec a M); destruct (Rle_dec 0 _); lra.
Qed.

Lemma migrateAge_Some (s : State) (a : num) : age s = Some a -> migrateAge s = s.
Proof. intros H. unfold migrateAge. rewrite H. now destruct (ageYears s). Qed.

(** What the age migration and initialisation leave behind. *)
Lemma norm_eq (s : State) :
  initAge (migrateAge s)
  = (s |> set_ageYears (ageYears (migrateAge s))
       |> set_age (Some (Fin (ageAfterInit s)))).
Proof.
  destruct s as [q c p cm pm om r st lt sk re ls [[a | | |] |] [y |]
                   d ts cy lf fl lc sa me se];
    unfold migrateAge, initAge, ageAfterInit; cbn;
    try reflexivity;
    try (destruct (Req_dec_T a 0) as [-> | _]; reflexivity).
  - destruct y as [b | | |]; cbn; try reflexivity.
    destruct (Req_dec_T b 0) as [-> | _]; reflexivity.
Qed.

Lemma ageAfterInit_Some (s : State) (a : R) :
  age s = Some (Fin a) -> ageAfterInit s = a.
Proof.
  intros H. unfold ageAfterInit. rewrite (migrateAge_Some _ _ H), H. reflexivity.
Qed.

Lemma getMaxLifespan_ext (BAL : Balance) (arg : option Z) (s1 s2 : State) :
  realmIndex s1 = realmIndex s2 -> karma (reinc s1) = karma (reinc s2) ->
  getMaxLifespan BAL arg s1 = getMaxLifespan BAL arg s2.
Proof. intros Hr Hk. unfold getMaxLifespan. now rewrite Hr, Hk. Qed.

Lemma age_handleLifespanEnd (BAL : Balance) (now : Z) (w : World) :
  age (state (handleLifespanEnd BAL now w)) = age (state w).
Proof.
  unfold handleLifespanEnd.
  destruct (isHandlingDeath w || isReincarnating (lifecycle (state w))
            || isDead (state w)); reflexivity.
Qed.

Lemma baseYearsPerSecond_Fin (BAL : Balance) :
  yearsPerSecond BAL <> 0 -> baseYearsPerSecond BAL = Fin (yearsPerSecond BAL).
Proof. intros H. unfold baseYearsPerSecond. now apply orElse_Fin. Qed.

Lemma isImmortal_false (BAL : Balance) (s : State) (m : num) :
  getMaxLifespan BAL None s = Some m -> isImmortal BAL s = false.
Proof. intros H. unfold isImmortal. now rewrite H. Qed.

Lemma orElse_positive (x : num) : nlt (Fin 0) x = true -> orElse x (Fin 0) = x.
Proof.
  destruct x as [v | | |]; simpl; try easy.
  intros H. unfold orElse. simpl.
  destruct (Req_dec_T v 0) as [-> | _]; [| reflexivity].
  destruct (Rlt_dec 0 0); [lra | discriminate].
Qed.

Lemma nlt_0_not_nle (x : num) : nlt (Fin 0) x = true -> nle x (Fin 0) = false.
Proof.
  destruct x as [v | | |]; simpl; try easy.
  destruct (Rlt_dec 0 v), (Rle_dec v 0); try easy. lra.
Qed.

(** The age after an aging step that passes every guard; the age is
    read the way the step reads it, after migration and initialisation. *)
Lemma tickLifespan_active
  (BAL : Balance) (now : Z) (dt : num) (w : World) (M : R) :
  paused (timeSpeed (state w)) = false ->
  isDead (state w) = false ->
  isReincarnating (lifecycle (state w)) = false ->
  getMaxLifespan BAL None (state w) = Some (Fin M) -> 0 <= M ->
  nlt (Fin 0) (ts_current (timeSpeed (state w))) = true ->
  yearsPerSecond BAL <> 0 ->
  0 <= ageAfterInit (state w) <= M ->
  ageAfterInit (state (tickLifespan BAL now dt w)) =
  match
    nadd (Fin (ageAfterInit (state w)))
      (nmul (nmul (nmax (Fin 0) dt) (ts_current (timeSpeed (state w))))
         (Fin (yearsPerSecond BAL)))
  with
  | Fin x => Rmax 0 (Rmin x M)
  | _ => ageAfterInit (state w)
  end.
Proof.
  intros Hp Hd Hr HM HM0 Hv Hy Hrange.
  unfold tickLifespan.
  rewrite Hp, Hd, (isImmortal_false _ _ _ HM), Hr. cbn [orb].
  rewrite (orElse_positive _ Hv), (nlt_0_not_nle _ Hv).
  rewrite norm_eq, (baseYearsPerSecond_Fin _ Hy).
  set (a := ageAfterInit (state w)) in *.
  cbn [ageNum age set_age].
  destruct (neq (nmax (Fin 0) dt) (Fin 0)) eqn:Hz.
  - (* safeDt === 0 *)
    assert (E : nmax (Fin 0) dt = Fin 0).
    { destruct (nmax (Fin 0) dt) as [z | | |]; try discriminate.
      apply neq_Fin in Hz. now subst. }
    rewrite E. fold a.
    destruct (ts_current (timeSpeed (state w))) as [v | | |];
      simpl in Hv |- *; try discriminate.
    + replace (a + 0 * v * yearsPerSecond BAL) with a by lra.
      symmetry. now apply clamp_id.
    + unfold sgn. destruct (Rlt_dec 0 0); [lra | reflexivity].
  - destruct (nadd (Fin a) _) as [x | | |]; cbn [isFinite negb];
      try (now apply ageAfterInit_Some).
    rewrite (getMaxLifespan_ext BAL None _ (state w)) by reflexivity.
    rewrite HM. cbn [nmin nmax set_age set_ageYears lifespan age flags].
    apply ageAfterInit_Some.
    destruct (ls_max (lifespan (state w))) as [lmax |];
      cbn [set_lifespan set_ageYears age flags];
      match goal with
      | |- context [if ?c then _ else _] => destruct c
      end; try rewrite age_handleLifespanEnd; reflexivity.
Qed.

(** An aging step that is stopped by a guard leaves the world as it is. *)
Lemma tickLifespan_frozen (BAL : Balance) (now : Z) (dt : num) (w : World) :
  isImmortal BAL (state w) = true
  \/ paused (timeSpeed (state w)) = true
  \/ nlt (Fin 0) (ts_current (timeSpeed (state w))) = false
  \/ isReincarnating (lifecycle (state w)) = true ->
  tickLifespan BAL now dt w = w.
Proof.
  intros H. unfold tickLifespan.
  destruct (paused (timeSpeed (state w))); [reflexivity |].
  destruct (isDead (state w)); [reflexivity |]. cbn [orb].
  destruct (isImmortal BAL (state w)); [reflexivity |].
  destruct (isReincarnating (lifecycle (state w))); [reflexivity |].
  destruct H as [H | [H | [H | H]]]; try discriminate.
  assert (E : nle (orElse (ts_current (timeSpeed (state w))) (Fin 0)) (Fin 0) = true).
  { destruct (ts_current (timeSpeed (state w))) as [v | | |];
      unfold orElse; simpl in H |- *; try discriminate.
    - destruct (Req_dec_T v 0); simpl.
      + destruct (Rle_dec 0 0); [reflexivity | lra].
      + destruct (Rlt_dec 0 v); [discriminate |].
        destruct (Rle_dec v 0); [reflexivity | lra].
    - reflexivity.
    - destruct (Rle_dec 0 0); [reflexivity | lra]. }
  now rewrite E.
Qed.

Lemma karmaLifeMult_0 : karmaLifeMult (Fin 0) = Fin 1.
Proof. rewrite karmaLifeMult_softCap. apply softCap_zero. Qed.

Lemma karmaQiMult_0 : karmaQiMult (Fin 0) = Fin 1.
Proof. rewrite karmaQiMult_softCap. apply softCap_zero. Qed.

(** The lifespan ceiling of realm 0 without karma is 100 years. *)
Lemma getMaxLifespan_fresh (s : State) (arg : option Z) :
  match arg with Some i => i | None => realmIndex s end = 0%Z ->
  karma (reinc s) = Fin 0 ->
  getMaxLifespan defaultBAL arg s = Some (Fin 100).
Proof.
  intros Hi Hk. unfold getMaxLifespan. rewrite Hi, Hk, karmaLifeMult_0.
  cbn [index Z.ltb Z.compare realmMaxLifespan defaultBAL].
  change (Z.to_nat 0) with O. cbn [nth_error].
  rewrite orElse_Fin by lra. cbn [nmul nfloor]. do 3 f_equal.
  apply Zfloor_eq. simpl. lra.
Qed.

(** C8. An aging step with a finite lifespan ceiling M and positive speed
    adds [max(0, dt) x speed x yearsPerSecond] to the age; when that sum is
    not finite the age is kept, otherwise the new age is the sum clamped
    into [0, M].  With an infinite lifespan, a paused or zero speed, or a
    reincarnation in progress, nothing changes.  The age is the value the
    step reads: [S.age] after the migration of [ageYears] and the reset
    of a missing or non-finite age to 0. *)
Theorem tickLifespan_age_step (BAL : Balance) (now : Z) (dt : num) (w : World) :
  (forall M : R,
     paused (timeSpeed (state w)) = false ->
     isDead (state w) = false ->
     isReincarnating (lifecycle (state w)) = false ->
     getMaxLifespan BAL None (state w) = Some (Fin M) -> 0 <= M ->
     nlt (Fin 0) (ts_current (timeSpeed (state w))) = true ->
     yearsPerSecond BAL <> 0 ->
     0 <= ageAfterInit (state w) <= M ->
     match
       nadd (Fin (ageAfterInit (state w)))
         (nmul (nmul (nmax (Fin 0) dt) (ts_current (timeSpeed (state w))))
            (Fin (yearsPerSecond BAL)))
     with
     | Fin x =>
         ageAfterInit (state (tickLifespan BAL now dt w)) = Rmax 0 (Rmin x M)
         /\ 0 <= ageAfterInit (state (tickLifespan BAL now dt w)) <= M
     | _ =>
         ageAfterInit (state (tickLifespan BAL now dt w))
         = ageAfterInit (state w)
     end)
  /\ (isImmortal BAL (state w) = true
      \/ paused (timeSpeed (state w)) = true
      \/ nlt (Fin 0) (ts_current (timeSpeed (state w))) = false
      \/ isReincarnating (lifecycle (state w)) = true ->
      tickLifespan BAL now dt w = w).
Proof.
  split.
  - intros M Hp Hd Hr HM HM0 Hv Hy Hrange.
    pose proof (tickLifespan_active BAL now dt w M Hp Hd Hr HM HM0 Hv Hy Hrange)
      as H.
    destruct (nadd (Fin _) _) as [x | | |]; try exact H.
    split; [exact H | rewrite H; now apply clamp_range].
  - apply tickLifespan_frozen.
Qed.

(** One second at speed 1 from the age of 10 under a ceiling of 100
    years, and the same step while a reincarnation is in progress. *)
Lemma tickLifespan_age_step_witness :
  (ageAfterInit (state (tickLifespan defaultBAL 0 (Fin 1) w_aging))
   = Rmax 0 (Rmin (10 + Rmax 0 1 * 1 * 0.01) 100)
   /\ 0 <= ageAfterInit (state (tickLifespan defaultBAL 0 (Fin 1) w_aging)) <= 100)
  /\ tickLifespan defaultBAL 0 (Fin 1) w_guarded = w_guarded.
Proof.
  split.
  - assert (HM : getMaxLifespan defaultBAL None (state w_aging) = Some (Fin 100))
      by (now apply getMaxLifespan_fresh).
    assert (Hv : nlt (Fin 0) (ts_current (timeSpeed (state w_aging))) = true)
      by (apply nlt_Fin; lra).
    assert (Hy : yearsPerSecond defaultBAL <> 0) by (simpl; lra).
    assert (H0 : 0 <= 100) by lra.
    assert (Ea : ageAfterInit (state w_aging) = 10) by reflexivity.
    assert (Hr : 0 <= ageAfterInit (state w_aging) <= 100) by (rewrite Ea; lra).
    exact (proj1 (tickLifespan_age_step defaultBAL 0 (Fin 1) w_aging)
             100 eq_refl eq_refl eq_refl HM H0 Hv Hy Hr).
  - apply (proj2 (tickLifespan_age_step defaultBAL 0 (Fin 1) w_guarded)).
    right. right. right. reflexivity.
Defined.

(** ** Offline replay: the cap *)

Lemma handleLifespanEnd_now (BAL : Balance) (now1 now2 : Z) (w : World) :
  forgetDeathStamp (handleLifespanEnd BAL now1 w)
  = forgetDeathStamp (handleLifespanEnd BAL now2 w).
Proof.
  unfold handleLifespanEnd.
  destruct (isHandlingDeath w || isReincarnating (lifecycle (state w))
            || isDead (state w)); reflexivity.
Qed.

Lemma checkLifespanGate_now (BAL : Balance) (now1 now2 : Z) (w : World) :
  forgetDeathStamp (checkLifespanGate BAL now1 w)
  = forgetDeathStamp (checkLifespanGate BAL now2 w).
Proof.
  unfold checkLifespanGate.
  destruct (isImmortal BAL (state w)); [reflexivity |].
  destruct (lifespanHandled (flags (state w))
            || isReincarnating (lifecycle (state w))); [reflexivity |].
  destruct (getMaxLifespan BAL None _) as [maxLife |]; [| reflexivity].
  destruct (nge _ maxLife); [| reflexivity].
  apply handleLifespanEnd_now.
Qed.

(** The replay reads the elapsed seconds only through the capped value. *)
Lemma offlineReplay_capped
  (BAL : Balance) (showPopup : bool) (now1 now2 e1 e2 : Z) (v : num) (w : World) :
  nmin (Fin (IZR e1)) (Fin (capHours BAL * 3600))
  = nmin (Fin (IZR e2)) (Fin (capHours BAL * 3600)) ->
  forgetDeathStamp (offlineReplay BAL showPopup now1 e1 v w)
  = forgetDeathStamp (offlineReplay BAL showPopup now2 e2 v w).
Proof.
  intros H. unfold offlineReplay. rewrite H.
  destruct (offlineAge BAL _ _) as [s' exceeded].
  destruct exceeded; [apply checkLifespanGate_now | reflexivity].
Qed.

(** C9. Whatever the snapshot, a replay after a gap strictly longer than
    the cap of [capHours x 3600] seconds leaves the same Qi, lifetime Qi
    and age as a replay after exactly the cap, at the speed stored in the
    snapshot; the two worlds agree on everything but the time stamp of a
    death.  The cap is a whole number of seconds, at least one. *)
Theorem offline_replay_capped
  (BAL : Balance) (showPopup : bool) (w : World) (snap : Session)
  (now1 now2 c : Z) :
  session (state w) = Some snap ->
  capHours BAL * 3600 = IZR c -> (1 <= c)%Z ->
  (c * 1000 < now1 - lastTs snap)%Z ->
  (now2 - lastTs snap = c * 1000)%Z ->
  let w1 := applyOfflineProgressOnResume BAL showPopup now1 w in
  let w2 := applyOfflineProgressOnResume BAL showPopup now2 w in
  qi (state w1) = qi (state w2)
  /\ lifetimeQi (reinc (state w1)) = lifetimeQi (reinc (state w2))
  /\ age (state w1) = age (state w2)
  /\ forgetDeathStamp w1 = forgetDeathStamp w2.
Proof.
  intros Hs Hcap Hc H1 H2 w1 w2.
  assert (E : forgetDeathStamp w1 = forgetDeathStamp w2).
  { unfold w1, w2, applyOfflineProgressOnResume. rewrite Hs.
    destruct (lastTs snap =? 0)%Z; [reflexivity |].
    destruct (nle (orElse (lastSpeed snap) (Fin 0)) (Fin 0)); [reflexivity |].
    rewrite H2.
    assert (Hd : (c <= (now1 - lastTs snap) / 1000)%Z)
      by (apply Z.div_le_lower_bound; lia).
    replace (c * 1000 / 1000)%Z with c by (symmetry; apply Z.div_mul; lia).
    rewrite !Z.max_r by lia.
    destruct (Z.ltb_spec ((now1 - lastTs snap) / 1000) 1); [lia |].
    destruct (Z.ltb_spec c 1); [lia |].
    apply offlineReplay_capped. rewrite Hcap. cbn [nmin]. f_equal.
    rewrite Rmin_right by (apply IZR_le; lia).
    rewrite Rmin_left by lra. reflexivity. }
  assert (P : forall u, state (forgetDeathStamp u)
                        = (state u |> set_lifecycle
                                        (lifecycle (state u) |> set_lastDeathAt 0%Z)))
    by reflexivity.
  pose proof (f_equal state E) as Es. rewrite !P in Es.
  repeat split.
  - exact (f_equal qi Es).
  - exact (f_equal (fun s => lifetimeQi (reinc s)) Es).
  - exact (f_equal age Es).
  - exact E.
Qed.

(** The cap of the built-in table is 43200 s; a gap of a day and a gap of
    exactly twelve hours replay alike. *)
Lemma offline_replay_capped_witness :
  qi (state (applyOfflineProgressOnResume defaultBAL true 86401000 w_away))
  = qi (state (applyOfflineProgressOnResume defaultBAL true 43201000 w_away))
  /\ age (state (applyOfflineProgressOnResume defaultBAL true 86401000 w_away))
     = age (state (applyOfflineProgressOnResume defaultBAL true 43201000 w_away)).
Proof.
  assert (Hcap : capHours defaultBAL * 3600 = IZR 43200) by (simpl; lra).
  pose proof (offline_replay_capped defaultBAL true w_away
                (mkSession 1000 (Fin 1) 0 (Fin 0)) 86401000 43201000 43200
                eq_refl Hcap ltac:(lia) ltac:(simpl; lia) ltac:(reflexivity)) as H.
  split; apply H.
Defined.

(** ** Live ticks and the offline replay side by side *)

Lemma qiCeiling_pos : 0 < qiCeiling.
Proof. unfold qiCeiling. lra. Qed.

(** [safeAddQi] on a finite, non-negative gain and a stock within the
    ceiling. *)
Lemma safeAddQi_Fin (s : State) (q g : R) :
  qi s = Fin q -> 0 <= q <= qiCeiling -> 0 <= g ->
  safeAddQi (Fin g) s = (s |> set_qi (Fin (Rmin (q + g) qiCeiling))).
Proof.
  intros Hq Hr Hg. unfold safeAddQi. cbn [isFinite negb orb].
  destruct (nle (Fin g) (Fin 0)) eqn:E.
  - apply nle_Fin in E. assert (g = 0) by lra. subst g.
    rewrite Rplus_0_r, Rmin_left by lra.
    symmetry. destruct s. cbn in Hq. subst. reflexivity.
  - rewrite Hq. cbn [nadd nmin nmax]. do 3 f_equal.
    apply Rmax_right. apply Rmin_glb; lra.
Qed.

Lemma set_state_same (w : World) : set_state (state w) w = w.
Proof. now destruct w. Qed.

(** An aging step that passes the guards and stays below the ceiling. *)
Lemma tickLifespan_live
  (BAL : Balance) (now : Z) (w : World) (t v M L : R) :
  paused (timeSpeed (state w)) = false ->
  isDead (state w) = false ->
  isReincarnating (lifecycle (state w)) = false ->
  getMaxLifespan BAL None (state w) = Some (Fin M) ->
  ls_max (lifespan (state w)) = Some (Fin L) ->
  ts_current (timeSpeed (state w)) = Fin v -> 0 < v ->
  0 < yearsPerSecond BAL -> 0 < t ->
  0 <= ageAfterInit (state w) ->
  ageAfterInit (state w) + t * v * yearsPerSecond BAL < M ->
  tickLifespan BAL now (Fin t) w =
  (w |> set_state
          (state w
           |> set_ageYears (ageYears (migrateAge (state w)))
           |> set_age (Some (Fin (ageAfterInit (state w)
                                  + t * v * yearsPerSecond BAL)))
           |> set_lifespan
                (lifespan (state w)
                 |> set_ls_current
                      (Some (Fin (Rmax 0 (L - (ageAfterInit (state w)
                                               + t * v * yearsPerSecond BAL)))))))).
Proof.
  intros Hp Hd Hr HM HL Hv Hv0 Hy Ht Ha Hlt.
  unfold tickLifespan.
  rewrite Hp, Hd, (isImmortal_false _ _ _ HM), Hr, Hv. cbn [orb].
  rewrite orElse_Fin by lra.
  destruct (nle (Fin v) (Fin 0)) eqn:E; [apply nle_Fin in E; lra | clear E].
  cbn [nmax].
  destruct (neq (Fin (Rmax 0 t)) (Fin 0)) eqn:E;
    [apply neq_Fin in E; rewrite Rmax_right in E by lra; lra | clear E].
  rewrite baseYearsPerSecond_Fin by lra.
  rewrite norm_eq. cbn [nmul ageNum age set_age set_ageYears nadd isFinite negb].
  rewrite (getMaxLifespan_ext BAL None _ (state w)) by reflexivity.
  rewrite HM. cbn [nmin nmax lifespan set_age set_ageYears].
  rewrite HL. cbn [ageNum age set_lifespan set_age nsub flags].
  rewrite (Rmax_right 0 t) by lra.
  assert (0 < t * v * yearsPerSecond BAL)
    by (repeat apply Rmult_lt_0_compat; lra).
  assert (Hx : 0 <= ageAfterInit (state w) + t * v * yearsPerSecond BAL <= M)
    by lra.
  set (x := ageAfterInit (state w) + t * v * yearsPerSecond BAL) in *.
  rewrite (clamp_id x M) by exact Hx.
  destruct (nge (Fin x) (Fin M)) eqn:E;
    [unfold nge in E; apply nle_Fin in E; lra | reflexivity].
Qed.

(** The lifespan gate lets a living cultivator below the ceiling pass. *)
Lemma checkLifespanGate_live (BAL : Balance) (now : Z) (w : World) (x M : R) :
  getMaxLifespan BAL None (state w) = Some (Fin M) ->
  age (state w) = Some (Fin x) -> x < M ->
  checkLifespanGate BAL now w = w.
Proof.
  intros HM Ha Hlt. unfold checkLifespanGate.
  rewrite (isImmortal_false _ _ _ HM), Ha, HM.
  destruct (lifespanHandled (flags (state w))
            || isReincarnating (lifecycle (state w))); [reflexivity |].
  destruct (nge (Fin x) (Fin M)) eqn:E;
    [unfold nge in E; apply nle_Fin in E; lra | apply set_state_same].
Qed.

Lemma set_state_twice (s1 s2 : State) (w : World) :
  set_state s2 (set_state s1 w) = set_state s2 w.
Proof. reflexivity. Qed.

Lemma migrate_ext (s1 s2 : State) :
  age s1 = age s2 -> ageYears s1 = ageYears s2 ->
  ageAfterInit s1 = ageAfterInit s2
  /\ ageYears (migrateAge s1) = ageYears (migrateAge s2).
Proof.
  intros Ha Hy. unfold ageAfterInit, migrateAge. rewrite Ha, Hy.
  destruct (ageYears s2) eqn:Ey, (age s2) eqn:Ea; cbn;
    rewrite ?Ha, ?Hy, ?Ea, ?Ey; split; reflexivity.
Qed.

(** One live tick of [t] seconds that passes every guard and neither
    saturates the lifespan nor finds a corrupted number. *)
Lemma tick_live
  (BAL : Balance) (now : Z) (w : World) (t v p M L q l : R) :
  isHandlingDeath w = false ->
  paused (timeSpeed (state w)) = false ->
  isDead (state w) = false ->
  isReincarnating (lifecycle (state w)) = false ->
  getMaxLifespan BAL None (state w) = Some (Fin M) ->
  ls_max (lifespan (state w)) = Some (Fin L) ->
  ts_current (timeSpeed (state w)) = Fin v -> 0 < v ->
  0 < yearsPerSecond BAL -> 0 < t ->
  totalQPS BAL (state w) = Fin p -> 0 <= p ->
  qi (state w) = Fin q -> 0 <= q <= qiCeiling ->
  lifetimeQi (reinc (state w)) = Fin l ->
  0 <= ageAfterInit (state w) ->
  ageAfterInit (state w) + t * v * yearsPerSecond BAL < M ->
  tick BAL now (Fin t) w =
  (w |> set_state
          (liveAfter (state w) q l (ageAfterInit (state w)) L
             (p * (t * v)) (t * v * yearsPerSecond BAL))).
Proof.
  intros Hh Hp Hd Hr HM HL Hv Hv0 Hy Ht HQ Hp0 Hq Hqr Hl Ha Hlt.
  unfold tick, getTimeSpeed. rewrite Hp, Hv, Hr, Hh.
  destruct (neq (Fin v) (Fin 0)) eqn:E; [apply neq_Fin in E; lra | clear E].
  rewrite HQ. cbn [nmul]. unfold onS. cbn [state set_state].
  assert (Hg : 0 <= p * (t * v)).
  { apply Rmult_le_pos; [lra |]. apply Rmult_le_pos; lra. }
  rewrite (safeAddQi_Fin _ q _ Hq Hqr Hg).
  cbn [reinc set_qi lifetimeQi]. rewrite Hl.
  cbn [nadd safeNum isFinite].
  set (s2 := set_reinc _ _).
  destruct (migrate_ext s2 (state w) eq_refl eq_refl) as [Ea Ey].
  rewrite set_state_twice.
  rewrite (tickLifespan_live BAL now (set_state s2 w) t v M L);
    try assumption;
    try (rewrite (getMaxLifespan_ext BAL None _ (state w)) by reflexivity;
         assumption);
    try (cbn [state set_state]; rewrite Ea; assumption).
  cbn [state set_state]. rewrite Ea, Ey.
  erewrite checkLifespanGate_live;
    [ reflexivity
    | rewrite (getMaxLifespan_ext BAL None _ (state w)) by reflexivity; exact HM
    | reflexivity
    | exact Hlt ].
Qed.

Lemma liveAfter_ext (s : State) (q l a L g1 g2 d1 d2 : R) :
  g1 = g2 -> d1 = d2 -> liveAfter s q l a L g1 d1 = liveAfter s q l a L g2 d2.
Proof. now intros -> ->. Qed.

Lemma Rmin_add_twice (q G g C : R) :
  0 <= g -> Rmin (Rmin (q + G) C + g) C = Rmin (q + (G + g)) C.
Proof.
  intros Hg. unfold Rmin.
  destruct (Rle_dec (q + G) C); destruct (Rle_dec _ C); destruct (Rle_dec _ C);
    lra.
Qed.

(** Two stretches of a live run compose. *)
Lemma liveAfter_step (s : State) (q l a L G D g d : R) :
  0 <= g ->
  liveAfter (liveAfter s q l a L G D) (Rmin (q + G) qiCeiling) (l + G) (a + D) L g d
  = liveAfter s q l a L (G + g) (D + d).
Proof.
  intros Hg.
  assert (Ey : ageYears (migrateAge (liveAfter s q l a L G D))
               = ageYears (migrateAge s)).
  { now rewrite (migrateAge_Some _ (Fin (a + D))). }
  unfold liveAfter at 1. rewrite Ey. unfold liveAfter.
  cbn [set_ageYears set_qi set_reinc set_age set_lifespan set_lifetimeQi
       set_ls_current qi qpcBase qpsBase qpcMult qpsMult offlineMult realmIndex
       stage lastTick skills reinc lifespan age ageYears isDead timeSpeed
       currentCycle life flags lifecycle stats meta session times karma
       lifetimeQi ls_current ls_max].
  rewrite (Rmin_add_twice q G g qiCeiling Hg).
  replace (l + G + g) with (l + (G + g)) by lra.
  replace (a + D + d) with (a + (D + d)) by lra.
  reflexivity.
Qed.

Lemma LiveRun_liveAfter
  (BAL : Balance) (w : World) (v p M L q l a g d : R) :
  LiveRun BAL w v p M L ->
  LiveRun BAL (set_state (liveAfter (state w) q l a L g d) w) v p M L.
Proof.
  intros (Hh & Hp & Hd & Hr & HM & HL & Hv & Hv0 & Hy & HQ & Hp0).
  repeat split; assumption.
Qed.

Lemma ticks_S (BAL : Balance) (now : Z) (n : nat) (w : World) :
  ticks BAL now (S n) w = ticks BAL now n (tick BAL now (Fin 1) w).
Proof. reflexivity. Qed.

(** [n + 1] live ticks of one second, none of which exhausts the
    lifespan. *)
Lemma ticks_live (BAL : Balance) (now : Z) (v p M L : R) (n : nat) :
  forall (w : World) (q l : R),
    LiveRun BAL w v p M L ->
    qi (state w) = Fin q -> 0 <= q <= qiCeiling ->
    lifetimeQi (reinc (state w)) = Fin l ->
    0 <= ageAfterInit (state w) ->
    ageAfterInit (state w) + INR (S n) * (v * yearsPerSecond BAL) < M ->
    ticks BAL now (S n) w =
    (w |> set_state
            (liveAfter (state w) q l (ageAfterInit (state w)) L
               (INR (S n) * (p * v)) (INR (S n) * (v * yearsPerSecond BAL)))).
Proof.
  induction n as [| n IH]; intros w q l HL Hq Hqr Hl Ha Hlt.
  - pose proof HL as (Hh & Hp & Hd & Hr & HM & HLs & Hv & Hv0 & Hy & HQ & Hp0).
    cbn [ticks].
    rewrite (tick_live BAL now w 1 v p M L q l); try assumption; try lra.
    + f_equal. apply liveAfter_ext; simpl; lra.
    + simpl in Hlt. lra.
  - pose proof HL as (Hh & Hp & Hd & Hr & HM & HLs & Hv & Hv0 & Hy & HQ & Hp0).
    assert (Hd0 : 0 < v * yearsPerSecond BAL) by (apply Rmult_lt_0_compat; lra).
    assert (Hg0 : 0 <= p * v) by (apply Rmult_le_pos; lra).
    assert (Hn : 0 <= INR (S n)) by apply pos_INR.
    rewrite S_INR in Hlt.
    rewrite ticks_S.
    rewrite (tick_live BAL now w 1 v p M L q l); try assumption; try lra; [| nra].
    set (a := ageAfterInit (state w)) in *.
    set (s1 := liveAfter (state w) q l a L (p * (1 * v))
                 (1 * v * yearsPerSecond BAL)).
    assert (Ea : ageAfterInit s1 = a + 1 * v * yearsPerSecond BAL)
      by (now apply ageAfterInit_Some).
    rewrite (IH (set_state s1 w) (Rmin (q + p * (1 * v)) qiCeiling)
               (l + p * (1 * v)));
      [ | now apply LiveRun_liveAfter
        | reflexivity
        | pose proof qiCeiling_pos; split; [apply Rmin_glb | apply Rmin_r]; nra
        | reflexivity
        | cbn [state set_state]; rewrite Ea; nra
        | cbn [state set_state]; rewrite Ea; nra ].
    rewrite set_state_twice. cbn [state set_state]. rewrite Ea. f_equal.
    unfold s1. rewrite liveAfter_step by nra.
    apply liveAfter_ext; rewrite (S_INR (S n)); lra.
Qed.

Lemma gain_zero_state (s : State) (q l : R) :
  qi s = Fin q -> 0 <= q <= qiCeiling -> lifetimeQi (reinc s) = Fin l ->
  s = (s |> set_qi (Fin (Rmin (q + 0) qiCeiling))
         |> set_reinc (reinc s |> set_lifetimeQi (Fin (l + 0)))).
Proof.
  intros Hq Hr Hl. rewrite !Rplus_0_r, Rmin_left by lra.
  destruct s as [q0 c p cm pm om r st lt sk [tm km lq] ls a y
                   d ts cy lf fl lc sa me se].
  cbn in Hq, Hl. subst. reflexivity.
Qed.

(** The state after the "Apply gains" step of the replay. *)
Lemma offline_gain (s : State) (q l G : R) :
  qi s = Fin q -> 0 <= q <= qiCeiling -> lifetimeQi (reinc s) = Fin l ->
  0 <= G ->
  (if ngt (Fin G) (Fin 0)
   then
     safeAddQi (Fin G) s
     |> set_reinc
          (reinc (safeAddQi (Fin G) s)
           |> set_lifetimeQi
                (safeNum (nadd (lifetimeQi (reinc (safeAddQi (Fin G) s))) (Fin G))
                   (Fin 0)))
   else s)
  = (s |> set_qi (Fin (Rmin (q + G) qiCeiling))
       |> set_reinc (reinc s |> set_lifetimeQi (Fin (l + G)))).
Proof.
  intros Hq Hr Hl HG.
  destruct (ngt (Fin G) (Fin 0)) eqn:E.
  - rewrite (safeAddQi_Fin s q G Hq Hr HG).
    cbn [reinc set_qi lifetimeQi]. rewrite Hl. reflexivity.
  - unfold ngt in E. apply nlt_Fin_false in E.
    assert (G = 0) by lra. subst G. now apply gain_zero_state.
Qed.

(** A replay of [e] whole seconds on a living run that does not exhaust
    the stored lifespan. *)
Lemma offlineReplay_live
  (BAL : Balance) (showPopup : bool) (now e : Z) (w : World)
  (v p o M L q l : R) :
  getMaxLifespan BAL None (state w) = Some (Fin M) ->
  ls_max (lifespan (state w)) = Some (Fin L) ->
  0 < v -> 0 < yearsPerSecond BAL ->
  totalQPS BAL (state w) = Fin p -> 0 <= p ->
  totalOfflineMult BAL (state w) = Fin o -> 0 <= o ->
  qi (state w) = Fin q -> 0 <= q <= qiCeiling ->
  lifetimeQi (reinc (state w)) = Fin l ->
  0 <= ageAfterInit (state w) ->
  0 <= Rmin (IZR e) (capHours BAL * 3600) ->
  ageAfterInit (state w)
  + Rmin (IZR e) (capHours BAL * 3600) * v * yearsPerSecond BAL < L ->
  state (offlineReplay BAL showPopup now e (Fin v) w) =
  (liveAfter (state w) q l (ageAfterInit (state w)) L
     (p * (Rmin (IZR e) (capHours BAL * 3600) * v) * o)
     (Rmin (IZR e) (capHours BAL * 3600) * v * yearsPerSecond BAL)
   |> set_session None).
Proof.
  intros HM HL Hv Hy HQ Hp HO Ho Hq Hqr Hl Ha Hc Hlt.
  set (c := Rmin (IZR e) (capHours BAL * 3600)) in *.
  assert (HT : 0 <= c * v) by (apply Rmult_le_pos; lra).
  assert (HG : 0 <= p * (c * v) * o) by (repeat apply Rmult_le_pos; lra).
  assert (HD : 0 <= c * v * yearsPerSecond BAL) by (apply Rmult_le_pos; lra).
  unfold offlineReplay. cbn [nmin nmul]. fold c.
  rewrite HQ, HO, baseYearsPerSecond_Fin by lra. cbn [nmul].
  rewrite (offline_gain (state w) q l _ Hq Hqr Hl HG).
  set (s1 := set_reinc _ _).
  destruct (migrate_ext s1 (state w) eq_refl eq_refl) as [Ea Ey].
  rewrite norm_eq, Ea, Ey.
  set (s2 := set_age _ _).
  assert (HI : isImmortal BAL s2 = false)
    by (apply (isImmortal_false _ _ (Fin M)); exact HM).
  unfold offlineAge. rewrite HI.
  change (ls_max (lifespan s2)) with (ls_max (lifespan (state w))). rewrite HL.
  change (ageNum s2) with (Fin (ageAfterInit (state w))).
  cbn [nadd isFinite negb nmin nmax].
  set (x := ageAfterInit (state w) + c * v * yearsPerSecond BAL) in *.
  rewrite (clamp_id x L) by (split; [unfold x | ]; lra).
  cbn [ageNum age set_lifespan set_age nsub].
  destruct (nge (Fin x) (Fin L)) eqn:E;
    [unfold nge in E; apply nle_Fin in E; lra | clear E].
  destruct (showPopup && ngt _ _); reflexivity.
Qed.

(** The early returns of the replay are passed when the snapshot is
    present, was taken at a positive speed and is at least a second old. *)
Lemma applyOffline_replays
  (BAL : Balance) (showPopup : bool) (now e : Z) (w : World)
  (snap : Session) (v : R) :
  session (state w) = Some snap -> lastTs snap <> 0%Z ->
  lastSpeed snap = Fin v -> 0 < v ->
  ((now - lastTs snap) / 1000 = e)%Z -> (1 <= e)%Z ->
  applyOfflineProgressOnResume BAL showPopup now w
  = offlineReplay BAL showPopup now e (Fin v) w.
Proof.
  intros Hs Hts Hv Hv0 He He1. unfold applyOfflineProgressOnResume.
  rewrite Hs, Hv. destruct (Z.eqb_spec (lastTs snap) 0); [contradiction |].
  rewrite orElse_Fin by lra.
  destruct (nle (Fin v) (Fin 0)) eqn:E; [apply nle_Fin in E; lra | clear E].
  rewrite He, Z.max_r by lia.
  destruct (Z.ltb_spec e 1); [lia | reflexivity].
Qed.

(** C3 (amended). On a living run (not paused, dead or in transition,
    with a finite lifespan that is not exhausted in the interval), a
    replay of a gap of N whole seconds, 1 <= N <= capHours x 3600, at the
    speed v of the snapshot adds [o x N x p x v] to Qi and lifetime Qi,
    where p is the production per second and o is [totalOfflineMult]; N
    live ticks of one second at speed v add [N x p x v].  Both advance
    the age by [N x v x yearsPerSecond].  The lifetime Qi of the two
    paths agrees exactly when o is 1 or nothing is produced, and in
    these cases the Qi stock agrees too.  The numbers are exact here, so
    an equality stands for what the code computes up to rounding.  The
    comparison is on Qi, lifetime Qi and age: the popup of the replay,
    behind which the game stays paused, is no part of it. *)
Theorem offline_replay_matches_live_ticks
  (BAL : Balance) (showPopup : bool) (now now' : Z) (w : World)
  (snap : Session) (n : nat) (v p o M L q l : R) :
  LiveRun BAL w v p M L ->
  session (state w) = Some snap -> lastTs snap <> 0%Z ->
  lastSpeed snap = Fin v ->
  ((now - lastTs snap) / 1000 = Z.of_nat (S n))%Z ->
  INR (S n) <= capHours BAL * 3600 ->
  totalOfflineMult BAL (state w) = Fin o -> 0 <= o ->
  qi (state w) = Fin q -> 0 <= q <= qiCeiling ->
  lifetimeQi (reinc (state w)) = Fin l ->
  0 <= ageAfterInit (state w) ->
  ageAfterInit (state w) + INR (S n) * (v * yearsPerSecond BAL) < M ->
  ageAfterInit (state w) + INR (S n) * (v * yearsPerSecond BAL) < L ->
  let w1 := applyOfflineProgressOnResume BAL showPopup now w in
  let w2 := ticks BAL now' (S n) w in
  (qi (state w1) = Fin (Rmin (q + o * (INR (S n) * (p * v))) qiCeiling)
   /\ qi (state w2) = Fin (Rmin (q + INR (S n) * (p * v)) qiCeiling))
  /\ (lifetimeQi (reinc (state w1)) = Fin (l + o * (INR (S n) * (p * v)))
      /\ lifetimeQi (reinc (state w2)) = Fin (l + INR (S n) * (p * v)))
  /\ (age (state w1)
      = Some (Fin (ageAfterInit (state w) + INR (S n) * (v * yearsPerSecond BAL)))
      /\ age (state w2) = age (state w1))
  /\ (lifetimeQi (reinc (state w1)) = lifetimeQi (reinc (state w2))
      <-> o = 1 \/ p = 0)
  /\ (o = 1 \/ p = 0 -> qi (state w1) = qi (state w2)).
Proof.
  intros HLive Hs Hts Hv He Hcap HO Ho Hq Hqr Hl Ha HltM HltL w1 w2.
  pose proof HLive as (Hh & Hp & Hd & Hr & HM & HL & Hc & Hv0 & Hy & HQ & Hp0).
  assert (Hn : 0 < INR (S n)) by (apply lt_0_INR; lia).
  assert (Hmin : Rmin (IZR (Z.of_nat (S n))) (capHours BAL * 3600) = INR (S n)).
  { rewrite <- INR_IZR_INZ. now apply Rmin_left. }
  assert (E1 : state w1 =
               (liveAfter (state w) q l (ageAfterInit (state w)) L
                  (o * (INR (S n) * (p * v)))
                  (INR (S n) * (v * yearsPerSecond BAL))
                |> set_session None)).
  { unfold w1.
    rewrite (applyOffline_replays BAL showPopup now (Z.of_nat (S n)) w snap v)
      by (assumption || lia).
    rewrite (offlineReplay_live BAL showPopup now _ w v p o M L q l);
      try assumption; rewrite ?Hmin; try lra.
    f_equal. apply liveAfter_ext; lra. }
  assert (E2 : state w2 =
               liveAfter (state w) q l (ageAfterInit (state w)) L
                 (INR (S n) * (p * v))
                 (INR (S n) * (v * yearsPerSecond BAL))).
  { unfold w2. now rewrite (ticks_live BAL now' v p M L n w q l). }
  rewrite E1, E2. clear E1 E2. set (N := INR (S n)) in *.
  cbn [liveAfter set_session set_lifespan set_age set_reinc set_qi
       set_ageYears qi reinc age lifetimeQi set_lifetimeQi].
  assert (Hsame : o = 1 \/ p = 0 ->
                  o * (N * (p * v)) = N * (p * v)).
  { intros [-> | ->]; lra. }
  repeat match goal with |- _ /\ _ => split end; try reflexivity.
  - split.
    + intros H. injection H as H.
      assert (G : (o - 1) * (N * v) * p = 0) by lra.
      apply Rmult_integral in G. destruct G as [G | G]; [| now right].
      apply Rmult_integral in G. destruct G as [G | G]; [left; lra |].
      exfalso. nra.
    + intros H. now rewrite (Hsame H).
  - intros H. now rewrite (Hsame H).
Qed.

(** ** The example run *)

Lemma cyclePowerMult_0 : cyclePowerMult 0 = Fin 1.
Proof.
  unfold cyclePowerMult. cbn. f_equal.
  change (0 - 0)%Z with 0%Z. lra.
Qed.

Lemma awayState_skills (cd : Z) (guard : bool) :
  skills (awayState cd guard) !! "breath_control"%string = Some 2%Z
  /\ skills (awayState cd guard) !! "lotus_meditation"%string = None
  /\ skills (awayState cd guard) !! "closed_door"%string = Some cd.
Proof.
  change (skills (awayState cd guard))
    with (<["closed_door"%string := cd]>
            (<["breath_control"%string := 2%Z]> (∅ : gmap string Z))).
  repeat split.
Qed.

Lemma awayState_totalQPS (cd : Z) (guard : bool) :
  totalQPS defaultBAL (awayState cd guard) = Fin 1.
Proof.
  destruct (awayState_skills cd guard) as (Hb & Hl & _).
  unfold totalQPS, skillLevel. rewrite Hb, Hl.
  change (karma (reinc (awayState cd guard))) with (Fin 0).
  change (realmIndex (awayState cd guard)) with 0%Z.
  rewrite karmaQiMult_0, cyclePowerMult_0.
  cbn. f_equal. lra.
Qed.

Lemma awayState_totalOfflineMult (cd : Z) (guard : bool) :
  totalOfflineMult defaultBAL (awayState cd guard) = Fin (1 + IZR cd * 0.20).
Proof.
  destruct (awayState_skills cd guard) as (_ & _ & Hc).
  unfold totalOfflineMult, skillLevel. rewrite Hc. reflexivity.
Qed.

Lemma awayState_maxLifespan (cd : Z) (guard : bool) :
  getMaxLifespan defaultBAL None (awayState cd guard) = Some (Fin 100).
Proof. now apply getMaxLifespan_fresh. Qed.

Lemma awayState_LiveRun (cd : Z) :
  LiveRun defaultBAL (mkWorld (awayState cd false) false None []) 1 1 100 100.
Proof.
  repeat split; try reflexivity; try lra.
  - apply awayState_maxLifespan.
  - simpl. lra.
  - apply awayState_totalQPS.
Qed.

Lemma awayState_age (cd : Z) (guard : bool) :
  ageAfterInit (awayState cd guard) = 0.
Proof. reflexivity. Qed.

Lemma qiCeiling_large : 100 <= qiCeiling.
Proof. unfold qiCeiling. lra. Qed.

(** The state the example run is in after a replay of [e] seconds,
    1 <= e <= 100. *)
Lemma awayState_replay (cd : Z) (guard : bool) (now e : Z) :
  (0 <= cd)%Z -> ((now - 1000) / 1000 = e)%Z -> (1 <= e <= 100)%Z ->
  state (applyOfflineProgressOnResume defaultBAL true now
           (mkWorld (awayState cd guard) false None []))
  = (liveAfter (awayState cd guard) 0 0 0 100
       (1 * (IZR e * 1) * (1 + IZR cd * 0.20)) (IZR e * 1 * 0.01)
     |> set_session None).
Proof.
  intros Hcd He Hr.
  assert (He1 : 1 <= IZR e <= 100) by (split; apply IZR_le; lia).
  assert (Hcd0 : 0 <= IZR cd) by (apply IZR_le; lia).
  assert (Hmin : Rmin (IZR e) (capHours defaultBAL * 3600) = IZR e)
    by (apply Rmin_left; simpl; lra).
  pose proof qiCeiling_large.
  rewrite (applyOffline_replays defaultBAL true now e _
             (mkSession 1000 (Fin 1) 0 (Fin 0)) 1);
    try reflexivity; try lra; try lia; try assumption; try easy.
  rewrite (offlineReplay_live defaultBAL true now e _ 1 1
             (1 + IZR cd * 0.20) 100 100 0 0);
    cbn [state]; rewrite ?Hmin, ?awayState_age;
    try reflexivity; try lra;
    try apply awayState_maxLifespan;
    try apply awayState_totalQPS;
    try apply awayState_totalOfflineMult;
    simpl; lra.
Qed.

(** The example world at realm 0, ten seconds after it was left. *)
Lemma offline_replay_matches_live_ticks_witness :
  qi (state (applyOfflineProgressOnResume defaultBAL true 11000 w_away))
  = Fin (Rmin (0 + 1 * (INR 10 * (1 * 1))) qiCeiling)
  /\ qi (state (ticks defaultBAL 11000 10 w_away))
     = Fin (Rmin (0 + INR 10 * (1 * 1)) qiCeiling)
  /\ age (state (ticks defaultBAL 11000 10 w_away))
     = age (state (applyOfflineProgressOnResume defaultBAL true 11000 w_away))
  /\ qi (state (applyOfflineProgressOnResume defaultBAL true 11000 w_away))
     = qi (state (ticks defaultBAL 11000 10 w_away)).
Proof.
  assert (HO : totalOfflineMult defaultBAL (state w_away) = Fin 1).
  { change (state w_away) with (awayState 0 false).
    rewrite awayState_totalOfflineMult. f_equal. lra. }
  assert (Hten : INR 10 = 10) by (rewrite INR_IZR_INZ; reflexivity).
  assert (Hcap : INR 10 <= capHours defaultBAL * 3600)
    by (rewrite Hten; simpl; lra).
  assert (Hq : 0 <= 0 <= qiCeiling) by (pose proof qiCeiling_pos; lra).
  assert (Ea : ageAfterInit (state w_away) = 0) by reflexivity.
  assert (Ha : 0 <= ageAfterInit (state w_away)) by (rewrite Ea; lra).
  assert (Hlt : ageAfterInit (state w_away)
                + INR 10 * (1 * yearsPerSecond defaultBAL) < 100)
    by (rewrite Ea, Hten; simpl; lra).
  pose proof (offline_replay_matches_live_ticks defaultBAL true 11000 11000
                w_away (mkSession 1000 (Fin 1) 0 (Fin 0)) 9 1 1 1 100 100 0 0
                (awayState_LiveRun 0) eq_refl ltac:(discriminate) eq_refl
                eq_refl Hcap HO ltac:(lra) eq_refl Hq eq_refl Ha Hlt Hlt)
    as (H1 & _ & H3 & _ & H5).
  split; [apply H1 |]. split; [apply H1 |]. split; [apply H3 |].
  apply H5. left. reflexivity.
Defined.

(** C3 (counterexample). With one level of Closed Door Cultivation a
    replay of a one-second gap at speed 1 adds 1.2 Qi where one live tick
    of one second adds 1: the replay multiplies the gain by
    [totalOfflineMult], which the live tick never does. *)
Lemma offline_replay_differs_from_ticks :
  qi (state (applyOfflineProgressOnResume defaultBAL true 2000 w_closed_door))
  = Fin 1.2
  /\ qi (state (ticks defaultBAL 2000 1 w_closed_door)) = Fin 1
  /\ qi (state (applyOfflineProgressOnResume defaultBAL true 2000 w_closed_door))
     <> qi (state (ticks defaultBAL 2000 1 w_closed_door)).
Proof.
  pose proof qiCeiling_large as HC.
  assert (H1 : qi (state (applyOfflineProgressOnResume defaultBAL true 2000
                            w_closed_door)) = Fin 1.2).
  { unfold w_closed_door.
    rewrite (awayState_replay 1 false 2000 1) by (reflexivity || lia).
    cbn [liveAfter set_session set_lifespan set_age set_reinc set_qi qi].
    f_equal. rewrite Rmin_left by (simpl; lra). simpl. lra. }
  assert (H2 : qi (state (ticks defaultBAL 2000 1 w_closed_door)) = Fin 1).
  { cbn [ticks]. unfold w_closed_door.
    pose proof (awayState_LiveRun 1)
      as (Hh & Hp & Hd & Hr & HM & HL & Hv & Hv0 & Hy & HQ & Hp0).
    rewrite (tick_live defaultBAL 2000 _ 1 1 1 100 100 0 0);
      try assumption; try reflexivity; try lra;
      try (cbn [state]; rewrite awayState_age; simpl; lra).
    cbn [state set_state liveAfter set_lifespan set_age set_reinc set_qi qi].
    f_equal. rewrite Rmin_left by lra. lra. }
  split; [exact H1 |]. split; [exact H2 |].
  rewrite H1, H2. intros H. inversion H. lra.
Qed.

(** ** The lifecycle guard *)

(** While a reincarnation is in progress a tick changes nothing. *)
Lemma tick_guarded (BAL : Balance) (now : Z) (dt : num) (w : World) :
  isReincarnating (lifecycle (state w)) = true -> tick BAL now dt w = w.
Proof.
  intros H. unfold tick. rewrite H.
  now destruct (neq (getTimeSpeed (state w)) (Fin 0)).
Qed.

(** While a reincarnation is in progress a click changes nothing. *)
Lemma onClick_guarded (BAL : Balance) (w : World) :
  isReincarnating (lifecycle (state w)) = true -> onClick BAL w = w.
Proof.
  intros H. unfold onClick. rewrite H.
  now destruct (neq (getTimeSpeed (state w)) (Fin 0)).
Qed.

(** C1. With the lifecycle guard set, [tick] and [onClick] leave the
    world as it is, but [applyOfflineProgressOnResume] never reads the
    guard: on the example world, guard set and a snapshot taken ten
    seconds earlier at speed 1, the replay adds 10 Qi to the stock and to
    the lifetime total and ages the cultivator by 0.1 years. *)
Theorem resume_ignores_lifecycle_guard :
  isReincarnating (lifecycle (state w_away_guarded)) = true
  /\ tick defaultBAL 11000 (Fin 10) w_away_guarded = w_away_guarded
  /\ onClick defaultBAL w_away_guarded = w_away_guarded
  /\ (qi (state w_away_guarded) = Fin 0
      /\ qi (state (applyOfflineProgressOnResume defaultBAL true 11000
                      w_away_guarded)) = Fin 10)
  /\ (lifetimeQi (reinc (state w_away_guarded)) = Fin 0
      /\ lifetimeQi (reinc (state (applyOfflineProgressOnResume defaultBAL true
                                     11000 w_away_guarded))) = Fin 10)
  /\ (age (state w_away_guarded) = None
      /\ age (state (applyOfflineProgressOnResume defaultBAL true 11000
                       w_away_guarded)) = Some (Fin 0.1)).
Proof.
  pose proof qiCeiling_large as HC.
  split; [reflexivity |].
  split; [now apply tick_guarded |].
  split; [now apply onClick_guarded |].
  unfold w_away_guarded.
  rewrite (awayState_replay 0 true 11000 10) by (reflexivity || lia).
  cbn [liveAfter set_session set_lifespan set_age set_reinc set_qi qi reinc
       set_lifetimeQi lifetimeQi age state].
  repeat split; try reflexivity.
  - f_equal. rewrite Rmin_left by (simpl; lra). simpl. lra.
  - f_equal. simpl. lra.
  - do 2 f_equal. simpl. lra.
Qed.

(** ** Counters *)

(** [doReincarnate] always adds one to [reinc.times] and rebuilds [stats]
    from [defaultState]: the deaths restart at 0, or at 1 in death mode. *)
Lemma doReincarnate_counters
  (BAL : Balance) (options : option Mode) (now : Z) (w : World) :
  times (reinc (state (doReincarnate BAL options now w)))
  = (times (reinc (state w)) + 1)%Z
  /\ deaths (stats (state (doReincarnate BAL options now w)))
     = if isDeathMode (modeOf options) then 1%Z else 0%Z.
Proof.
  unfold doReincarnate.
  destruct (isMandatoryMode (modeOf options)
            && ((realmIndex _ =? 4)%Z && (stage _ =? 10)%Z));
    destruct (isDeathMode (modeOf options)); cbn;
    unfold updateCurrentCycle; cbn;
    destruct (includesZ _ 0); try destruct (includesZ _ 0); split; reflexivity.
Qed.

(** The death path adds one to [stats.deaths] and keeps [reinc.times]. *)
Lemma dismissDeathAlert_counters
  (BAL : Balance) (now : Z) (w : World) (g : num) :
  awaitingDeath w = Some g ->
  times (reinc (state (dismissDeathAlert BAL now w))) = times (reinc (state w))
  /\ deaths (stats (state (dismissDeathAlert BAL now w)))
     = (deaths (stats (state w)) + 1)%Z.
Proof.
  intros H. unfold dismissDeathAlert. rewrite H. split; reflexivity.
Qed.

(** C5. A voluntary reincarnation of the veteran, who has died three
    times, adds one to [reinc.times] but also puts [stats.deaths] back to
    0, and [doReincarnate] in death mode changes both counters; only the
    death path through the alert adds one to [stats.deaths] and leaves
    [reinc.times] alone. *)
Theorem doReincarnate_resets_deaths :
  canReincarnate (state w_veteran) = true
  /\ times (reinc (state w_veteran)) = 1%Z
  /\ deaths (stats (state w_veteran)) = 3%Z
  /\ (times (reinc (state (confirmVoluntary defaultBAL 5 w_veteran))) = 2%Z
      /\ deaths (stats (state (confirmVoluntary defaultBAL 5 w_veteran))) = 0%Z)
  /\ (times (reinc (state (doReincarnate defaultBAL (Some mandatory) 5 w_veteran)))
      = 2%Z
      /\ deaths (stats (state (doReincarnate defaultBAL (Some mandatory) 5
                                 w_veteran))) = 0%Z)
  /\ (times (reinc (state (doReincarnate defaultBAL (Some death) 5 w_veteran)))
      = 2%Z
      /\ deaths (stats (state (doReincarnate defaultBAL (Some death) 5 w_veteran)))
         = 1%Z)
  /\ (times (reinc (state (dismissDeathAlert defaultBAL 5
                             (handleLifespanEnd defaultBAL 4 w_veteran)))) = 1%Z
      /\ deaths (stats (state (dismissDeathAlert defaultBAL 5
                                 (handleLifespanEnd defaultBAL 4 w_veteran))))
         = 4%Z).
Proof.
  split; [reflexivity |]. split; [reflexivity |]. split; [reflexivity |].
  split; [| split; [| split]].
  - unfold confirmVoluntary.
    destruct (doReincarnate_counters defaultBAL (Some voluntary) 5
                (onS (set_life (mkLife false)) w_veteran)) as [Ht Hd].
    split; [exact Ht | exact Hd].
  - destruct (doReincarnate_counters defaultBAL (Some mandatory) 5 w_veteran)
      as [Ht Hd].
    split; [exact Ht | exact Hd].
  - destruct (doReincarnate_counters defaultBAL (Some death) 5 w_veteran)
      as [Ht Hd].
    split; [exact Ht | exact Hd].
  - destruct (dismissDeathAlert_counters defaultBAL 5
                (handleLifespanEnd defaultBAL 4 w_veteran)
                (computeDeathKarma defaultBAL
                   (state (handleLifespanEnd defaultBAL 4 w_veteran))) eq_refl)
      as [Ht Hd].
    split; [exact Ht | exact Hd].
Qed.

(** ** Karma never decreases *)

(** The base gain is a real number of at least [minKarma]. *)
Lemma computeKarmaGain_ok (BAL : Balance) (s : State) :
  0 < lifetimeQiDivisor BAL -> lifetimeQiOK s ->
  gainOK BAL (computeKarmaGain BAL s).
Proof.
  intros Hdiv Hok. unfold lifetimeQiOK in Hok. unfold computeKarmaGain.
  assert (E : exists q, safeNum (lifetimeQi (reinc s)) (Fin 0) = Fin q /\ 0 <= q).
  { destruct (lifetimeQi (reinc s)) as [q | | |]; cbn;
      [exists q; auto | exists 0; split; [reflexivity | lra] ..]. }
  destruct E as (q & -> & Hq).
  unfold safeNum at 1; cbn [isFinite].
  rewrite ndiv_Fin by lra. rewrite nsqrt_Fin by (apply div_nonneg; lra).
  destruct (currentCycle s); cbn; eexists; (split; [reflexivity | apply Rmax_l]).
Qed.

Lemma computeVoluntaryKarma_ok (BAL : Balance) (s : State) :
  0 < lifetimeQiDivisor BAL -> lifetimeQiOK s ->
  gainOK BAL (computeVoluntaryKarma BAL s).
Proof.
  intros Hdiv Hok. destruct (computeKarmaGain_ok BAL s Hdiv Hok) as (g & Hg & _).
  unfold computeVoluntaryKarma. rewrite Hg. cbn.
  eexists; split; [reflexivity | apply Rmax_l].
Qed.

Lemma computeDeathKarma_ok (BAL : Balance) (s : State) :
  0 < lifetimeQiDivisor BAL -> lifetimeQiOK s ->
  gainOK BAL (computeDeathKarma BAL s).
Proof.
  intros Hdiv Hok. destruct (computeKarmaGain_ok BAL s Hdiv Hok) as (g & Hg & _).
  unfold computeDeathKarma. rewrite Hg.
  destruct (deathPenalty BAL) as [p |]; cbn.
  - unfold orElse, truthy. destruct (Req_dec_T p 0); cbn;
      eexists; (split; [reflexivity | apply Rmax_l]).
  - eexists; split; [reflexivity | apply Rmax_l].
Qed.

Lemma lifetimeQiOK_ext (s1 s2 : State) :
  reinc s1 = reinc s2 -> lifetimeQiOK s1 -> lifetimeQiOK s2.
Proof. unfold lifetimeQiOK. now intros ->. Qed.

(** [handleLifespanEnd] does not touch [reinc], and the gain it hands to
    the alert is one of at least [minKarma]. *)
Lemma handleLifespanEnd_reinc (BAL : Balance) (now : Z) (w : World) :
  reinc (state (handleLifespanEnd BAL now w)) = reinc (state w).
Proof. unfold handleLifespanEnd. split_tests; reflexivity. Qed.

Lemma handleLifespanEnd_pending (BAL : Balance) (now : Z) (w : World) :
  0 < lifetimeQiDivisor BAL -> lifetimeQiOK (state w) -> pendingOK BAL w ->
  pendingOK BAL (handleLifespanEnd BAL now w).
Proof.
  intros Hdiv Hok Hpend. unfold handleLifespanEnd.
  split_tests; [assumption |].
  intros g Hg. cbn in Hg. injection Hg as <-.
  apply computeDeathKarma_ok; [assumption |].
  eapply lifetimeQiOK_ext; [| exact Hok]. reflexivity.
Qed.

Lemma tickLifespan_reinc (BAL : Balance) (now : Z) (dt : num) (w : World) :
  reinc (state (tickLifespan BAL now dt w)) = reinc (state w).
Proof.
  unfold tickLifespan.
  split_tests; rewrite ?handleLifespanEnd_reinc, ?norm_eq; reflexivity.
Qed.

Lemma tickLifespan_pending (BAL : Balance) (now : Z) (dt : num) (w : World) :
  0 < lifetimeQiDivisor BAL -> lifetimeQiOK (state w) -> pendingOK BAL w ->
  pendingOK BAL (tickLifespan BAL now dt w).
Proof.
  intros Hdiv Hok Hpend. unfold tickLifespan.
  split_tests; try exact Hpend;
    apply handleLifespanEnd_pending; try assumption;
    rewrite norm_eq; (eapply lifetimeQiOK_ext; [| exact Hok]); reflexivity.
Qed.

Lemma checkLifespanGate_reinc (BAL : Balance) (now : Z) (w : World) :
  reinc (state (checkLifespanGate BAL now w)) = reinc (state w).
Proof.
  unfold checkLifespanGate.
  split_tests; rewrite ?handleLifespanEnd_reinc; reflexivity.
Qed.

Lemma checkLifespanGate_pending (BAL : Balance) (now : Z) (w : World) :
  0 < lifetimeQiDivisor BAL -> lifetimeQiOK (state w) -> pendingOK BAL w ->
  pendingOK BAL (checkLifespanGate BAL now w).
Proof.
  intros Hdiv Hok Hpend. unfold checkLifespanGate.
  split_tests; try exact Hpend;
    apply handleLifespanEnd_pending; try assumption;
    (eapply lifetimeQiOK_ext; [| exact Hok]); reflexivity.
Qed.

Lemma safeAddQi_reinc (x : num) (s : State) : reinc (safeAddQi x s) = reinc s.
Proof. unfold safeAddQi. now destruct (negb (isFinite x) || nle x (Fin 0)). Qed.

(** A tick keeps the karma; if the lifetime Qi it leaves is valid, so is
    the gain of a death it may have triggered. *)
Lemma tick_frame (BAL : Balance) (now : Z) (dt : num) (w : World) :
  0 < lifetimeQiDivisor BAL ->
  lifetimeQiOK (state (tick BAL now dt w)) -> pendingOK BAL w ->
  karma (reinc (state (tick BAL now dt w))) = karma (reinc (state w))
  /\ pendingOK BAL (tick BAL now dt w).
Proof.
  intros Hdiv Hok Hpend. unfold tick in *.
  destruct (neq (getTimeSpeed (state w)) (Fin 0)); [now split |].
  destruct (isReincarnating (lifecycle (state w))); [now split |].
  destruct (isHandlingDeath w); [now split |].
  match goal with
  | |- context [checkLifespanGate BAL now (tickLifespan BAL now dt ?w2)] =>
      set (w' := w2) in *
  end.
  assert (Hp' : pendingOK BAL w') by exact Hpend.
  assert (Hk' : karma (reinc (state w')) = karma (reinc (state w))).
  { unfold w', onS. cbn [state set_state reinc set_reinc karma set_lifetimeQi].
    rewrite safeAddQi_reinc. reflexivity. }
  assert (E : reinc (state (checkLifespanGate BAL now (tickLifespan BAL now dt w')))
              = reinc (state w')).
  { rewrite checkLifespanGate_reinc, tickLifespan_reinc. reflexivity. }
  assert (Hok' : lifetimeQiOK (state w'))
    by (eapply lifetimeQiOK_ext; [exact E | exact Hok]).
  split; [rewrite E; exact Hk' |].
  apply checkLifespanGate_pending; [exact Hdiv | |].
  - eapply lifetimeQiOK_ext; [| exact Hok'].
    symmetry. apply tickLifespan_reinc.
  - apply tickLifespan_pending; [exact Hdiv | exact Hok' | exact Hp'].
Qed.

Lemma onClick_frame (BAL : Balance) (w : World) :
  karma (reinc (state (onClick BAL w))) = karma (reinc (state w))
  /\ awaitingDeath (onClick BAL w) = awaitingDeath w.
Proof.
  unfold onClick. split_tests; try (split; reflexivity).
  unfold onS. cbn [state set_state reinc set_reinc karma set_lifetimeQi
                   awaitingDeath].
  now rewrite safeAddQi_reinc.
Qed.

Lemma updateCurrentCycle_reinc (BAL : Balance) (s : State) :
  reinc (updateCurrentCycle BAL s) = reinc s.
Proof. unfold updateCurrentCycle. split_tests; reflexivity. Qed.

Lemma updateLifespanOnRealmAdvance_reinc (BAL : Balance) (s : State) :
  reinc (updateLifespanOnRealmAdvance BAL s) = reinc s.
Proof. unfold updateLifespanOnRealmAdvance. split_tests; reflexivity. Qed.

Lemma triggerCycleTransition_frame (w : World) :
  state (triggerCycleTransition w) = state w
  /\ awaitingDeath (triggerCycleTransition w) = awaitingDeath w.
Proof.
  unfold triggerCycleTransition. destruct (currentCycle (state w)); now split.
Qed.

Lemma doBreakthrough_frame (BAL : Balance) (w : World) :
  karma (reinc (state (doBreakthrough BAL w))) = karma (reinc (state w))
  /\ awaitingDeath (doBreakthrough BAL w) = awaitingDeath w.
Proof.
  unfold doBreakthrough.
  destruct (nlt _ _); [now split |].
  destruct (stage _ <? 10)%Z; [now split |].
  destruct (_ && negb _); [now split |].
  destruct (isAtCycleEnd _).
  { destruct (triggerCycleTransition_frame
                (set_state
                   (set_qi (nsub (qi (state w))
                              (stageRequirement BAL (state w)
                                 (realmIndex (state w)) (stage (state w))))
                      (state w)) w)) as [-> ->].
    now split. }
  destruct (_ <? _)%Z.
  - match goal with
    | |- context [if ?c then _ else _] => destruct c
    end;
      cbn [state set_state show awaitingDeath];
      unfold checkAndUnlockSpeeds; cbn [reinc set_meta];
      rewrite updateCurrentCycle_reinc, updateLifespanOnRealmAdvance_reinc;
      now split.
  - match goal with
    | |- context [triggerCycleTransition ?w'] =>
        destruct (triggerCycleTransition_frame w') as [-> ->]
    end.
    now split.
Qed.

Lemma offlineAge_reinc (BAL : Balance) (y : num) (s : State) :
  reinc (fst (offlineAge BAL y s)) = reinc s.
Proof. unfold offlineAge. split_tests; reflexivity. Qed.

(** A resume keeps the karma; if the lifetime Qi it leaves is valid, so
    is the gain of a death it may have triggered. *)
Lemma resume_frame (BAL : Balance) (showPopup : bool) (now : Z) (w : World) :
  0 < lifetimeQiDivisor BAL ->
  lifetimeQiOK (state (applyOfflineProgressOnResume BAL showPopup now w)) ->
  pendingOK BAL w ->
  karma (reinc (state (applyOfflineProgressOnResume BAL showPopup now w)))
  = karma (reinc (state w))
  /\ pendingOK BAL (applyOfflineProgressOnResume BAL showPopup now w).
Proof.
  intros Hdiv Hok Hpend. unfold applyOfflineProgressOnResume in *.
  destruct (session (state w)) as [snap |]; [| now split].
  destruct (lastTs snap =? 0)%Z; [now split |].
  destruct (nle _ _); [now split |].
  destruct (_ <? 1)%Z; [now split |].
  unfold offlineReplay in *.
  match goal with
  | |- context [offlineAge BAL ?y ?s] =>
      pose proof (offlineAge_reinc BAL y s) as Er;
      destruct (offlineAge BAL y s) as [s' exceeded]
  end.
  cbn [fst] in Er. rewrite norm_eq in Er. cbn [reinc set_age set_ageYears] in Er.
  assert (Ek : karma (reinc s') = karma (reinc (state w))).
  { rewrite Er. destruct (ngt _ _); [| reflexivity].
    cbn [reinc set_reinc karma set_lifetimeQi]. now rewrite safeAddQi_reinc. }
  destruct exceeded.
  - rewrite checkLifespanGate_reinc. cbn [state set_state reinc set_session].
    split; [exact Ek |].
    apply checkLifespanGate_pending; [assumption | | exact Hpend].
    eapply lifetimeQiOK_ext; [| exact Hok]. apply checkLifespanGate_reinc.
  - destruct (showPopup && ngt _ _); split; (exact Ek || exact Hpend).
Qed.

(** A reincarnation adds a gain of at least [minKarma] to the karma. *)
Lemma doReincarnate_karma
  (BAL : Balance) (options : option Mode) (now : Z) (w : World) (k : R) :
  0 < lifetimeQiDivisor BAL -> lifetimeQiOK (state w) ->
  karma (reinc (state w)) = Fin k ->
  (exists r : R,
     karma (reinc (state (doReincarnate BAL options now w))) = Fin (k + r)
     /\ minKarma BAL <= r)
  /\ awaitingDeath (doReincarnate BAL options now w) = awaitingDeath w.
Proof.
  intros Hdiv Hok Hk.
  set (s1 := state w
             |> set_lifecycle
                  (lifecycle (state w)
                   |> set_isReincarnating true |> set_lastReincarnateAt now)).
  assert (Hok1 : lifetimeQiOK s1) by exact Hok.
  assert (Hg : gainOK BAL (if isDeathMode (modeOf options)
                           then computeDeathKarma BAL s1
                           else computeVoluntaryKarma BAL s1)).
  { destruct (isDeathMode (modeOf options));
      [now apply computeDeathKarma_ok | now apply computeVoluntaryKarma_ok]. }
  destruct Hg as (r & Hg & Hr).
  split; [exists r; split; [| exact Hr] | reflexivity].
  unfold doReincarnate. fold s1. rewrite Hg.
  change (karma (reinc s1)) with (karma (reinc (state w))). rewrite Hk.
  unfold updateCurrentCycle.
  split_tests; reflexivity.
Qed.

(** Dismissing the death alert adds the gain the alert holds. *)
Lemma dismissDeathAlert_karma
  (BAL : Balance) (now : Z) (w : World) (k : R) :
  pendingOK BAL w -> karma (reinc (state w)) = Fin k ->
  (exists r : R,
     karma (reinc (state (dismissDeathAlert BAL now w))) = Fin (k + r)
     /\ (if completesTransition (ADismissDeath now) w
         then minKarma BAL <= r else r = 0))
  /\ pendingOK BAL (dismissDeathAlert BAL now w).
Proof.
  intros Hpend Hk. unfold dismissDeathAlert, completesTransition.
  destruct (awaitingDeath w) as [g |] eqn:Eg.
  - destruct (Hpend g Eg) as (r & -> & Hr).
    split; [exists r; split; [| exact Hr] | intros g' Hg'; discriminate Hg'].
    cbn. rewrite Hk. unfold orElse, truthy.
    destruct (Req_dec_T k 0) as [-> | _]; reflexivity.
  - split; [exists 0; split; [rewrite Hk; f_equal; lra | reflexivity] |].
    exact Hpend.
Qed.

(** A new life starts with no lifetime Qi. *)
Lemma doReincarnate_lifetimeQi
  (BAL : Balance) (options : option Mode) (now : Z) (w : World) :
  lifetimeQi (reinc (state (doReincarnate BAL options now w))) = Fin 0.
Proof.
  unfold doReincarnate, updateCurrentCycle. split_tests; reflexivity.
Qed.

(** One step of a run: the karma stays a real number, grows by at least
    [minKarma] when the step completes a transition, and is unchanged
    otherwise. *)
Lemma act_karma (BAL : Balance) (a : Action) (w : World) (k : R) :
  0 < lifetimeQiDivisor BAL ->
  lifetimeQiOK (state w) -> lifetimeQiOK (state (act BAL a w)) ->
  pendingOK BAL w -> karma (reinc (state w)) = Fin k ->
  (exists r : R,
     karma (reinc (state (act BAL a w))) = Fin (k + r)
     /\ (if completesTransition a w then minKarma BAL <= r else r = 0))
  /\ pendingOK BAL (act BAL a w).
Proof.
  intros Hdiv Hok Hok' Hpend Hk.
  assert (Hsame : forall w',
            karma (reinc (state w')) = karma (reinc (state w)) ->
            exists r : R, karma (reinc (state w')) = Fin (k + r) /\ r = 0).
  { intros w' E. exists 0. rewrite E, Hk. split; [f_equal; lra | reflexivity]. }
  destruct a as [now dt | | | showPopup now | options now | now]; cbn [act] in *.
  - destruct (tick_frame BAL now dt w Hdiv Hok' Hpend) as [E P].
    split; [now apply Hsame | exact P].
  - destruct (onClick_frame BAL w) as [E P].
    split; [now apply Hsame |]. unfold pendingOK. now rewrite P.
  - destruct (doBreakthrough_frame BAL w) as [E P].
    split; [now apply Hsame |]. unfold pendingOK. now rewrite P.
  - destruct (resume_frame BAL showPopup now w Hdiv Hok' Hpend) as [E P].
    split; [now apply Hsame | exact P].
  - destruct (doReincarnate_karma BAL options now w k Hdiv Hok Hk) as [E P].
    split; [exact E |]. unfold pendingOK. now rewrite P.
  - now apply dismissDeathAlert_karma.
Qed.

(** *** Production is never negative *)

(** Sums and products of numbers that are not negative are not negative:
    a non-finite operand gives a non-finite result. *)
Lemma notNegative_nadd (x y : num) :
  notNegative x -> notNegative y -> notNegative (nadd x y).
Proof. destruct x, y; cbn; intros; try exact I; lra. Qed.

Lemma notNegative_nmul (x y : num) :
  notNegative x -> notNegative y -> notNegative (nmul x y).
Proof.
  destruct x, y; cbn; intros; try exact I;
    try (unfold infOf, sgn; split_tests; exact I).
  now apply Rmult_le_pos.
Qed.

(** A number that passes the test [x > 0] is not negative. *)
Lemma ngt_0_notNegative (x : num) : ngt x (Fin 0) = true -> notNegative x.
Proof.
  destruct x as [r | | |]; cbn; try (intros; exact I).
  destruct (Rlt_dec 0 r); [lra | discriminate].
Qed.

Lemma safeNum_nadd_notNegative (l g : num) :
  notNegative l -> notNegative g -> notNegative (safeNum (nadd l g) (Fin 0)).
Proof.
  intros Hl Hg. pose proof (notNegative_nadd l g Hl Hg) as H.
  unfold safeNum. destruct (nadd l g); cbn in *; lra.
Qed.

(** The factors of the production. *)
Lemma karmaQiMult_notNegative (k : R) : 0 <= k -> notNegative (karmaQiMult (Fin k)).
Proof.
  intros Hk. rewrite karmaQiMult_softCap, softCap_Fin.
  unfold notNegative.
  set (x := - (0.04) * k).
  assert (exp x <= exp 0).
  { destruct (Req_dec_T k 0) as [E | Hne].
    - apply Req_le. f_equal. subst x. rewrite E. lra.
    - left. apply exp_increasing. subst x. lra. }
  rewrite exp_0 in H. lra.
Qed.

Lemma cyclePowerMult_notNegative (r : Z) : notNegative (cyclePowerMult r).
Proof.
  unfold cyclePowerMult. cbn.
  destruct (0 <=? r)%Z eqn:E0; cbn.
  - apply Z.leb_le in E0. apply IZR_le in E0.
    destruct (r <=? 4)%Z; cbn.
    + rewrite Z.sub_0_r. lra.
    + destruct (5 <=? r)%Z eqn:E5; cbn; [| lra].
      apply Z.leb_le in E5.
      destruct (r <=? 9)%Z; cbn; [| lra].
      assert (0 <= IZR (r - 5)) by (apply IZR_le; lia). lra.
  - destruct (5 <=? r)%Z eqn:E5; cbn; [| lra].
    apply Z.leb_le in E5.
    destruct (r <=? 9)%Z; cbn; [| lra].
    assert (0 <= IZR (r - 5)) by (apply IZR_le; lia). lra.
Qed.

Lemma skillLevel_notNegative (s : State) (id : string) :
  productionOK s -> notNegative (skillLevel s id).
Proof.
  intros (_ & _ & _ & _ & _ & H). unfold skillLevel. cbn.
  destruct (skills s !! id) as [l |] eqn:E; cbn.
  - apply IZR_le. eauto.
  - lra.
Qed.

(** Qi per second and Qi per click are never negative numbers. *)
Lemma totalQPS_notNegative (BAL : Balance) (s : State) (k : R) :
  balanceOK BAL -> productionOK s -> karma (reinc s) = Fin k -> 0 <= k ->
  notNegative (totalQPS BAL s).
Proof.
  intros (Hb & _ & Hl & _) Hs Hk Hk0.
  pose proof (fun id => skillLevel_notNegative s id Hs) as Hlevel.
  destruct Hs as (_ & Hqps & _ & Hmult & _).
  unfold totalQPS. rewrite Hk.
  apply notNegative_nmul; [| apply cyclePowerMult_notNegative].
  apply notNegative_nmul; [| now apply karmaQiMult_notNegative].
  repeat first [apply notNegative_nmul | apply notNegative_nadd];
    auto; cbn; lra.
Qed.

Lemma totalQPC_notNegative (BAL : Balance) (s : State) (k : R) :
  balanceOK BAL -> productionOK s -> karma (reinc s) = Fin k -> 0 <= k ->
  notNegative (totalQPC BAL s).
Proof.
  intros (_ & Hm & _ & Hd & _) Hs Hk Hk0.
  pose proof (fun id => skillLevel_notNegative s id Hs) as Hlevel.
  destruct Hs as (Hqpc & _ & Hmult & _).
  unfold totalQPC. rewrite Hk.
  apply notNegative_nmul; [| apply cyclePowerMult_notNegative].
  apply notNegative_nmul; [| now apply karmaQiMult_notNegative].
  repeat first [apply notNegative_nmul | apply notNegative_nadd];
    auto; cbn; lra.
Qed.

Lemma getTimeSpeed_notNegative (s : State) :
  productionOK s -> notNegative (getTimeSpeed s).
Proof.
  intros (_ & _ & _ & _ & H & _). unfold getTimeSpeed.
  destruct (paused (timeSpeed s)); [cbn; lra | exact H].
Qed.

(** *** The production values along a run *)

(** [productionOK] reads six fields of the state. *)
Lemma productionOK_ext (s1 s2 : State) :
  qpcBase s2 = qpcBase s1 -> qpsBase s2 = qpsBase s1 ->
  qpcMult s2 = qpcMult s1 -> qpsMult s2 = qpsMult s1 ->
  ts_current (timeSpeed s2) = ts_current (timeSpeed s1) ->
  skills s2 = skills s1 ->
  productionOK s1 -> productionOK s2.
Proof. unfold productionOK. now intros -> -> -> -> -> ->. Qed.

(** A fresh state has valid production values. *)
Lemma defaultState_production (BAL : Balance) (now : Z) :
  balanceOK BAL -> productionOK (defaultState BAL now).
Proof.
  intros (_ & _ & _ & _ & Hc & Hs & _).
  repeat split; cbn; try lra.
  intros id l H. rewrite lookup_empty in H. discriminate H.
Qed.

(** The routines that touch only age, lifespan, flags and the lifecycle
    keep the production values; a death sets the speed to 0. *)
Lemma handleLifespanEnd_production (BAL : Balance) (now : Z) (w : World) :
  productionOK (state w) -> productionOK (state (handleLifespanEnd BAL now w)).
Proof. unfold handleLifespanEnd. production_frame. Qed.

Lemma norm_production (s : State) :
  productionOK s -> productionOK (initAge (migrateAge s)).
Proof. unfold initAge, migrateAge. production_frame. Qed.

Lemma tickLifespan_production (BAL : Balance) (now : Z) (dt : num) (w : World) :
  productionOK (state w) -> productionOK (state (tickLifespan BAL now dt w)).
Proof.
  intros H. unfold tickLifespan.
  split_tests; try exact H; try apply handleLifespanEnd_production;
    rewrite norm_eq; revert H; production_frame.
Qed.

Lemma checkLifespanGate_production (BAL : Balance) (now : Z) (w : World) :
  productionOK (state w) -> productionOK (state (checkLifespanGate BAL now w)).
Proof.
  intros H. unfold checkLifespanGate.
  split_tests; try exact H; try apply handleLifespanEnd_production;
    revert H; production_frame.
Qed.

Lemma offlineAge_production (BAL : Balance) (y : num) (s : State) :
  productionOK s -> productionOK (fst (offlineAge BAL y s)).
Proof. unfold offlineAge. production_frame. Qed.

Lemma updateCurrentCycle_production (BAL : Balance) (s : State) :
  productionOK s -> productionOK (updateCurrentCycle BAL s).
Proof. unfold updateCurrentCycle. production_frame. Qed.

Lemma updateLifespanOnRealmAdvance_production (BAL : Balance) (s : State) :
  productionOK s -> productionOK (updateLifespanOnRealmAdvance BAL s).
Proof. unfold updateLifespanOnRealmAdvance. production_frame. Qed.

(** *** One step of a run *)

(** A tick leaves a valid lifetime Qi and valid production values. *)
Lemma tick_stateOK (BAL : Balance) (now : Z) (dt : num) (w : World) (k : R) :
  balanceOK BAL -> notNegative dt ->
  karma (reinc (state w)) = Fin k -> 0 <= k ->
  lifetimeQiOK (state w) -> productionOK (state w) ->
  lifetimeQiOK (state (tick BAL now dt w))
  /\ productionOK (state (tick BAL now dt w)).
Proof.
  intros Hbal Hdt Hk Hk0 Hok Hprod. unfold tick.
  destruct (neq (getTimeSpeed (state w)) (Fin 0)); [now split |].
  destruct (isReincarnating (lifecycle (state w))); [now split |].
  destruct (isHandlingDeath w); [now split |].
  assert (Hgain : notNegative
                    (nmul (totalQPS BAL (state w))
                       (nmul dt (getTimeSpeed (state w))))).
  { apply notNegative_nmul; [now apply (totalQPS_notNegative BAL _ k) |].
    apply notNegative_nmul; [exact Hdt | now apply getTimeSpeed_notNegative]. }
  split.
  - unfold lifetimeQiOK.
    rewrite checkLifespanGate_reinc, tickLifespan_reinc.
    unfold onS. cbn [state set_state reinc set_reinc lifetimeQi set_lifetimeQi].
    rewrite safeAddQi_reinc. now apply safeNum_nadd_notNegative.
  - apply checkLifespanGate_production, tickLifespan_production.
    unfold onS, safeAddQi. cbn [state set_state].
    revert Hprod. clear. production_frame.
Qed.

(** So does a click. *)
Lemma onClick_stateOK (BAL : Balance) (w : World) (k : R) :
  balanceOK BAL ->
  karma (reinc (state w)) = Fin k -> 0 <= k ->
  lifetimeQiOK (state w) -> productionOK (state w) ->
  lifetimeQiOK (state (onClick BAL w))
  /\ productionOK (state (onClick BAL w)).
Proof.
  intros Hbal Hk Hk0 Hok Hprod. unfold onClick.
  destruct (neq (getTimeSpeed (state w)) (Fin 0)); [now split |].
  destruct (isReincarnating (lifecycle (state w))); [now split |].
  assert (Hgain : notNegative
                    (nmul (totalQPC BAL (state w))
                       (getCurrentTimeMultiplier (state w)))).
  { apply notNegative_nmul; [now apply (totalQPC_notNegative BAL _ k) |].
    now apply getTimeSpeed_notNegative. }
  split.
  - unfold lifetimeQiOK, onS.
    cbn [state set_state reinc set_reinc lifetimeQi set_lifetimeQi].
    rewrite safeAddQi_reinc. now apply safeNum_nadd_notNegative.
  - unfold onS, safeAddQi. cbn [state set_state].
    revert Hprod. clear. production_frame.
Qed.

(** A breakthrough keeps [reinc]; a realm advance adds the configured
    increments to the two base rates. *)
Lemma triggerCycleTransition_state (w : World) :
  state (triggerCycleTransition w) = state w.
Proof. apply triggerCycleTransition_frame. Qed.

Lemma doBreakthrough_reinc (BAL : Balance) (w : World) :
  reinc (state (doBreakthrough BAL w)) = reinc (state w).
Proof.
  unfold doBreakthrough. split_head;
    rewrite ?triggerCycleTransition_state;
    cbn [state set_state show]; unfold checkAndUnlockSpeeds;
    cbn [reinc set_meta];
    rewrite ?updateCurrentCycle_reinc, ?updateLifespanOnRealmAdvance_reinc;
    reflexivity.
Qed.

Lemma doBreakthrough_stateOK (BAL : Balance) (w : World) :
  balanceOK BAL ->
  lifetimeQiOK (state w) -> productionOK (state w) ->
  lifetimeQiOK (state (doBreakthrough BAL w))
  /\ productionOK (state (doBreakthrough BAL w)).
Proof.
  intros (_ & _ & _ & _ & _ & _ & Hc & Hs) Hok Hprod. split.
  - eapply lifetimeQiOK_ext; [| exact Hok]. symmetry. apply doBreakthrough_reinc.
  - unfold doBreakthrough. split_head;
      rewrite ?triggerCycleTransition_state;
      cbn [state set_state show]; try exact Hprod;
      try solve [revert Hprod; clear; production_frame].
    all: unfold checkAndUnlockSpeeds;
      match goal with
      | |- productionOK (set_meta ?m ?s) =>
          apply (productionOK_ext s); try reflexivity
      end;
      apply updateCurrentCycle_production,
        updateLifespanOnRealmAdvance_production;
      destruct Hprod as (H1 & H2 & H3 & H4 & H5 & H6);
      unfold productionOK; cbn -[notNegative nadd];
      repeat split; auto; apply notNegative_nadd; auto.
Qed.

(** A resume adds a gain to the lifetime Qi only when the gain is
    positive. *)
Lemma resume_stateOK (BAL : Balance) (showPopup : bool) (now : Z) (w : World) :
  lifetimeQiOK (state w) -> productionOK (state w) ->
  lifetimeQiOK (state (applyOfflineProgressOnResume BAL showPopup now w))
  /\ productionOK (state (applyOfflineProgressOnResume BAL showPopup now w)).
Proof.
  intros Hok Hprod. unfold applyOfflineProgressOnResume.
  assert (Hnone : lifetimeQiOK (state (set_state (set_session None (state w)) w))
                  /\ productionOK (state (set_state (set_session None (state w)) w)))
    by (split; [exact Hok | exact Hprod]).
  destruct (session (state w)) as [snap |]; [| exact Hnone].
  destruct (lastTs snap =? 0)%Z; [exact Hnone |].
  destruct (nle _ _); [exact Hnone |].
  destruct (_ <? 1)%Z; [exact Hnone |].
  clear Hnone. unfold offlineReplay.
  match goal with
  | |- context [offlineAge BAL ?y ?s] =>
      pose proof (offlineAge_reinc BAL y s) as Er;
      pose proof (offlineAge_production BAL y s) as Ep;
      destruct (offlineAge BAL y s) as [s' exceeded]
  end.
  cbn [fst] in Er, Ep.
  assert (Hok' : lifetimeQiOK s').
  { unfold lifetimeQiOK. rewrite Er, norm_eq.
    cbn [reinc set_age set_ageYears].
    destruct (ngt _ _) eqn:Eg; [| exact Hok].
    cbn [reinc set_reinc lifetimeQi set_lifetimeQi]. rewrite safeAddQi_reinc.
    apply safeNum_nadd_notNegative; [exact Hok | now apply ngt_0_notNegative]. }
  assert (Hprod' : productionOK s').
  { apply Ep, norm_production.
    destruct (ngt _ _); [| exact Hprod].
    unfold safeAddQi. revert Hprod. clear. production_frame. }
  assert (Hs : lifetimeQiOK (set_session None s')
               /\ productionOK (set_session None s'))
    by (split; [exact Hok' | exact Hprod']).
  destruct exceeded.
  - split.
    + unfold lifetimeQiOK. rewrite checkLifespanGate_reinc. apply Hs.
    + apply checkLifespanGate_production. apply Hs.
  - destruct (showPopup && ngt _ _); exact Hs.
Qed.

(** Both reset routines start the new life from [defaultState] with a
    lifetime Qi of 0. *)
Lemma doReincarnate_stateOK
  (BAL : Balance) (options : option Mode) (now : Z) (w : World) :
  balanceOK BAL ->
  lifetimeQiOK (state (doReincarnate BAL options now w))
  /\ productionOK (state (doReincarnate BAL options now w)).
Proof.
  intros Hbal. split.
  - unfold lifetimeQiOK. rewrite doReincarnate_lifetimeQi. cbn. lra.
  - pose proof (defaultState_production BAL now Hbal) as Hfresh.
    unfold doReincarnate, updateCurrentCycle; split_tests;
      (apply (productionOK_ext (defaultState BAL now));
       [reflexivity .. | exact Hfresh]).
Qed.

Lemma dismissDeathAlert_stateOK (BAL : Balance) (now : Z) (w : World) :
  balanceOK BAL ->
  lifetimeQiOK (state w) -> productionOK (state w) ->
  lifetimeQiOK (state (dismissDeathAlert BAL now w))
  /\ productionOK (state (dismissDeathAlert BAL now w)).
Proof.
  intros Hbal Hok Hprod. unfold dismissDeathAlert.
  destruct (awaitingDeath w) as [g |]; [| now split].
  split.
  - unfold lifetimeQiOK. cbn. lra.
  - apply (productionOK_ext (defaultState BAL now));
      [.. | now apply defaultState_production]; reflexivity.
Qed.

(** Every step of a run keeps the lifetime Qi and the production values
    valid. *)
Lemma act_stateOK (BAL : Balance) (a : Action) (w : World) (k : R) :
  balanceOK BAL -> forwardInTime a ->
  karma (reinc (state w)) = Fin k -> 0 <= k ->
  lifetimeQiOK (state w) -> productionOK (state w) ->
  lifetimeQiOK (state (act BAL a w)) /\ productionOK (state (act BAL a w)).
Proof.
  intros Hbal Ha Hk Hk0 Hok Hprod.
  destruct a as [now dt | | | showPopup now | options now | now]; cbn [act].
  - now apply (tick_stateOK BAL now dt w k).
  - now apply (onClick_stateOK BAL w k).
  - now apply doBreakthrough_stateOK.
  - now apply resume_stateOK.
  - now apply doReincarnate_stateOK.
  - now apply dismissDeathAlert_stateOK.
Qed.

(** As long as time goes forward, karma never decreases.  Take a
    configuration whose [minKarma] and lifetime-Qi divisor are positive
    and whose production values are not negative, and a world whose
    karma is a real number [k0 >= 0], whose lifetime Qi and production
    values are not negative and whose pending death gain, if any, is at
    least [minKarma].  After any finite run of the game from it in which
    every tick is over a time step that is not negative (with clicks,
    breakthroughs, resumes, reincarnations in any mode and dismissed
    death alerts in between) the karma is a real number that is at
    least [k0] plus [minKarma] for every transition completed: each
    transition adds a gain of at least [minKarma] > 0 and nothing else
    changes the karma.  What a negative time step does to it is the
    subject of the last section. *)
Theorem karma_never_decreases (BAL : Balance) (acts : list Action) :
  forall (w : World) (k0 : R),
    0 < minKarma BAL -> 0 < lifetimeQiDivisor BAL -> balanceOK BAL ->
    Forall forwardInTime acts ->
    karma (reinc (state w)) = Fin k0 -> 0 <= k0 ->
    worldOK BAL w ->
    exists k : R,
      karma (reinc (state (run BAL acts w))) = Fin k
      /\ k0 + INR (transitionsCompleted BAL acts w) * minKarma BAL <= k
      /\ k0 <= k.
Proof.
  induction acts as [| a rest IH];
    intros w k0 Hmin Hdiv Hbal Hacts Hk Hk0 (Hok & Hprod & Hpend).
  - exists k0. cbn. repeat split; [exact Hk | lra | lra].
  - apply Forall_cons in Hacts. destruct Hacts as [Ha Hrest].
    destruct (act_stateOK BAL a w k0 Hbal Ha Hk Hk0 Hok Hprod)
      as [Hok' Hprod'].
    destruct (act_karma BAL a w k0 Hdiv Hok Hok' Hpend Hk)
      as ((r & Hk' & Hr) & Hpend').
    assert (Hr0 : 0 <= r) by (destruct (completesTransition a w); lra).
    destruct (IH (act BAL a w) (k0 + r) Hmin Hdiv Hbal Hrest Hk'
                ltac:(lra) (conj Hok' (conj Hprod' Hpend')))
      as (k & Hfin & Hcount & Hle).
    exists k. cbn [run transitionsCompleted].
    rewrite plus_INR.
    pose proof (pos_INR (transitionsCompleted BAL rest (act BAL a w))) as Hn.
    destruct (completesTransition a w); cbn [INR] in *;
      repeat split; try exact Hfin; nra.
Qed.

(** The built-in table and the veteran meet the assumptions. *)
Lemma defaultBAL_OK : balanceOK defaultBAL.
Proof. repeat split; cbn; lra. Qed.

Lemma w_veteran_OK : worldOK defaultBAL w_veteran.
Proof.
  split; [cbn; lra | split].
  - apply (productionOK_ext (defaultState defaultBAL 0));
      [reflexivity .. | apply defaultState_production, defaultBAL_OK].
  - intros g Hg. discriminate Hg.
Qed.

(** The veteran, 20 karma, lives a second, clicks once, reincarnates
    by choice and then once more in death mode. *)
Lemma karma_never_decreases_witness :
  exists k : R,
    karma (reinc (state (run defaultBAL veteranRun w_veteran))) = Fin k
    /\ 20 + INR (transitionsCompleted defaultBAL veteranRun w_veteran)
            * minKarma defaultBAL <= k
    /\ 20 <= k.
Proof.
  assert (Hmin : 0 < minKarma defaultBAL) by (simpl; lra).
  assert (Hdiv : 0 < lifetimeQiDivisor defaultBAL) by (simpl; lra).
  assert (Hacts : Forall forwardInTime veteranRun)
    by (repeat constructor; cbn; lra).
  assert (Hk0 : 0 <= 20) by lra.
  exact (karma_never_decreases defaultBAL veteranRun w_veteran 20
           Hmin Hdiv defaultBAL_OK Hacts eq_refl Hk0 w_veteran_OK).
Defined.

(** ** The shop *)

Lemma skillCost_Some (BAL : Balance) (s : State) (id : string) (sk : SkillBal) :
  getSkill BAL id = Some sk ->
  skillCost BAL s id = Some (Fin (priceAt sk (default 0%Z (skills s !! id)))).
Proof. intros H. unfold skillCost. rewrite H. reflexivity. Qed.

Lemma powerRZ_nonneg (x : R) (n : Z) : 0 <= x -> 0 <= powerRZ x n.
Proof.
  intros [Hx | <-].
  - now apply powerRZ_le.
  - destruct n as [| p | p]; simpl.
    + lra.
    + apply pow_le. lra.
    + rewrite pow_i by apply Pos2Nat.is_pos. rewrite Rinv_0. lra.
Qed.

Lemma powerRZ_mono (x : R) (n m : Z) :
  1 <= x -> (0 <= n <= m)%Z -> powerRZ x n <= powerRZ x m.
Proof.
  intros Hx [Hn Hm].
  rewrite <- (Z2Nat.id n), <- (Z2Nat.id m) by lia.
  rewrite <- !pow_powerRZ. apply Rle_pow; [exact Hx | lia].
Qed.

Lemma priceAt_nonneg (sk : SkillBal) (lvl : Z) :
  0 <= cost sk -> 0 <= costScale sk -> 0 <= priceAt sk lvl.
Proof.
  intros Hc Hs. unfold priceAt. apply IZR_le.
  apply (Zfloor_lub 0). apply Rmult_le_pos; [exact Hc | now apply powerRZ_nonneg].
Qed.

Lemma priceAt_mono (sk : SkillBal) (l1 l2 : Z) :
  0 <= cost sk -> 1 <= costScale sk -> (0 <= l1 <= l2)%Z ->
  priceAt sk l1 <= priceAt sk l2.
Proof.
  intros Hc Hs Hl. unfold priceAt. apply IZR_le, Zfloor_le.
  apply Rmult_le_compat_l; [exact Hc | now apply powerRZ_mono].
Qed.

Lemma nlt_Fin_true (a b : R) : a < b -> nlt (Fin a) (Fin b) = true.
Proof. apply nlt_Fin. Qed.

Lemma nlt_Fin_not (a b : R) : b <= a -> nlt (Fin a) (Fin b) = false.
Proof. apply nlt_Fin_false. Qed.

Lemma buySkill_unknown (BAL : Balance) (id : string) (w : World) :
  getSkill BAL id = None -> buySkill BAL id w = w.
Proof. intros H. unfold buySkill, skillCost. now rewrite H. Qed.

Lemma buySkill_refused
  (BAL : Balance) (id : string) (w : World) (sk : SkillBal) (q : R) :
  getSkill BAL id = Some sk -> qi (state w) = Fin q ->
  q < priceAt sk (default 0%Z (skills (state w) !! id)) ->
  buySkill BAL id w = w.
Proof.
  intros Hsk Hq Hlt. unfold buySkill.
  rewrite (skillCost_Some BAL _ id sk Hsk), Hq, nlt_Fin_true by exact Hlt.
  reflexivity.
Qed.

Lemma buySkill_bought
  (BAL : Balance) (id : string) (w : World) (sk : SkillBal) (q : R) :
  getSkill BAL id = Some sk -> qi (state w) = Fin q ->
  priceAt sk (default 0%Z (skills (state w) !! id)) <= q ->
  buySkill BAL id w
  = set_state
      (state w
       |> set_qi (Fin (q - priceAt sk (default 0%Z (skills (state w) !! id))))
       |> set_skills
            (<[id := (default 0 (skills (state w) !! id) + 1)%Z]>
               (skills (state w))))
      w.
Proof.
  intros Hsk Hq Hle. unfold buySkill.
  rewrite (skillCost_Some BAL _ id sk Hsk), Hq, nlt_Fin_not by exact Hle.
  unfold onS. rewrite Hq. reflexivity.
Qed.

(** X1. Each level of a skill costs at least as much as the level before:
    with a cost that is not negative and a cost scale of at least 1, the
    price [skillCost] asks is a real number that is not negative and
    does not decrease as the level grows. *)
Theorem skillCost_nondecreasing
  (BAL : Balance) (s1 s2 : State) (id : string) (sk : SkillBal) :
  getSkill BAL id = Some sk -> 0 <= cost sk -> 1 <= costScale sk ->
  (0 <= default 0 (skills s1 !! id) <= default 0 (skills s2 !! id))%Z ->
  exists c1 c2 : R,
    skillCost BAL s1 id = Some (Fin c1)
    /\ skillCost BAL s2 id = Some (Fin c2)
    /\ 0 <= c1 <= c2.
Proof.
  intros Hsk Hc Hs Hl.
  exists (priceAt sk (default 0%Z (skills s1 !! id))),
         (priceAt sk (default 0%Z (skills s2 !! id))).
  rewrite !(skillCost_Some BAL _ id sk Hsk).
  repeat split.
  - apply priceAt_nonneg; lra.
  - now apply priceAt_mono.
Qed.

(** X2. A purchase never overdraws.  For a skill of the catalog with a
    cost that is not negative and a positive cost scale, the price is a
    real number [c >= 0]; with less Qi than [c] the click changes
    nothing; otherwise exactly [c] is deducted, the Qi stays at least 0,
    the level of that skill goes up by one and no other level changes.
    An id outside the catalog changes nothing. *)
Theorem buySkill_spends_price (BAL : Balance) (id : string) (w : World) :
  (getSkill BAL id = None -> buySkill BAL id w = w)
  /\ (forall (sk : SkillBal) (q : R),
        getSkill BAL id = Some sk -> 0 <= cost sk -> 0 < costScale sk ->
        qi (state w) = Fin q ->
        exists c : R,
          skillCost BAL (state w) id = Some (Fin c) /\ 0 <= c
          /\ (q < c -> buySkill BAL id w = w)
          /\ (c <= q ->
              qi (state (buySkill BAL id w)) = Fin (q - c) /\ 0 <= q - c
              /\ skills (state (buySkill BAL id w)) !! id
                 = Some (default 0 (skills (state w) !! id) + 1)%Z
              /\ forall id' : string, id' <> id ->
                   skills (state (buySkill BAL id w)) !! id'
                   = skills (state w) !! id')).
Proof.
  split; [apply buySkill_unknown |].
  intros sk q Hsk Hc Hs Hq.
  exists (priceAt sk (default 0%Z (skills (state w) !! id))).
  split; [now apply skillCost_Some |].
  split; [apply priceAt_nonneg; lra |].
  split; [now apply (buySkill_refused BAL id w sk q) |].
  intros Hle. rewrite (buySkill_bought BAL id w sk q Hsk Hq Hle).
  cbn [state set_state qi set_qi set_skills skills].
  repeat split.
  - lra.
  - apply lookup_insert_eq.
  - intros id' Hne. now apply lookup_insert_ne.
Qed.

Lemma nmul_Fin_inv (x y : num) (r : R) :
  nmul x y = Fin r -> exists a b : R, x = Fin a /\ y = Fin b /\ r = a * b.
Proof.
  destruct x as [a | | |], y as [b | | |]; cbn; unfold infOf, sgn;
    intros H;
    repeat match type of H with
           | context [if ?c then _ else _] => destruct c
           end;
    try discriminate H.
  injection H as <-. now exists a, b.
Qed.

Lemma nadd_Fin_inv (x y : num) (r : R) :
  nadd x y = Fin r -> exists a b : R, x = Fin a /\ y = Fin b /\ r = a + b.
Proof.
  destruct x as [a | | |], y as [b | | |]; cbn; intros H; try discriminate H.
  injection H as <-. now exists a, b.
Qed.

Lemma skillLevel_Fin (s : State) (id : string) :
  skillLevel s id = Fin (IZR (default 0%Z (skills s !! id))).
Proof. reflexivity. Qed.

(** The live production as a function of the two skill levels it reads. *)
Lemma production_levels (a m K C b1 b2 : R) (l1 l2 l1' l2' : Z) :
  0 <= a -> 0 <= m -> 0 <= K -> 0 <= C -> 0 <= b1 -> 0 <= b2 ->
  (0 <= l1 <= l1')%Z -> (0 <= l2 <= l2')%Z ->
  (a + IZR l1 * b1) * (1 + IZR l2 * b2) * m * K * C
  <= (a + IZR l1' * b1) * (1 + IZR l2' * b2) * m * K * C.
Proof.
  intros Ha Hm HK HC Hb1 Hb2 [H1 H1'] [H2 H2'].
  apply IZR_le in H1, H1', H2, H2'.
  assert (0 <= IZR l1 * b1 <= IZR l1' * b1) by (split; nra).
  assert (0 <= IZR l2 * b2 <= IZR l2' * b2) by (split; nra).
  repeat apply Rmult_le_compat_r; try assumption.
  apply Rmult_le_compat; nra.
Qed.

Lemma karmaQiMult_Fin_nonneg (k : R) :
  0 <= k -> exists K : R, karmaQiMult (Fin k) = Fin K /\ 0 <= K.
Proof.
  intros Hk. pose proof (karmaQiMult_notNegative k Hk) as H.
  rewrite karmaQiMult_softCap, softCap_Fin in *. eexists. split; [reflexivity | exact H].
Qed.

Lemma cyclePowerMult_Fin_nonneg (r : Z) :
  exists C : R, cyclePowerMult r = Fin C /\ 0 <= C.
Proof.
  pose proof (cyclePowerMult_notNegative r) as H.
  unfold cyclePowerMult in *. eexists. split; [reflexivity | exact H].
Qed.

Lemma totalQPS_Fin_inv (BAL : Balance) (s : State) (p : R) :
  totalQPS BAL s = Fin p ->
  exists a m : R, qpsBase s = Fin a /\ qpsMult s = Fin m.
Proof.
  unfold totalQPS. intros H.
  apply nmul_Fin_inv in H as (? & ? & H & _ & _).
  apply nmul_Fin_inv in H as (? & ? & H & _ & _).
  apply nmul_Fin_inv in H as (? & m & H & Hm & _).
  apply nmul_Fin_inv in H as (? & ? & H & _ & _).
  apply nadd_Fin_inv in H as (a & ? & Ha & _ & _).
  now exists a, m.
Qed.

Lemma totalQPS_levels (BAL : Balance) (s1 s2 : State) (k p : R) :
  balanceOK BAL -> productionOK s1 ->
  karma (reinc s1) = Fin k -> 0 <= k ->
  qpsBase s2 = qpsBase s1 -> qpsMult s2 = qpsMult s1 ->
  reinc s2 = reinc s1 -> realmIndex s2 = realmIndex s1 ->
  (forall id : string,
     (default 0 (skills s1 !! id) <= default 0 (skills s2 !! id))%Z) ->
  totalQPS BAL s1 = Fin p ->
  exists p' : R, totalQPS BAL s2 = Fin p' /\ p <= p'.
Proof.
  intros (Hb & _ & Hl & _) Hprod Hk Hk0 Eb Em Er Ei Hlev Hp.
  destruct (totalQPS_Fin_inv BAL s1 p Hp) as (a & m & Ea & Emu).
  pose proof (fun id => skillLevel_notNegative s1 id Hprod) as Hpos.
  destruct Hprod as (_ & Hqps & _ & Hmult & _).
  unfold totalQPS in *. rewrite Eb, Em, Er, Ei, Hk in *.
  destruct (karmaQiMult_Fin_nonneg k Hk0) as (K & EK & HK).
  destruct (cyclePowerMult_Fin_nonneg (realmIndex s1)) as (C & EC & HC).
  rewrite EK, EC, !skillLevel_Fin in *.
  change (baseEff BAL "breath_control") with (Fin (base (breath_control BAL))) in *.
  change (baseEff BAL "lotus_meditation")
    with (Fin (base (lotus_meditation BAL))) in *.
  rewrite Ea, Emu in *.
  cbn in Hp. injection Hp as <-. cbn in Hqps, Hmult.
  pose proof (Hpos "breath_control"%string) as H1.
  pose proof (Hpos "lotus_meditation"%string) as H2.
  rewrite skillLevel_Fin in H1, H2. cbn in H1, H2.
  apply le_IZR in H1, H2.
  eexists. split; [cbn; reflexivity |].
  apply production_levels; try assumption;
    (split; [assumption | apply Hlev]).
Qed.

Lemma totalQPC_Fin_inv (BAL : Balance) (s : State) (p : R) :
  totalQPC BAL s = Fin p ->
  exists a m : R, qpcBase s = Fin a /\ qpcMult s = Fin m.
Proof.
  unfold totalQPC. intros H.
  apply nmul_Fin_inv in H as (? & ? & H & _ & _).
  apply nmul_Fin_inv in H as (? & ? & H & _ & _).
  apply nmul_Fin_inv in H as (? & m & H & Hm & _).
  apply nmul_Fin_inv in H as (? & ? & H & _ & _).
  apply nadd_Fin_inv in H as (a & ? & Ha & _ & _).
  now exists a, m.
Qed.

Lemma totalQPC_levels (BAL : Balance) (s1 s2 : State) (k p : R) :
  balanceOK BAL -> productionOK s1 ->
  karma (reinc s1) = Fin k -> 0 <= k ->
  qpcBase s2 = qpcBase s1 -> qpcMult s2 = qpcMult s1 ->
  reinc s2 = reinc s1 -> realmIndex s2 = realmIndex s1 ->
  (forall id : string,
     (default 0 (skills s1 !! id) <= default 0 (skills s2 !! id))%Z) ->
  totalQPC BAL s1 = Fin p ->
  exists p' : R, totalQPC BAL s2 = Fin p' /\ p <= p'.
Proof.
  intros (_ & Hb & _ & Hl & _) Hprod Hk Hk0 Eb Em Er Ei Hlev Hp.
  destruct (totalQPC_Fin_inv BAL s1 p Hp) as (a & m & Ea & Emu).
  pose proof (fun id => skillLevel_notNegative s1 id Hprod) as Hpos.
  destruct Hprod as (Hqpc & _ & Hmult & _).
  unfold totalQPC in *. rewrite Eb, Em, Er, Ei, Hk in *.
  destruct (karmaQiMult_Fin_nonneg k Hk0) as (K & EK & HK).
  destruct (cyclePowerMult_Fin_nonneg (realmIndex s1)) as (C & EC & HC).
  rewrite EK, EC, !skillLevel_Fin in *.
  change (baseEff BAL "meridian_flow") with (Fin (base (meridian_flow BAL))) in *.
  change (baseEff BAL "dantian_temps") with (Fin (base (dantian_temps BAL))) in *.
  rewrite Ea, Emu in *.
  cbn in Hp. injection Hp as <-. cbn in Hqpc, Hmult.
  pose proof (Hpos "meridian_flow"%string) as H1.
  pose proof (Hpos "dantian_temps"%string) as H2.
  rewrite skillLevel_Fin in H1, H2. cbn in H1, H2.
  apply le_IZR in H1, H2.
  eexists. split; [cbn; reflexivity |].
  apply production_levels; try assumption;
    (split; [assumption | apply Hlev]).
Qed.

(** What a click on a shop button leaves alone, and that no level
    drops. *)
Lemma buySkill_frame (BAL : Balance) (id : string) (w : World) :
  let s := state w in
  let s' := state (buySkill BAL id w) in
  qpcBase s' = qpcBase s /\ qpsBase s' = qpsBase s
  /\ qpcMult s' = qpcMult s /\ qpsMult s' = qpsMult s
  /\ reinc s' = reinc s /\ realmIndex s' = realmIndex s
  /\ timeSpeed s' = timeSpeed s
  /\ forall id0 : string,
       (default 0 (skills s !! id0) <= default 0 (skills s' !! id0))%Z.
Proof.
  cbn zeta. unfold buySkill.
  destruct (skillCost BAL (state w) id) as [c |]; [| repeat split; lia].
  destruct (nlt (qi (state w)) c); [repeat split; lia |].
  cbn [onS state set_state set_qi set_skills qpcBase qpsBase qpcMult qpsMult
         reinc realmIndex timeSpeed skills].
  repeat split. intros id0.
  destruct (decide (id0 = id)) as [-> | Hne].
  - rewrite lookup_insert_eq. cbn. lia.
  - rewrite lookup_insert_ne by congruence. lia.
Qed.

(** X3. A purchase never lowers the production: when Qi per second and
    Qi per click are real numbers before a click on a shop button, they
    are real numbers after it that are at least as large. *)
Theorem buySkill_never_lowers_production
  (BAL : Balance) (id : string) (w : World) (k p c : R) :
  balanceOK BAL -> productionOK (state w) ->
  karma (reinc (state w)) = Fin k -> 0 <= k ->
  totalQPS BAL (state w) = Fin p -> totalQPC BAL (state w) = Fin c ->
  exists p' c' : R,
    totalQPS BAL (state (buySkill BAL id w)) = Fin p'
    /\ totalQPC BAL (state (buySkill BAL id w)) = Fin c'
    /\ p <= p' /\ c <= c'.
Proof.
  intros Hbal Hprod Hk Hk0 Hp Hc.
  destruct (buySkill_frame BAL id w) as (E1 & E2 & E3 & E4 & E5 & E6 & _ & Hlev).
  destruct (totalQPS_levels BAL _ _ k p Hbal Hprod Hk Hk0 E2 E4 E5 E6 Hlev Hp)
    as (p' & Hp' & Hle).
  destruct (totalQPC_levels BAL _ _ k c Hbal Hprod Hk Hk0 E1 E3 E5 E6 Hlev Hc)
    as (c' & Hc' & Hle').
  now exists p', c'.
Qed.

(** ** Time speeds *)

Lemma fold_left_ext {A B : Type} (f g : A -> B -> A) (l : list B) (a : A) :
  (forall x y, f x y = g x y) -> fold_left f l a = fold_left g l a.
Proof.
  intros H. revert a. induction l as [| b l IH]; intros a; cbn; [reflexivity |].
  now rewrite H, IH.
Qed.

Lemma includesNum_app (l1 l2 : list num) (x : num) :
  includesNum (l1 ++ l2) x = includesNum l1 x || includesNum l2 x.
Proof. apply existsb_app. Qed.

Lemma neq_refl (x : num) : x <> NaN -> neq x x = true.
Proof.
  destruct x as [r | | |]; cbn; intros H; try reflexivity; [| congruence].
  destruct (Req_dec_T r r); [reflexivity | congruence].
Qed.

Lemma neq_eq (x y : num) : neq x y = true -> x = y.
Proof.
  destruct x as [a | | |], y as [b | | |]; cbn; intros H;
    try discriminate H; try reflexivity.
  destruct (Req_dec_T a b); [now subst | discriminate H].
Qed.

Lemma includesNum_In (l : list num) (x : num) :
  includesNum l x = true -> In x l.
Proof.
  unfold includesNum. rewrite existsb_exists. intros (y & Hy & E).
  apply neq_eq in E. now subst.
Qed.

Lemma In_includesNum (l : list num) (x : num) :
  x <> NaN -> In x l -> includesNum l x = true.
Proof.
  intros Hx Hin. unfold includesNum. rewrite existsb_exists.
  exists x. split; [exact Hin | now apply neq_refl].
Qed.

Section PushWhen.

Context {A : Type} (want : A -> bool) (val : A -> num).

Lemma pushWhen_prefix (xs : list A) (acc : list num) :
  exists ext, fold_left (pushWhen want val) xs acc = acc ++ ext.
Proof.
  revert acc. induction xs as [| a xs IH]; intros acc; cbn.
  - exists []. now rewrite app_nil_r.
  - unfold pushWhen at 2.
    destruct (want a && negb (includesNum acc (val a))).
    + destruct (IH (acc ++ [val a])) as (ext & ->).
      exists (val a :: ext). now rewrite <- app_assoc.
    + apply IH.
Qed.

Lemma pushWhen_keeps (xs : list A) (acc : list num) (x : num) :
  includesNum acc x = true ->
  includesNum (fold_left (pushWhen want val) xs acc) x = true.
Proof.
  intros H. destruct (pushWhen_prefix xs acc) as (ext & ->).
  rewrite includesNum_app, H. reflexivity.
Qed.

Lemma pushWhen_complete (xs : list A) (acc : list num) (a : A) :
  val a <> NaN -> In a xs -> want a = true ->
  includesNum (fold_left (pushWhen want val) xs acc) (val a) = true.
Proof.
  intros val_number.
  revert acc. induction xs as [| b xs IH]; intros acc Hin Hw; [destruct Hin |].
  cbn. destruct Hin as [-> | Hin]; [| now apply IH].
  apply pushWhen_keeps. unfold pushWhen. rewrite Hw.
  destruct (includesNum acc (val a)) eqn:E; cbn [andb negb]; [exact E |].
  rewrite includesNum_app. unfold includesNum at 2. cbn [existsb].
  rewrite neq_refl by exact val_number. now rewrite orb_true_r.
Qed.

Lemma pushWhen_sound (xs : list A) (acc : list num) (y : num) :
  In y (fold_left (pushWhen want val) xs acc) ->
  In y acc \/ exists a, In a xs /\ want a = true /\ y = val a.
Proof.
  revert acc. induction xs as [| b xs IH]; intros acc H; cbn in H; [now left |].
  apply IH in H. destruct H as [H | (a & Ha & Hw & ->)].
  - unfold pushWhen in H.
    destruct (want b) eqn:Hw; cbn in H; [| now left].
    destruct (includesNum acc (val b)); cbn in H; [now left |].
    apply in_app_or in H. destruct H as [H | [<- | []]]; [now left |].
    right. exists b. repeat split; [now left | exact Hw].
  - right. exists a. repeat split; [now right | exact Hw].
Qed.

Lemma pushWhen_stable (xs : list A) (acc : list num) :
  (forall a, In a xs -> want a = true -> includesNum acc (val a) = true) ->
  fold_left (pushWhen want val) xs acc = acc.
Proof.
  induction xs as [| b xs IH]; intros H; cbn; [reflexivity |].
  assert (E : pushWhen want val acc b = acc).
  { unfold pushWhen. destruct (want b) eqn:Hw; cbn; [| reflexivity].
    rewrite (H b (or_introl eq_refl) Hw). reflexivity. }
  rewrite E. apply IH. intros a Ha. apply H. now right.
Qed.

Lemma pushWhen_In (xs : list A) (acc : list num) (x : num) :
  In x acc -> In x (fold_left (pushWhen want val) xs acc).
Proof.
  intros H. destruct (pushWhen_prefix xs acc) as (ext & ->).
  apply in_or_app. now left.
Qed.

End PushWhen.

Lemma pushIfMissing_pushWhen (acc : list num) (x : num) :
  pushIfMissing x acc = pushWhen (fun _ => true) (fun y => y) acc x.
Proof.
  unfold pushIfMissing, pushWhen. cbn. now destruct (includesNum acc x).
Qed.

Lemma In_combine_seq {A : Type} (l : list A) (i : nat) (x : A) :
  In (i, x) (combine (seq 0 (length l)) l) <-> nth_error l i = Some x.
Proof.
  assert (G : forall k, In (i, x) (combine (seq k (length l)) l)
                        <-> (k <= i)%nat /\ nth_error l (i - k) = Some x).
  { induction l as [| a l IH]; intros k; cbn.
    - split; [intros [] | intros [_ H]; now destruct (i - k)%nat].
    - rewrite IH. split.
      + intros [E | [Hk H]].
        * injection E as -> ->. split; [lia |]. now rewrite Nat.sub_diag.
        * split; [lia |]. replace (i - k)%nat with (S (i - S k)) by lia. exact H.
      + intros [Hk H]. destruct (i - k)%nat as [| n] eqn:E.
        * left. cbn in H. injection H as ->. f_equal. lia.
        * right. split; [lia |]. cbn in H. now replace (i - S k)%nat with n by lia. }
  rewrite G. rewrite Nat.sub_0_r. split; [now intros [_ H] | intros H; split; [lia | exact H]].
Qed.

(** [checkAndUnlockSpeeds] as two passes of [pushWhen]. *)
Lemma checkAndUnlockSpeeds_pushWhen (BAL : Balance) (s : State) :
  checkAndUnlockSpeeds BAL s
  = set_meta
      (mkMeta
         (fold_left (pushWhen (speedWanted BAL (realmIndex s)) (fun p => Fin (snd p)))
            (combine (seq 0 (length (speeds BAL))) (speeds BAL))
            (fold_left (pushWhen (fun _ => true) (fun y => y))
               baseSpeedsAlwaysAvailable (unlockedSpeeds (meta s)))))
      s.
Proof.
  unfold checkAndUnlockSpeeds. do 2 f_equal.
  rewrite (fold_left_ext (fun acc speed => pushIfMissing speed acc)
             (pushWhen (fun _ => true) (fun y => y)))
    by (intros; apply pushIfMissing_pushWhen).
  apply fold_left_ext. intros acc [i v].
  unfold pushWhen, speedWanted. cbn [fst snd].
  destruct (includesNum baseSpeedsAlwaysAvailable (Fin v)); cbn; reflexivity.
Qed.

Lemma base_numbers (a : num) : In a baseSpeedsAlwaysAvailable -> a <> NaN.
Proof. intros [<- | [<- | [<- | []]]]; discriminate. Qed.

Lemma checkAndUnlockSpeeds_list (BAL : Balance) (s : State) :
  unlockedSpeeds (meta (checkAndUnlockSpeeds BAL s))
  = fold_left (pushWhen (speedWanted BAL (realmIndex s)) (fun p => Fin (snd p)))
      (combine (seq 0 (length (speeds BAL))) (speeds BAL))
      (fold_left (pushWhen (fun _ => true) (fun y => y))
         baseSpeedsAlwaysAvailable (unlockedSpeeds (meta s))).
Proof. now rewrite checkAndUnlockSpeeds_pushWhen. Qed.

Lemma checkAndUnlockSpeeds_base (BAL : Balance) (s : State) (b : num) :
  In b baseSpeedsAlwaysAvailable ->
  includesNum (unlockedSpeeds (meta (checkAndUnlockSpeeds BAL s))) b = true.
Proof.
  intros Hb. rewrite checkAndUnlockSpeeds_list.
  apply pushWhen_keeps.
  apply (pushWhen_complete (fun _ => true) (fun y => y));
    [now apply base_numbers | exact Hb | reflexivity].
Qed.

(** X4. Unlocking speeds only ever appends: the speeds unlocked before
    stay, in their order; the base speeds 0, 0.5 and 1 are unlocked
    afterwards whatever the list held; and a second call changes
    nothing. *)
Theorem checkAndUnlockSpeeds_grows_idempotent (BAL : Balance) (s : State) :
  (exists ext : list num,
     unlockedSpeeds (meta (checkAndUnlockSpeeds BAL s))
     = unlockedSpeeds (meta s) ++ ext)
  /\ (forall b : num,
        In b baseSpeedsAlwaysAvailable ->
        In b (unlockedSpeeds (meta (checkAndUnlockSpeeds BAL s))))
  /\ checkAndUnlockSpeeds BAL (checkAndUnlockSpeeds BAL s)
     = checkAndUnlockSpeeds BAL s.
Proof.
  split; [| split].
  - rewrite checkAndUnlockSpeeds_list.
    match goal with
    | |- context [fold_left ?f ?xs (fold_left ?g ?ys ?acc)] =>
        destruct (pushWhen_prefix (fun _ => true) (fun y => y) ys acc)
          as (e1 & E1);
        rewrite E1;
        destruct (pushWhen_prefix (speedWanted BAL (realmIndex s))
                    (fun p => Fin (snd p)) xs (acc ++ e1)) as (e2 & E2);
        rewrite E2
    end.
    exists (e1 ++ e2). now rewrite app_assoc.
  - intros b Hb. now apply includesNum_In, checkAndUnlockSpeeds_base.
  - rewrite (checkAndUnlockSpeeds_pushWhen BAL (checkAndUnlockSpeeds BAL s)).
    rewrite checkAndUnlockSpeeds_list.
    replace (realmIndex (checkAndUnlockSpeeds BAL s)) with (realmIndex s)
      by now rewrite checkAndUnlockSpeeds_pushWhen.
    set (r := fold_left _ _ (fold_left _ _ (unlockedSpeeds (meta s)))).
    assert (E1 : fold_left (pushWhen (fun _ => true) (fun y => y))
                   baseSpeedsAlwaysAvailable r = r).
    { apply pushWhen_stable. intros b Hb _.
      pose proof (checkAndUnlockSpeeds_base BAL s b Hb) as H.
      now rewrite checkAndUnlockSpeeds_list in H. }
    rewrite E1.
    assert (E2 : fold_left (pushWhen (speedWanted BAL (realmIndex s))
                              (fun p => Fin (snd p)))
                   (combine (seq 0 (length (speeds BAL))) (speeds BAL)) r = r).
    { apply pushWhen_stable. intros p Hp Hw.
      unfold r. now apply (pushWhen_complete _ (fun p => Fin (snd p))). }
    rewrite E2. rewrite (checkAndUnlockSpeeds_pushWhen BAL s).
    unfold set_meta. cbn. reflexivity.
Qed.

(** Membership in the list [checkAndUnlockSpeeds] leaves. *)
Lemma checkAndUnlockSpeeds_In
  (BAL : Balance) (s : State) (y : num) :
  In y (unlockedSpeeds (meta (checkAndUnlockSpeeds BAL s)))
  <-> In y (unlockedSpeeds (meta s))
      \/ In y baseSpeedsAlwaysAvailable
      \/ exists (i : nat) (v : R),
           nth_error (speeds BAL) i = Some v /\ y = Fin v
           /\ (default 0 (nth_error (unlockRealmIndex BAL) i) <= realmIndex s)%Z.
Proof.
  rewrite checkAndUnlockSpeeds_list. split.
  - intros H. apply pushWhen_sound in H.
    destruct H as [H | ([i v] & Hin & Hw & ->)].
    + apply pushWhen_sound in H. destruct H as [H | (a & Ha & _ & ->)]; auto.
    + right. right. exists i, v. apply In_combine_seq in Hin.
      unfold speedWanted in Hw. cbn [fst snd] in Hw.
      apply andb_prop in Hw. destruct Hw as [_ Hw]. apply Z.leb_le in Hw.
      auto.
  - intros [H | [H | (i & v & Hn & -> & Hr)]].
    + now do 2 apply pushWhen_In.
    + apply pushWhen_In. apply includesNum_In.
      apply (pushWhen_complete (fun _ => true) (fun y => y));
        [now apply base_numbers | exact H | reflexivity].
    + destruct (includesNum baseSpeedsAlwaysAvailable (Fin v)) eqn:Eb.
      * apply pushWhen_In. apply includesNum_In.
        apply (pushWhen_complete (fun _ => true) (fun y => y));
          [discriminate | now apply includesNum_In | reflexivity].
      * apply includesNum_In.
        apply (pushWhen_complete _ (fun p => Fin (snd p)) _ _ (i, v));
          [discriminate | now apply In_combine_seq |].
        unfold speedWanted. cbn [fst snd]. rewrite Eb. cbn.
        now apply Z.leb_le.
Qed.

(** X5. A speed is unlocked after the call exactly when it was unlocked
    before, is one of the base speeds, or stands in the speed table at
    an index whose required realm the player has reached: no speed is
    unlocked ahead of its realm and none that is due is missed. *)
Theorem checkAndUnlockSpeeds_unlocks_exactly
  (BAL : Balance) (s : State) (y : num) :
  In y (unlockedSpeeds (meta (checkAndUnlockSpeeds BAL s)))
  <-> In y (unlockedSpeeds (meta s))
      \/ In y baseSpeedsAlwaysAvailable
      \/ exists (i : nat) (v : R),
           nth_error (speeds BAL) i = Some v /\ y = Fin v
           /\ (default 0 (nth_error (unlockRealmIndex BAL) i) <= realmIndex s)%Z.
Proof. exact (checkAndUnlockSpeeds_In BAL s y). Qed.

Lemma sameValueZero_refl (x : num) : sameValueZero x x = true.
Proof.
  destruct x as [r | | |]; cbn; try reflexivity.
  destruct (Req_dec_T r r); [reflexivity | congruence].
Qed.

Lemma sameValueZero_eq (x y : num) : sameValueZero x y = true -> x = y.
Proof.
  destruct x as [a | | |], y as [b | | |]; cbn; intros H;
    try discriminate H; try reflexivity.
  destruct (Req_dec_T a b); [now subst | discriminate H].
Qed.

Lemma includes_In (l : list num) (x : num) : includes l x = true <-> In x l.
Proof.
  unfold includes. rewrite existsb_exists. split.
  - intros (y & Hy & E). apply sameValueZero_eq in E. now subst.
  - intros H. exists x. split; [exact H | apply sameValueZero_refl].
Qed.

Lemma In_uniq_acc (l acc : list num) (x : num) :
  In x (fold_left (fun acc x => if includes acc x then acc else acc ++ [x]) l acc)
  <-> In x acc \/ In x l.
Proof.
  revert acc. induction l as [| y l IH]; intros acc; cbn; [tauto |].
  rewrite IH. destruct (includes acc y) eqn:E.
  - apply includes_In in E. split; [tauto |].
    intros [H | [<- | H]]; tauto.
  - rewrite in_app_iff. cbn. tauto.
Qed.

Lemma In_uniq (l : list num) (x : num) : In x (uniq l) <-> In x l.
Proof. unfold uniq. rewrite In_uniq_acc. cbn. tauto. Qed.

Lemma In_insertSorted (y : num) (l : list num) (x : num) :
  In x (insertSorted y l) <-> x = y \/ In x l.
Proof.
  induction l as [| z l IH]; cbn; [intuition congruence |].
  destruct (nlt (nsub y z) (Fin 0)); cbn; [intuition congruence |].
  rewrite IH. intuition congruence.
Qed.

Lemma In_sortNums_acc (l acc : list num) (x : num) :
  In x (fold_left (fun acc x => insertSorted x acc) l acc) <-> In x acc \/ In x l.
Proof.
  revert acc. induction l as [| y l IH]; intros acc; cbn; [tauto |].
  rewrite IH, In_insertSorted. intuition congruence.
Qed.

Lemma In_sortNums (l : list num) (x : num) : In x (sortNums l) <-> In x l.
Proof. unfold sortNums. rewrite In_sortNums_acc. cbn. tauto. Qed.

(** A speed is available when it is a base speed or unlocked. *)
Lemma In_getAvailableSpeeds (s : State) (x : num) :
  In x (getAvailableSpeeds s)
  <-> In x baseSpeedsAlwaysAvailable \/ In x (unlockedSpeeds (meta s)).
Proof.
  unfold getAvailableSpeeds. rewrite In_sortNums, In_uniq. apply in_app_iff.
Qed.

Lemma neq_0 (x : num) : neq x (Fin 0) = true -> x = Fin 0.
Proof. apply neq_eq. Qed.

(** The outcome of a click on a speed button. *)
Lemma setTimeSpeed_facts (speed : num) (s : State) :
  let s' := setTimeSpeed speed s in
  In (getTimeSpeed s') (getAvailableSpeeds s')
  /\ getTimeSpeed s' = ts_current (timeSpeed s')
  /\ (In speed (getAvailableSpeeds s) -> getTimeSpeed s' = speed)
  /\ (~ In speed (getAvailableSpeeds s) -> getTimeSpeed s' = Fin 1)
  /\ (paused (timeSpeed s') = true <-> getTimeSpeed s' = Fin 0)
  /\ s' = set_timeSpeed (timeSpeed s') s.
Proof.
  cbn zeta. unfold setTimeSpeed.
  assert (H0 : In (Fin 0) (getAvailableSpeeds s))
    by (apply In_getAvailableSpeeds; left; cbn; auto).
  assert (H1 : In (Fin 1) (getAvailableSpeeds s))
    by (apply In_getAvailableSpeeds; left; cbn; auto).
  assert (N1 : neq (Fin 1) (Fin 0) = false).
  { cbn. destruct (Req_dec_T 1 0); [lra | reflexivity]. }
  destruct (includes (getAvailableSpeeds s) speed) eqn:Ein; cbn [negb].
  - apply includes_In in Ein.
    destruct (neq speed (Fin 0)) eqn:E0.
    + apply neq_0 in E0. subst speed.
      unfold getTimeSpeed. cbn. repeat split; auto; try tauto.
    + unfold getTimeSpeed. cbn. repeat split; auto; try tauto; try discriminate.
      intros ->. cbn in E0. destruct (Req_dec_T 0 0); [discriminate | lra].
  - assert (Hnot : ~ In speed (getAvailableSpeeds s)).
    { intros H. apply includes_In in H. congruence. }
    rewrite N1. unfold getTimeSpeed. cbn.
    repeat split; auto; try tauto; try discriminate.
    intros E. injection E as E. lra.
Qed.

(** X6. A speed button can only select an available speed.  After
    [setTimeSpeed(speed)] the speed in force is available; it is the
    requested one when that was available and 1 otherwise; the game is
    paused exactly when the speed in force is 0; and nothing but
    [S.timeSpeed] changed. *)
Theorem setTimeSpeed_selects_available (speed : num) (s : State) :
  let s' := setTimeSpeed speed s in
  In (getTimeSpeed s') (getAvailableSpeeds s')
  /\ getTimeSpeed s' = ts_current (timeSpeed s')
  /\ (In speed (getAvailableSpeeds s) -> getTimeSpeed s' = speed)
  /\ (~ In speed (getAvailableSpeeds s) -> getTimeSpeed s' = Fin 1)
  /\ (paused (timeSpeed s') = true <-> getTimeSpeed s' = Fin 0)
  /\ s' = set_timeSpeed (timeSpeed s') s.
Proof. exact (setTimeSpeed_facts speed s). Qed.

Lemma NoDup_snoc (l : list num) (y : num) :
  List.NoDup l -> ~ In y l -> List.NoDup (l ++ [y]).
Proof.
  induction l as [| z l IH]; intros Hn Hy; cbn.
  - constructor; [intros [] | constructor].
  - inversion Hn as [| ? ? Hz Hl]; subst. constructor.
    + rewrite in_app_iff. cbn. intros [H | [-> | []]];
        [contradiction | apply Hy; now left].
    + apply IH; [exact Hl | intros H; apply Hy; now right].
Qed.

Lemma NoDup_uniq_acc (l acc : list num) :
  List.NoDup acc ->
  List.NoDup
    (fold_left (fun acc x => if includes acc x then acc else acc ++ [x]) l acc).
Proof.
  revert acc. induction l as [| y l IH]; intros acc H; cbn; [exact H |].
  apply IH. destruct (includes acc y) eqn:E; [exact H |].
  apply NoDup_snoc; [exact H |]. intros Hy. apply includes_In in Hy. congruence.
Qed.

Lemma NoDup_uniq (l : list num) : List.NoDup (uniq l).
Proof. apply NoDup_uniq_acc. constructor. Qed.

Lemma nlt_trans (x y z : num) :
  nlt x y = true -> nlt y z = true -> nlt x z = true.
Proof.
  destruct x as [a | | |], y as [b | | |], z as [c | | |]; cbn;
    intros H1 H2; try discriminate; try reflexivity.
  destruct (Rlt_dec a b), (Rlt_dec b c); try discriminate.
  destruct (Rlt_dec a c); [reflexivity | lra].
Qed.

Lemma insertSorted_sorted (x : num) (l : list num) :
  isFinite x = true -> Forall (fun y => isFinite y = true) l ->
  ~ In x l ->
  StronglySorted (fun a b => nlt a b = true) l ->
  StronglySorted (fun a b => nlt a b = true) (insertSorted x l).
Proof.
  intros Hx Hfin Hnot Hs.
  induction Hs as [| y r Hr IH Hy]; cbn.
  - repeat constructor.
  - apply Forall_cons in Hfin. destruct Hfin as [Hfy Hfr].
    destruct x as [a | | |]; try discriminate Hx.
    destruct y as [b | | |]; try discriminate Hfy.
    cbn [nsub]. destruct (nlt (Fin (a - b)) (Fin 0)) eqn:E.
    + apply nlt_Fin in E.
      assert (Hab : nlt (Fin a) (Fin b) = true) by (apply nlt_Fin; lra).
      constructor; [now constructor |].
      constructor; [exact Hab |].
      rewrite List.Forall_forall in Hy. apply List.Forall_forall. intros z Hz.
      apply (nlt_trans _ (Fin b)); [exact Hab | now apply Hy].
    + apply nlt_Fin_false in E.
      assert (Hne : a <> b) by (intros ->; apply Hnot; now left).
      constructor.
      * apply IH; [exact Hfr | intros H; apply Hnot; now right].
      * apply List.Forall_forall. intros z Hz.
        apply In_insertSorted in Hz. destruct Hz as [-> | Hz].
        -- apply nlt_Fin. lra.
        -- rewrite List.Forall_forall in Hy. now apply Hy.
Qed.

Lemma sortNums_sorted_acc (l acc : list num) :
  Forall (fun y => isFinite y = true) l ->
  Forall (fun y => isFinite y = true) acc ->
  List.NoDup l -> (forall z, In z acc -> ~ In z l) ->
  StronglySorted (fun a b => nlt a b = true) acc ->
  StronglySorted (fun a b => nlt a b = true)
    (fold_left (fun acc x => insertSorted x acc) l acc).
Proof.
  revert acc. induction l as [| x l IH]; intros acc Hl Hacc Hnd Hdisj Hs; cbn;
    [exact Hs |].
  apply Forall_cons in Hl. destruct Hl as [Hx Hl].
  inversion Hnd as [| ? ? Hxl Hnl]; subst.
  assert (Hxacc : ~ In x acc).
  { intros H. apply (Hdisj x H). now left. }
  apply IH.
  - exact Hl.
  - apply List.Forall_forall. intros z Hz. apply In_insertSorted in Hz.
    destruct Hz as [-> | Hz]; [exact Hx |].
    rewrite List.Forall_forall in Hacc. now apply Hacc.
  - exact Hnl.
  - intros z Hz. apply In_insertSorted in Hz. destruct Hz as [-> | Hz].
    + exact Hxl.
    + intros H. apply (Hdisj z Hz). now right.
  - now apply insertSorted_sorted.
Qed.

(** X7. The available speeds come in strictly ascending order, hence
    without repetition, whenever the unlocked speeds are finite
    numbers. *)
Theorem getAvailableSpeeds_ascending (s : State) :
  Forall (fun x => isFinite x = true) (unlockedSpeeds (meta s)) ->
  StronglySorted (fun a b => nlt a b = true) (getAvailableSpeeds s).
Proof.
  intros Hfin. unfold getAvailableSpeeds, sortNums.
  apply sortNums_sorted_acc.
  - apply List.Forall_forall. intros z Hz. apply In_uniq, in_app_or in Hz.
    destruct Hz as [Hz | Hz].
    + destruct Hz as [<- | [<- | [<- | []]]]; reflexivity.
    + rewrite List.Forall_forall in Hfin. now apply Hfin.
  - constructor.
  - apply NoDup_uniq.
  - intros z [].
  - constructor.
Qed.

(** ** Stage requirement and lifespan as functions of karma *)

Lemma exp_neg_le_1 (c k : R) : 0 <= c -> 0 <= k -> exp (- c * k) <= 1.
Proof.
  intros Hc Hk. rewrite <- exp_0.
  destruct (Req_dec_T (- c * k) 0) as [-> | Hne]; [lra |].
  left. apply exp_increasing. nra.
Qed.

Lemma exp_neg_anti (c k1 k2 : R) :
  0 <= c -> k1 <= k2 -> exp (- c * k2) <= exp (- c * k1).
Proof.
  intros Hc Hk.
  destruct (Req_dec_T (- c * k2) (- c * k1)) as [-> | Hne]; [lra |].
  left. apply exp_increasing. nra.
Qed.

Lemma floor_mono (x y : R) : x <= y -> IZR (Zfloor x) <= IZR (Zfloor y).
Proof. intros H. now apply IZR_le, Zfloor_le. Qed.

Lemma floor_nonneg (x : R) : 0 <= x -> 0 <= IZR (Zfloor x).
Proof. intros H. apply IZR_le. now apply (Zfloor_lub 0). Qed.

(** The base requirement, before the karma reduction. *)
Lemma baseRequirement_mono (BAL : Balance) (r1 r2 st1 st2 : Z) :
  0 <= realmBase BAL -> 1 <= realmBaseScale BAL -> 1 <= stageScale BAL ->
  (0 <= r1 <= r2)%Z -> (1 <= st1 <= st2)%Z ->
  0 <= realmBase BAL * powerRZ (realmBaseScale BAL) r1
       * powerRZ (stageScale BAL) (st1 - 1)
    <= realmBase BAL * powerRZ (realmBaseScale BAL) r2
       * powerRZ (stageScale BAL) (st2 - 1).
Proof.
  intros Hb Hr Hs Hri Hst.
  pose proof (powerRZ_mono (realmBaseScale BAL) r1 r2 Hr Hri) as H1.
  pose proof (powerRZ_mono (stageScale BAL) (st1 - 1) (st2 - 1) Hs
                ltac:(lia)) as H2.
  pose proof (powerRZ_nonneg (realmBaseScale BAL) r1 ltac:(lra)) as P1.
  pose proof (powerRZ_nonneg (stageScale BAL) (st1 - 1) ltac:(lra)) as P2.
  split.
  - apply Rmult_le_pos; [apply Rmult_le_pos |]; assumption.
  - apply Rmult_le_compat; try assumption.
    + apply Rmult_le_pos; assumption.
    + apply Rmult_le_compat_l; assumption.
Qed.

(** X8. The path gets steeper: with a base that is not negative and
    scales of at least 1, the Qi a breakthrough asks is a real number
    that is not negative and does not decrease from one stage to the
    next, nor from one realm to the next. *)
Theorem stageRequirement_nondecreasing
  (BAL : Balance) (s : State) (r1 r2 st1 st2 : Z) (k : R) :
  0 <= realmBase BAL -> 1 <= realmBaseScale BAL -> 1 <= stageScale BAL ->
  karma (reinc s) = Fin k -> 0 <= k ->
  (0 <= r1 <= r2)%Z -> (1 <= st1 <= st2)%Z ->
  exists q1 q2 : R,
    stageRequirement BAL s r1 st1 = Fin q1
    /\ stageRequirement BAL s r2 st2 = Fin q2
    /\ 0 <= q1 <= q2.
Proof.
  intros Hb Hr Hs Hk Hk0 Hri Hst.
  rewrite !(stageRequirement_Fin BAL s _ _ k Hk Hk0).
  do 2 eexists. split; [reflexivity | split; [reflexivity |]].
  destruct (baseRequirement_mono BAL r1 r2 st1 st2 Hb Hr Hs Hri Hst) as [H0 H1].
  pose proof (karmaStageMult_ge_1 k Hk0) as Hm.
  set (m := 1 + 0.6 * (1 - exp (-0.03 * k))) in *.
  assert (Hinv : 0 < 1 / m) by (apply Rdiv_lt_0_compat; lra).
  pose proof (floor_nonneg _ H0) as F0.
  pose proof (floor_mono _ _ H1) as F1.
  split.
  - apply floor_nonneg. apply Rmult_le_pos; lra.
  - apply floor_mono. apply Rmult_le_compat_r; lra.
Qed.

(** X9. Karma eases the path: more karma never raises the Qi a
    breakthrough asks, which is never negative and never more than the
    requirement without karma reduction. *)
Theorem stageRequirement_karma_eases
  (BAL : Balance) (s1 s2 : State) (r st : Z) (k1 k2 : R) :
  0 <= realmBase BAL -> 0 < realmBaseScale BAL -> 0 < stageScale BAL ->
  karma (reinc s1) = Fin k1 -> karma (reinc s2) = Fin k2 -> 0 <= k1 <= k2 ->
  exists q1 q2 : R,
    stageRequirement BAL s1 r st = Fin q1
    /\ stageRequirement BAL s2 r st = Fin q2
    /\ 0 <= q2 <= q1
    /\ q1 <= IZR (Zfloor (realmBase BAL * powerRZ (realmBaseScale BAL) r
                          * powerRZ (stageScale BAL) (st - 1))).
Proof.
  intros Hb Hr Hs Hk1 Hk2 [Hk0 Hle].
  rewrite (stageRequirement_Fin BAL s1 _ _ k1 Hk1 Hk0).
  rewrite (stageRequirement_Fin BAL s2 _ _ k2 Hk2 ltac:(lra)).
  do 2 eexists. split; [reflexivity | split; [reflexivity |]].
  set (B := realmBase BAL * powerRZ (realmBaseScale BAL) r
            * powerRZ (stageScale BAL) (st - 1)).
  assert (HB : 0 <= B).
  { unfold B. apply Rmult_le_pos; [apply Rmult_le_pos |];
      [exact Hb | left; now apply powerRZ_lt | left; now apply powerRZ_lt]. }
  pose proof (floor_nonneg B HB) as F0.
  pose proof (karmaStageMult_ge_1 k1 Hk0) as Hm1.
  pose proof (karmaStageMult_ge_1 k2 ltac:(lra)) as Hm2.
  assert (Hanti : exp (-0.03 * k2) <= exp (-0.03 * k1)).
  { replace (-0.03 * k2) with (- (0.03) * k2) by lra.
    replace (-0.03 * k1) with (- (0.03) * k1) by lra.
    apply exp_neg_anti; lra. }
  set (m1 := 1 + 0.6 * (1 - exp (-0.03 * k1))) in *.
  set (m2 := 1 + 0.6 * (1 - exp (-0.03 * k2))) in *.
  assert (Hm : m1 <= m2) by (unfold m1, m2; lra).
  assert (Hi : 0 < 1 / m2 <= 1 / m1).
  { split; [apply Rdiv_lt_0_compat; lra |].
    unfold Rdiv. rewrite !Rmult_1_l. apply Rinv_le_contravar; lra. }
  assert (Hi1 : 1 / m1 <= 1).
  { unfold Rdiv. rewrite Rmult_1_l. rewrite <- Rinv_1.
    apply Rinv_le_contravar; lra. }
  repeat split.
  - apply floor_nonneg. apply Rmult_le_pos; lra.
  - apply floor_mono. apply Rmult_le_compat_l; lra.
  - rewrite <- (ZfloorZ (Zfloor B)) at 2. apply floor_mono. nra.
Qed.

Lemma getMaxLifespan_Fin
  (BAL : Balance) (arg : option Z) (s : State) (b k : R) :
  index (realmMaxLifespan BAL)
    (match arg with Some i => i | None => realmIndex s end) = Some (Some b) ->
  b <> 0 -> karma (reinc s) = Fin k ->
  getMaxLifespan BAL arg s
  = Some (Fin (IZR (Zfloor (b * (1 + 1.5 * (1 - exp (- (0.03) * k))))))).
Proof.
  intros Hi Hb Hk. unfold getMaxLifespan. rewrite Hi, Hk.
  rewrite orElse_Fin by exact Hb.
  rewrite karmaLifeMult_softCap, softCap_Fin. reflexivity.
Qed.

(** X10. Karma lengthens life: for a realm with a finite configured
    lifespan [b > 0], the maximum lifespan is a real number between
    [floor b] and [floor (2.5 b)], and more karma never shortens it. *)
Theorem getMaxLifespan_karma_extends
  (BAL : Balance) (arg : option Z) (s1 s2 : State) (b k1 k2 : R) :
  realmIndex s1 = realmIndex s2 ->
  index (realmMaxLifespan BAL)
    (match arg with Some i => i | None => realmIndex s1 end) = Some (Some b) ->
  0 < b ->
  karma (reinc s1) = Fin k1 -> karma (reinc s2) = Fin k2 -> 0 <= k1 <= k2 ->
  exists M1 M2 : R,
    getMaxLifespan BAL arg s1 = Some (Fin M1)
    /\ getMaxLifespan BAL arg s2 = Some (Fin M2)
    /\ IZR (Zfloor b) <= M1 <= M2
    /\ M2 <= IZR (Zfloor (2.5 * b)).
Proof.
  intros Er Hi Hb Hk1 Hk2 [Hk0 Hle].
  rewrite (getMaxLifespan_Fin BAL arg s1 b k1 Hi ltac:(lra) Hk1).
  rewrite (getMaxLifespan_Fin BAL arg s2 b k2
             ltac:(now rewrite <- Er) ltac:(lra) Hk2).
  do 2 eexists. split; [reflexivity | split; [reflexivity |]].
  pose proof (exp_neg_le_1 0.03 k1 ltac:(lra) Hk0) as H1.
  pose proof (exp_neg_anti 0.03 k1 k2 ltac:(lra) Hle) as H2.
  pose proof (exp_pos (- (0.03) * k2)) as H3.
  repeat split; apply floor_mono; nra.
Qed.

(** ** What a play of the game keeps *)

Lemma play_invariant (BAL : Balance) (P : World -> Prop) :
  (forall c w, P w -> P (exec BAL c w)) ->
  forall cs w, P w -> P (play BAL cs w).
Proof.
  intros Hstep cs. induction cs as [| c cs IH]; intros w H; cbn; [exact H |].
  apply IH, Hstep, H.
Qed.

Lemma handleLifespanEnd_standing (BAL : Balance) (now : Z) (w : World) :
  standing (state (handleLifespanEnd BAL now w)) = standing (state w).
Proof. unfold handleLifespanEnd. split_tests; reflexivity. Qed.

Lemma tickLifespan_standing (BAL : Balance) (now : Z) (dt : num) (w : World) :
  standing (state (tickLifespan BAL now dt w)) = standing (state w).
Proof.
  unfold tickLifespan.
  split_tests; rewrite ?handleLifespanEnd_standing, ?norm_eq; reflexivity.
Qed.

Lemma checkLifespanGate_standing (BAL : Balance) (now : Z) (w : World) :
  standing (state (checkLifespanGate BAL now w)) = standing (state w).
Proof.
  unfold checkLifespanGate.
  split_tests; rewrite ?handleLifespanEnd_standing; reflexivity.
Qed.

Lemma safeAddQi_standing (x : num) (s : State) :
  standing (safeAddQi x s) = standing s.
Proof. unfold safeAddQi. now destruct (negb (isFinite x) || nle x (Fin 0)). Qed.

Lemma tick_standing (BAL : Balance) (now : Z) (dt : num) (w : World) :
  standing (state (tick BAL now dt w)) = standing (state w).
Proof.
  unfold tick. split_head; try reflexivity.
  rewrite checkLifespanGate_standing, tickLifespan_standing.
  unfold onS. cbn [state set_state].
  unfold standing at 1. cbn [realmIndex stage currentCycle meta flags set_reinc].
  apply safeAddQi_standing.
Qed.

Lemma onClick_standing (BAL : Balance) (w : World) :
  standing (state (onClick BAL w)) = standing (state w).
Proof.
  unfold onClick. split_head; try reflexivity.
  unfold onS. cbn [state set_state].
  unfold standing at 1. cbn [realmIndex stage currentCycle meta flags set_reinc].
  apply safeAddQi_standing.
Qed.

Lemma offlineAge_standing (BAL : Balance) (y : num) (s : State) :
  standing (fst (offlineAge BAL y s)) = standing s.
Proof. unfold offlineAge. split_tests; reflexivity. Qed.

Lemma resume_standing (BAL : Balance) (showPopup : bool) (now : Z) (w : World) :
  standing (state (applyOfflineProgressOnResume BAL showPopup now w))
  = standing (state w).
Proof.
  unfold applyOfflineProgressOnResume.
  destruct (session (state w)) as [snap |]; [| reflexivity].
  destruct (lastTs snap =? 0)%Z; [reflexivity |].
  destruct (nle _ _); [reflexivity |].
  destruct (_ <? 1)%Z; [reflexivity |].
  unfold offlineReplay.
  match goal with
  | |- context [offlineAge BAL ?y ?s] =>
      pose proof (offlineAge_standing BAL y s) as Er;
      destruct (offlineAge BAL y s) as [s' exceeded]
  end.
  cbn [fst] in Er. rewrite norm_eq in Er.
  assert (E : standing s' = standing (state w)).
  { rewrite Er. destruct (ngt _ _); [| reflexivity].
    unfold standing. cbn [realmIndex stage currentCycle meta flags set_reinc
                            set_age set_ageYears].
    apply safeAddQi_standing. }
  destruct exceeded.
  - rewrite checkLifespanGate_standing. exact E.
  - destruct (showPopup && ngt _ _); exact E.
Qed.

Lemma buySkill_standing (BAL : Balance) (id : string) (w : World) :
  standing (state (buySkill BAL id w)) = standing (state w).
Proof. unfold buySkill. split_tests; reflexivity. Qed.

Lemma setTimeSpeed_standing (speed : num) (s : State) :
  standing (setTimeSpeed speed s) = standing s.
Proof. unfold setTimeSpeed. split_tests; reflexivity. Qed.

Lemma tryManualReincarnate_state (w : World) :
  state (tryManualReincarnate w) = state w.
Proof. unfold tryManualReincarnate. now destruct (negb _). Qed.

Lemma quiet_standing (BAL : Balance) (c : Command) (w : World) :
  quiet c = true -> standing (state (exec BAL c w)) = standing (state w).
Proof.
  destruct c as [[now dt | | | p now | o now | now] | id | v | now | | now];
    cbn [quiet exec act]; intros H; try discriminate H.
  - apply tick_standing.
  - apply onClick_standing.
  - apply resume_standing.
  - apply buySkill_standing.
  - apply setTimeSpeed_standing.
  - reflexivity.
  - now rewrite tryManualReincarnate_state.
Qed.

(** A reincarnation, whatever its mode: back to realm 0, stage 1, with
    the unlocked speeds kept and the unlock flags kept or, for the
    mandatory one at Spirit Transformation stage 10, all set. *)
Lemma doReincarnate_standing
  (BAL : Balance) (options : option Mode) (now : Z) (w : World) :
  let s := state w in
  let s' := state (doReincarnate BAL options now w) in
  realmIndex s' = 0%Z /\ stage s' = 1%Z /\ meta s' = meta s
  /\ currentCycle s'
     = currentCycle
         (updateCurrentCycle BAL (s |> set_realmIndex 0%Z |> set_currentCycle mortal))
  /\ unlocks (flags s')
     = (if isMandatoryMode (modeOf options)
           && ((realmIndex s =? 4)%Z && (stage s =? 10)%Z)
        then (true, true, true, true) else unlocks (flags s))
  /\ timeSpeed s' = mkTimeSpeed (Fin 1) false
  /\ qi s' = Fin 0 /\ skills s' = ∅.
Proof.
  cbn zeta. unfold doReincarnate.
  destruct (isMandatoryMode (modeOf options)
            && ((realmIndex _ =? 4)%Z && (stage _ =? 10)%Z));
    destruct (isDeathMode (modeOf options)); cbn;
    unfold updateCurrentCycle; cbn;
    destruct (includesZ _ 0); try destruct (includesZ _ 0);
    repeat split; reflexivity.
Qed.

Lemma dismissDeathAlert_standing
  (BAL : Balance) (now : Z) (w : World) (g : num) :
  awaitingDeath w = Some g ->
  let s := state w in
  let s' := state (dismissDeathAlert BAL now w) in
  realmIndex s' = 0%Z /\ stage s' = 1%Z /\ meta s' = meta s
  /\ currentCycle s' = mortal
  /\ unlocks (flags s') = unlocks (flags s)
  /\ timeSpeed s' = mkTimeSpeed (Fin 1) false
  /\ qi s' = Fin 0 /\ skills s' = ∅.
Proof.
  intros H. cbn zeta. unfold dismissDeathAlert. rewrite H.
  repeat split; reflexivity.
Qed.

Lemma dismissDeathAlert_idle (BAL : Balance) (now : Z) (w : World) :
  awaitingDeath w = None -> dismissDeathAlert BAL now w = w.
Proof. intros H. unfold dismissDeathAlert. now rewrite H. Qed.

Lemma updateLifespanOnRealmAdvance_standing (BAL : Balance) (s : State) :
  standing (updateLifespanOnRealmAdvance BAL s) = standing s.
Proof. unfold updateLifespanOnRealmAdvance. split_tests; reflexivity. Qed.

Lemma standing_inv (s1 s2 : State) :
  standing s1 = standing s2 ->
  realmIndex s1 = realmIndex s2 /\ stage s1 = stage s2
  /\ currentCycle s1 = currentCycle s2 /\ meta s1 = meta s2
  /\ unlocks (flags s1) = unlocks (flags s2).
Proof. unfold standing, unlocks. intros H. injection H as -> -> -> -> -> -> -> ->. auto. Qed.

Lemma updateCurrentCycle_standing_ext (BAL : Balance) (s1 s2 : State) :
  standing s1 = standing s2 ->
  standing (updateCurrentCycle BAL s1) = standing (updateCurrentCycle BAL s2).
Proof.
  intros H. pose proof (standing_inv s1 s2 H) as (Er & _).
  unfold updateCurrentCycle. rewrite Er.
  split_tests; try exact H;
    unfold standing in *; cbn [realmIndex stage currentCycle meta flags
                                 set_currentCycle];
    injection H as -> -> _ -> -> -> -> ->; reflexivity.
Qed.

Lemma checkAndUnlockSpeeds_standing_ext (BAL : Balance) (s1 s2 : State) :
  standing s1 = standing s2 ->
  standing (checkAndUnlockSpeeds BAL s1) = standing (checkAndUnlockSpeeds BAL s2).
Proof.
  intros H. pose proof (standing_inv s1 s2 H) as (Er & Es & Ec & Em & Ef).
  rewrite !checkAndUnlockSpeeds_pushWhen.
  unfold standing, unlocks in *.
  cbn [realmIndex stage currentCycle meta flags set_meta].
  now rewrite Er, Es, Ec, Em, Ef.
Qed.

(** A breakthrough leaves the standing alone, or moves up one stage
    below stage 10, or moves from stage 10 to stage 1 of the next realm
    when there is one. *)
Lemma doBreakthrough_standing (BAL : Balance) (w : World) :
  let s := state w in
  let s' := state (doBreakthrough BAL w) in
  standing s' = standing s
  \/ ((stage s < 10)%Z
      /\ standing s' = standing (s |> set_stage (stage s + 1)%Z))
  \/ ((10 <= stage s)%Z /\ (realmIndex s < realms_length - 1)%Z
      /\ (realmIndex s = 4%Z -> unlockedBeyondSpirit (flags s) = true)
      /\ standing s'
         = standing
             (s |> set_realmIndex (realmIndex s + 1)%Z |> set_stage 1%Z
                |> updateCurrentCycle BAL |> checkAndUnlockSpeeds BAL)).
Proof.
  cbn zeta. unfold doBreakthrough.
  destruct (nlt _ _); [now left |].
  cbn [stage set_qi realmIndex flags].
  destruct (stage (state w) <? 10)%Z eqn:Est.
  { right. left. apply Z.ltb_lt in Est. split; [exact Est | reflexivity]. }
  apply Z.ltb_ge in Est.
  destruct ((realmIndex (state w) =? 4)%Z
            && negb (unlockedBeyondSpirit (flags (state w)))) eqn:Egate;
    [now left |].
  destruct (isAtCycleEnd _).
  { rewrite triggerCycleTransition_state. now left. }
  destruct (realmIndex (state w) <? realms_length - 1)%Z eqn:Er.
  - right. right. apply Z.ltb_lt in Er.
    split; [exact Est |]. split; [exact Er |]. split.
    + intros E4. rewrite E4 in Egate. cbn in Egate.
      now destruct (unlockedBeyondSpirit (flags (state w))).
    + match goal with
      | |- context [if ?c then _ else _] => destruct c
      end; cbn [state set_state show];
        apply checkAndUnlockSpeeds_standing_ext,
          updateCurrentCycle_standing_ext;
        rewrite updateLifespanOnRealmAdvance_standing; reflexivity.
  - rewrite triggerCycleTransition_state. now left.
Qed.

Lemma updateCurrentCycle_cycle_ext (BAL : Balance) (s1 s2 : State) :
  realmIndex s1 = realmIndex s2 -> currentCycle s1 = currentCycle s2 ->
  currentCycle (updateCurrentCycle BAL s1)
  = currentCycle (updateCurrentCycle BAL s2).
Proof.
  intros Er Ec. unfold updateCurrentCycle. rewrite Er.
  split_tests; cbn [currentCycle set_currentCycle]; auto.
Qed.

Lemma exec_standing (BAL : Balance) (c : Command) (w : World) :
  StandingStep BAL (state w) (state (exec BAL c w)).
Proof.
  destruct (quiet c) eqn:Q; [apply SameStanding; now apply quiet_standing |].
  destruct c as [[now dt | | | p now | o now | now] | id | v | now | | now];
    try discriminate Q; cbn [exec act].
  - destruct (doBreakthrough_standing BAL w) as [H | [[H1 H2] | (H1 & H2 & H3 & H4)]].
    + now apply SameStanding.
    + now apply StageUp.
    + now apply RealmUp.
  - destruct (doReincarnate_standing BAL o now w) as (H1 & H2 & H3 & H4 & H5 & _).
    apply NewLife; [exact H1 | exact H2 | exact H3 | left; exact H4 |].
    destruct (isMandatoryMode _ && _); [right | left]; exact H5.
  - destruct (awaitingDeath w) as [g |] eqn:E.
    + destruct (dismissDeathAlert_standing BAL now w g E)
        as (H1 & H2 & H3 & H4 & H5 & _).
      apply NewLife; [exact H1 | exact H2 | exact H3 | right; exact H4 |
                      left; exact H5].
    + rewrite dismissDeathAlert_idle by exact E. now apply SameStanding.
  - unfold confirmVoluntary.
    destruct (doReincarnate_standing BAL (Some voluntary) now
                (onS (set_life (mkLife false)) w))
      as (H1 & H2 & H3 & H4 & H5 & _).
    apply NewLife; [exact H1 | exact H2 | exact H3 | left | left; exact H5].
    rewrite H4. now apply updateCurrentCycle_cycle_ext.
Qed.

Lemma checkAndUnlockSpeeds_prefix (BAL : Balance) (s : State) :
  exists ext : list num,
    unlockedSpeeds (meta (checkAndUnlockSpeeds BAL s))
    = unlockedSpeeds (meta s) ++ ext.
Proof.
  rewrite checkAndUnlockSpeeds_list.
  destruct (pushWhen_prefix (fun _ => true) (fun y => y)
              baseSpeedsAlwaysAvailable (unlockedSpeeds (meta s))) as (e1 & E1).
  rewrite E1.
  destruct (pushWhen_prefix (speedWanted BAL (realmIndex s))
              (fun p => Fin (snd p))
              (combine (seq 0 (length (speeds BAL))) (speeds BAL))
              (unlockedSpeeds (meta s) ++ e1)) as (e2 & E2).
  rewrite E2. exists (e1 ++ e2). now rewrite app_assoc.
Qed.

Lemma updateCurrentCycle_meta (BAL : Balance) (s : State) :
  meta (updateCurrentCycle BAL s) = meta s
  /\ realmIndex (updateCurrentCycle BAL s) = realmIndex s
  /\ stage (updateCurrentCycle BAL s) = stage s
  /\ flags (updateCurrentCycle BAL s) = flags s.
Proof. unfold updateCurrentCycle. split_tests; repeat split; reflexivity. Qed.

Lemma checkAndUnlockSpeeds_fields (BAL : Balance) (s : State) :
  realmIndex (checkAndUnlockSpeeds BAL s) = realmIndex s
  /\ stage (checkAndUnlockSpeeds BAL s) = stage s
  /\ currentCycle (checkAndUnlockSpeeds BAL s) = currentCycle s
  /\ flags (checkAndUnlockSpeeds BAL s) = flags s.
Proof. rewrite checkAndUnlockSpeeds_pushWhen. repeat split; reflexivity. Qed.

(** X11. Unlocked speeds are never lost: after any play, the list of
    unlocked speeds is the list before it with, at most, more speeds
    appended; reincarnation and death keep it. *)
Theorem play_unlocked_speeds_grow
  (BAL : Balance) (cs : list Command) (w : World) :
  exists ext : list num,
    unlockedSpeeds (meta (state (play BAL cs w)))
    = unlockedSpeeds (meta (state w)) ++ ext.
Proof.
  apply (play_invariant BAL
           (fun w' => exists ext, unlockedSpeeds (meta (state w'))
                                  = unlockedSpeeds (meta (state w)) ++ ext)).
  - intros c w' (ext & E).
    assert (G : forall s', meta s' = meta (state w') ->
                  exists ext0, unlockedSpeeds (meta s')
                               = unlockedSpeeds (meta (state w)) ++ ext0).
    { intros s' ->. now exists ext. }
    destruct (exec_standing BAL c w') as [H | _ H | _ _ _ H | _ _ H _ _].
    + apply G. now apply standing_inv in H.
    + apply G. apply standing_inv in H. apply H.
    + apply standing_inv in H. destruct H as (_ & _ & _ & -> & _).
      destruct (checkAndUnlockSpeeds_prefix BAL
                  (updateCurrentCycle BAL
                     (set_stage 1
                        (set_realmIndex (realmIndex (state w') + 1) (state w')))))
        as (e & ->).
      destruct (updateCurrentCycle_meta BAL
                  (set_stage 1
                     (set_realmIndex (realmIndex (state w') + 1) (state w'))))
        as (-> & _).
      cbn [meta set_stage set_realmIndex]. rewrite E.
      exists (ext ++ e). now rewrite app_assoc.
    + now apply G.
  - exists []. now rewrite app_nil_r.
Qed.

(** X12. What is unlocked stays unlocked: each of the four unlock flags
    (beyond Spirit Transformation, the spirit cycle, the completed
    mandatory reincarnation, manual reincarnation) that is set stays set
    through any play, deaths included. *)
Theorem play_unlocks_are_kept
  (BAL : Balance) (cs : list Command) (w : World) :
  let f := flags (state w) in
  let f' := flags (state (play BAL cs w)) in
  (unlockedBeyondSpirit f = true -> unlockedBeyondSpirit f' = true)
  /\ (hasUnlockedSpiritCycle f = true -> hasUnlockedSpiritCycle f' = true)
  /\ (hasCompletedMandatoryST10 f = true -> hasCompletedMandatoryST10 f' = true)
  /\ (canManualReincarnate f = true -> canManualReincarnate f' = true).
Proof.
  cbn zeta.
  apply (play_invariant BAL
           (fun w' =>
              (unlockedBeyondSpirit (flags (state w)) = true
               -> unlockedBeyondSpirit (flags (state w')) = true)
              /\ (hasUnlockedSpiritCycle (flags (state w)) = true
                  -> hasUnlockedSpiritCycle (flags (state w')) = true)
              /\ (hasCompletedMandatoryST10 (flags (state w)) = true
                  -> hasCompletedMandatoryST10 (flags (state w')) = true)
              /\ (canManualReincarnate (flags (state w)) = true
                  -> canManualReincarnate (flags (state w')) = true)));
    [| tauto].
  intros c w' Hinv.
  assert (G : forall s', unlocks (flags s') = unlocks (flags (state w')) ->
                (unlockedBeyondSpirit (flags (state w)) = true
                 -> unlockedBeyondSpirit (flags s') = true)
                /\ (hasUnlockedSpiritCycle (flags (state w)) = true
                    -> hasUnlockedSpiritCycle (flags s') = true)
                /\ (hasCompletedMandatoryST10 (flags (state w)) = true
                    -> hasCompletedMandatoryST10 (flags s') = true)
                /\ (canManualReincarnate (flags (state w)) = true
                    -> canManualReincarnate (flags s') = true)).
  { intros s' E. unfold unlocks in E. injection E as -> -> -> ->. exact Hinv. }
  destruct (exec_standing BAL c w') as [H | _ H | _ _ _ H | _ _ _ _ H].
  - apply G. now apply standing_inv in H.
  - apply G. apply standing_inv in H. apply H.
  - apply G. apply standing_inv in H. destruct H as (_ & _ & _ & _ & ->).
    destruct (checkAndUnlockSpeeds_fields BAL
                (updateCurrentCycle BAL
                   (set_stage 1
                      (set_realmIndex (realmIndex (state w') + 1) (state w')))))
      as (_ & _ & _ & ->).
    destruct (updateCurrentCycle_meta BAL
                (set_stage 1
                   (set_realmIndex (realmIndex (state w') + 1) (state w'))))
      as (_ & _ & _ & ->).
    reflexivity.
  - destruct H as [H | H]; [now apply G |].
    unfold unlocks in H. injection H as -> -> -> ->. tauto.
Qed.

(** X13. Realm and stage never leave their tables: from a state whose
    realm index is between 0 and 9 and whose stage is between 1 and 10,
    no play leads outside these ranges. *)
Theorem play_keeps_bounds (BAL : Balance) (cs : list Command) (w : World) :
  inBounds (state w) -> inBounds (state (play BAL cs w)).
Proof.
  apply (play_invariant BAL (fun w' => inBounds (state w'))).
  intros c w' [Hr Hs]. unfold inBounds.
  destruct (exec_standing BAL c w') as [H | Hlt H | _ Hlt _ H | H1 H2 _ _ _].
  - apply standing_inv in H. destruct H as (-> & -> & _). now split.
  - apply standing_inv in H. destruct H as (-> & -> & _).
    cbn [realmIndex stage set_stage]. split; lia.
  - apply standing_inv in H. destruct H as (-> & -> & _).
    destruct (checkAndUnlockSpeeds_fields BAL
                (updateCurrentCycle BAL
                   (set_stage 1
                      (set_realmIndex (realmIndex (state w') + 1) (state w')))))
      as (-> & -> & _).
    destruct (updateCurrentCycle_meta BAL
                (set_stage 1
                   (set_realmIndex (realmIndex (state w') + 1) (state w'))))
      as (_ & -> & -> & _).
    cbn [realmIndex stage set_stage set_realmIndex].
    unfold realms_length in Hlt. split; lia.
  - rewrite H1, H2. split; lia.
Qed.

Lemma includesZ_mortal (r : Z) :
  includesZ [0; 1; 2; 3; 4]%Z r = true <-> (0 <= r <= 4)%Z.
Proof.
  unfold includesZ. cbn. rewrite !orb_true_iff, !Z.eqb_eq. lia.
Qed.

Lemma includesZ_spirit (r : Z) :
  includesZ [5; 6; 7; 8; 9]%Z r = true <-> (5 <= r <= 9)%Z.
Proof.
  unfold includesZ. cbn. rewrite !orb_true_iff, !Z.eqb_eq. lia.
Qed.

Lemma updateCurrentCycle_default (BAL : Balance) (s : State) :
  mortalRealms BAL = None -> spiritRealms BAL = None ->
  ((0 <= realmIndex s <= 4)%Z -> currentCycle (updateCurrentCycle BAL s) = mortal)
  /\ ((5 <= realmIndex s <= 9)%Z
      -> currentCycle (updateCurrentCycle BAL s) = spirit).
Proof.
  intros Hm Hs. unfold updateCurrentCycle. rewrite Hm, Hs. cbn [default].
  destruct (includesZ [0; 1; 2; 3; 4]%Z (realmIndex s)) eqn:E1.
  - apply includesZ_mortal in E1. split; [reflexivity | lia].
  - destruct (includesZ [5; 6; 7; 8; 9]%Z (realmIndex s)) eqn:E2.
    + split; [| reflexivity]. intros H. apply includesZ_mortal in H. congruence.
    + split; intros H.
      * apply includesZ_mortal in H. congruence.
      * apply includesZ_spirit in H. congruence.
Qed.

(** X14. The cycle always is the one of the realm: with the built-in cycle
    definitions, a state in which realms 0 to 4 go with the mortal cycle
    and realms 5 to 9 with the spirit cycle stays such a state through
    any play. *)
Theorem play_cycle_matches_realm
  (BAL : Balance) (cs : list Command) (w : World) :
  mortalRealms BAL = None -> spiritRealms BAL = None ->
  cycleMatchesRealm (state w) -> cycleMatchesRealm (state (play BAL cs w)).
Proof.
  intros Hm Hs.
  apply (play_invariant BAL (fun w' => cycleMatchesRealm (state w'))).
  intros c w' [H1 H2]. unfold cycleMatchesRealm.
  destruct (exec_standing BAL c w') as [H | _ H | _ _ _ H | E1 _ _ Hc _].
  - apply standing_inv in H. destruct H as (-> & _ & -> & _). now split.
  - apply standing_inv in H. destruct H as (-> & _ & -> & _). now split.
  - apply standing_inv in H. destruct H as (-> & _ & -> & _).
    set (s1 := updateCurrentCycle BAL _).
    destruct (checkAndUnlockSpeeds_fields BAL s1) as (-> & _ & -> & _).
    unfold s1.
    match goal with
    | |- context [updateCurrentCycle BAL ?s0] =>
        destruct (updateCurrentCycle_meta BAL s0) as (_ & -> & _);
        exact (updateCurrentCycle_default BAL s0 Hm Hs)
    end.
  - rewrite E1. split; [intros _ | lia].
    destruct Hc as [-> | ->]; [| reflexivity].
    now apply updateCurrentCycle_default.
Qed.

(** ** Death *)

Lemma computeKarmaGain_ext (BAL : Balance) (s1 s2 : State) :
  reinc s1 = reinc s2 -> realmIndex s1 = realmIndex s2 ->
  currentCycle s1 = currentCycle s2 ->
  computeKarmaGain BAL s1 = computeKarmaGain BAL s2.
Proof. intros E1 E2 E3. unfold computeKarmaGain. now rewrite E1, E2, E3. Qed.

Lemma computeDeathKarma_ext (BAL : Balance) (s1 s2 : State) :
  reinc s1 = reinc s2 -> realmIndex s1 = realmIndex s2 ->
  currentCycle s1 = currentCycle s2 ->
  computeDeathKarma BAL s1 = computeDeathKarma BAL s2.
Proof.
  intros E1 E2 E3. unfold computeDeathKarma.
  now rewrite (computeKarmaGain_ext BAL s1 s2 E1 E2 E3).
Qed.

(** What [handleLifespanEnd] does to a world that is alive. *)
Lemma handleLifespanEnd_alive (BAL : Balance) (now : Z) (w : World) :
  alive w ->
  handleLifespanEnd BAL now w
  = mkWorld
      (state w
       |> set_isDead true
       |> set_lifecycle
            (lifecycle (state w)
             |> set_isReincarnating true |> set_lastDeathAt now)
       |> set_timeSpeed (mkTimeSpeed (Fin 0) true))
      true
      (Some (computeDeathKarma BAL (state w)))
      (ui w ++ [AlertDeath (computeDeathKarma BAL (state w))]).
Proof.
  intros (H1 & H2 & H3). unfold handleLifespanEnd. rewrite H1, H2, H3.
  reflexivity.
Qed.

Lemma run_blocked (BAL : Balance) (acts : list Action) (w : World) :
  (forall a, isTickOrClick a = true -> act BAL a w = w) ->
  forallb isTickOrClick acts = true -> run BAL acts w = w.
Proof.
  intros Hw. induction acts as [| a acts IH]; cbn; [reflexivity |].
  intros H. apply andb_prop in H. destruct H as [Ha Hacts].
  rewrite (Hw a Ha). now apply IH.
Qed.

Lemma neq_0_0 : neq (Fin 0) (Fin 0) = true.
Proof. now apply neq_Fin. Qed.

Lemma tick_stopped (BAL : Balance) (now : Z) (dt : num) (w : World) :
  getTimeSpeed (state w) = Fin 0 -> tick BAL now dt w = w.
Proof. intros H. unfold tick. now rewrite H, neq_0_0. Qed.

Lemma onClick_stopped (BAL : Balance) (w : World) :
  getTimeSpeed (state w) = Fin 0 -> onClick BAL w = w.
Proof. intros H. unfold onClick. now rewrite H, neq_0_0. Qed.

(** X15. One lifespan end, one alert.  When a death is triggered in a
    world that is alive, the alert is opened once, holding the death
    karma of the life that ended, and time stands still behind it:
    frame ticks, clicks, aging steps, lifespan checks and further death
    triggers change nothing, however many of them follow. *)
Theorem death_alert_stops_time (BAL : Balance) (now : Z) (w : World) :
  alive w ->
  let w' := handleLifespanEnd BAL now w in
  awaitingDeath w' = Some (computeDeathKarma BAL (state w))
  /\ ui w' = ui w ++ [AlertDeath (computeDeathKarma BAL (state w))]
  /\ getTimeSpeed (state w') = Fin 0
  /\ (forall now' dt, tickLifespan BAL now' dt w' = w')
  /\ (forall now', checkLifespanGate BAL now' w' = w')
  /\ (forall now', handleLifespanEnd BAL now' w' = w')
  /\ (forall acts, forallb isTickOrClick acts = true -> run BAL acts w' = w').
Proof.
  intros Hal. cbn zeta. rewrite (handleLifespanEnd_alive BAL now w Hal).
  repeat match goal with |- _ /\ _ => split end; try reflexivity.
  - intros now'. unfold checkLifespanGate.
    destruct (isImmortal BAL _); [reflexivity |].
    cbn [state flags lifecycle set_timeSpeed set_lifecycle set_isDead
           isReincarnating set_isReincarnating set_lastDeathAt].
    now rewrite orb_true_r.
  - intros acts. apply run_blocked.
    intros [now' dt | | | | |] Ha; try discriminate Ha; cbn [act].
    + apply tick_stopped. reflexivity.
    + apply onClick_stopped. reflexivity.
Qed.

(** X16. Death is followed by a life that runs.  When the alert of a death
    triggered in a world that is alive is dismissed, the cultivator is
    alive again at realm 0, stage 1, age 0, with no Qi, a full lifespan
    and the speed at 1, unpaused; the karma has grown by the death karma
    the alert announced, the death counter by one; the reincarnation
    counter, the unlocked speeds and the unlock flags are kept. *)
Theorem death_then_rebirth (BAL : Balance) (now now' : Z) (w : World) :
  alive w ->
  let w2 := dismissDeathAlert BAL now' (handleLifespanEnd BAL now w) in
  alive w2 /\ awaitingDeath w2 = None
  /\ timeSpeed (state w2) = mkTimeSpeed (Fin 1) false
  /\ lifespanHandled (flags (state w2)) = false
  /\ realmIndex (state w2) = 0%Z /\ stage (state w2) = 1%Z
  /\ qi (state w2) = Fin 0 /\ age (state w2) = Some (Fin 0)
  /\ ls_current (lifespan (state w2)) = ls_max (lifespan (state w2))
  /\ reinc (state w2)
     = mkReinc (times (reinc (state w)))
         (nadd (orElse (karma (reinc (state w))) (Fin 0))
            (computeDeathKarma BAL (state w)))
         (Fin 0)
  /\ deaths (stats (state w2)) = (deaths (stats (state w)) + 1)%Z
  /\ meta (state w2) = meta (state w)
  /\ unlocks (flags (state w2)) = unlocks (flags (state w)).
Proof.
  intros Hal. cbn zeta. rewrite (handleLifespanEnd_alive BAL now w Hal).
  unfold dismissDeathAlert, alive.
  cbn [awaitingDeath onS state set_state set_isHandlingDeath set_awaitingDeath
         isHandlingDeath].
  repeat match goal with |- _ /\ _ => split end; try reflexivity.
  unfold performDeathReincarnation, newLifeLifespan.
  match goal with
  | |- context [getMaxLifespan BAL (Some 0%Z) ?s] =>
      destruct (getMaxLifespan BAL (Some 0%Z) s)
  end; reflexivity.
Qed.

(** X17. Age reaching the maximum lifespan is death, once.  In a world
    that is alive, unpaused at a positive speed, with a finite maximum
    lifespan [M >= 0], an aging step that carries the age to [M] or beyond
    leaves the age at [M], sets the latch and opens the death alert
    with the death karma of this life; a step that stays below [M]
    triggers nothing. *)
Theorem tickLifespan_death_at_max
  (BAL : Balance) (now : Z) (w : World) (t v M : R) :
  alive w ->
  paused (timeSpeed (state w)) = false ->
  lifespanHandled (flags (state w)) = false ->
  getMaxLifespan BAL None (state w) = Some (Fin M) -> 0 <= M ->
  ts_current (timeSpeed (state w)) = Fin v -> 0 < v ->
  0 < yearsPerSecond BAL -> 0 < t ->
  0 <= ageAfterInit (state w) ->
  let x := ageAfterInit (state w) + t * v * yearsPerSecond BAL in
  let w' := tickLifespan BAL now (Fin t) w in
  (M <= x ->
   age (state w') = Some (Fin M)
   /\ lifespanHandled (flags (state w')) = true
   /\ isDead (state w') = true /\ isHandlingDeath w' = true
   /\ awaitingDeath w' = Some (computeDeathKarma BAL (state w))
   /\ ui w' = ui w ++ [AlertDeath (computeDeathKarma BAL (state w))])
  /\ (x < M ->
      age (state w') = Some (Fin x) /\ alive w' /\ awaitingDeath w' = awaitingDeath w
      /\ ui w' = ui w).
Proof.
  intros (Hh & Hr & Hd) Hp Hlatch HM HM0 Hv Hv0 Hy Ht Ha. cbn zeta.
  assert (Hstep : 0 < t * v * yearsPerSecond BAL)
    by (repeat apply Rmult_lt_0_compat; lra).
  unfold tickLifespan.
  rewrite Hp, Hd, (isImmortal_false _ _ _ HM), Hr, Hv. cbn [orb].
  rewrite orElse_Fin by lra.
  destruct (nle (Fin v) (Fin 0)) eqn:E; [apply nle_Fin in E; lra | clear E].
  cbn [nmax].
  destruct (neq (Fin (Rmax 0 t)) (Fin 0)) eqn:E;
    [apply neq_Fin in E; rewrite Rmax_right in E by lra; lra | clear E].
  rewrite baseYearsPerSecond_Fin by lra.
  rewrite norm_eq. cbn [nmul ageNum age set_age set_ageYears nadd isFinite negb].
  rewrite (getMaxLifespan_ext BAL None _ (state w)) by reflexivity.
  rewrite HM. cbn [nmin nmax lifespan set_age set_ageYears].
  rewrite (Rmax_right 0 t) by lra.
  assert (Hx0 : 0 <= ageAfterInit (state w) + t * v * yearsPerSecond BAL)
    by lra.
  set (x := ageAfterInit (state w) + t * v * yearsPerSecond BAL) in *.
  split; intros Hx.
  - replace (Rmax 0 (Rmin x M)) with M
      by (rewrite Rmin_right by lra; now rewrite Rmax_right).
    assert (E : nge (Fin M) (Fin M) = true)
      by (unfold nge; apply nle_Fin; lra).
    destruct (ls_max (lifespan (state w))) as [lmax |];
      cbn [ageNum age set_lifespan set_age set_ageYears flags];
      rewrite Hlatch, E; cbn [negb andb];
      rewrite handleLifespanEnd_alive by (repeat split; assumption);
      cbn [state set_state age set_timeSpeed set_lifecycle set_isDead
             set_flags set_lifespan set_age flags lifespanHandled
             set_lifespanHandled isDead isHandlingDeath awaitingDeath ui];
      repeat match goal with |- _ /\ _ => split end; try reflexivity;
      f_equal; try (f_equal; f_equal); now apply computeDeathKarma_ext.
  - assert (Hc : Rmax 0 (Rmin x M) = x).
    { rewrite Rmin_left by lra. apply Rmax_right. lra. }
    rewrite Hc.
    destruct (ls_max (lifespan (state w))) as [lmax |];
      cbn [ageNum age set_lifespan set_age set_ageYears flags];
      (destruct (nge (Fin x) (Fin M)) eqn:E;
       [unfold nge in E; apply nle_Fin in E; lra |]);
      unfold alive;
      cbn [andb state set_state age set_age set_lifespan set_ageYears
             isHandlingDeath lifecycle isDead awaitingDeath ui];
      repeat match goal with |- _ /\ _ => split end; try reflexivity;
      assumption.
Qed.

(** ** Offline sessions and the Qi stock *)

Lemma handleLifespanEnd_beyondAging (BAL : Balance) (now : Z) (w : World) :
  beyondAging (state (handleLifespanEnd BAL now w)) = beyondAging (state w).
Proof. unfold handleLifespanEnd. split_tests; reflexivity. Qed.

Lemma tickLifespan_beyondAging (BAL : Balance) (now : Z) (dt : num) (w : World) :
  beyondAging (state (tickLifespan BAL now dt w)) = beyondAging (state w).
Proof.
  unfold tickLifespan.
  split_tests; rewrite ?handleLifespanEnd_beyondAging, ?norm_eq; reflexivity.
Qed.

Lemma checkLifespanGate_beyondAging (BAL : Balance) (now : Z) (w : World) :
  beyondAging (state (checkLifespanGate BAL now w)) = beyondAging (state w).
Proof.
  unfold checkLifespanGate.
  split_tests; rewrite ?handleLifespanEnd_beyondAging; reflexivity.
Qed.

Lemma offlineAge_beyondAging (BAL : Balance) (y : num) (s : State) :
  beyondAging (fst (offlineAge BAL y s)) = beyondAging s.
Proof. unfold offlineAge. split_tests; reflexivity. Qed.

Lemma beyondAging_qi (s1 s2 : State) :
  beyondAging s1 = beyondAging s2 -> qi s1 = qi s2.
Proof. unfold beyondAging. intros H. now injection H. Qed.

Lemma beyondAging_session (s1 s2 : State) :
  beyondAging s1 = beyondAging s2 -> session s1 = session s2.
Proof. unfold beyondAging. intros H. now injection H. Qed.

Lemma safeAddQi_range (x : num) (s : State) (q : R) :
  qi s = Fin q -> 0 <= q <= qiCeiling ->
  exists q' : R, qi (safeAddQi x s) = Fin q' /\ q <= q' <= qiCeiling.
Proof.
  intros Hq Hr. unfold safeAddQi.
  destruct x as [g | | |]; cbn [isFinite negb orb];
    try (exists q; split; [exact Hq | lra]).
  destruct (nle (Fin g) (Fin 0)) eqn:E; [exists q; split; [exact Hq | lra] |].
  assert (Hg : 0 < g).
  { destruct (Rle_dec g 0) as [H | H]; [| lra].
    apply nle_Fin in H. congruence. }
  rewrite Hq. cbn [nadd nmin nmax set_qi qi].
  eexists. split; [reflexivity |].
  split.
  - apply Rle_trans with (Rmin (q + g) qiCeiling); [| apply Rmax_r].
    apply Rmin_glb; lra.
  - apply Rmax_lub; [lra | apply Rmin_r].
Qed.

Lemma set_session_None (s : State) : session s = None -> set_session None s = s.
Proof. destruct s. cbn. now intros ->. Qed.

Lemma resume_session (BAL : Balance) (showPopup : bool) (now : Z) (w : World) :
  session (state (applyOfflineProgressOnResume BAL showPopup now w)) = None.
Proof.
  unfold applyOfflineProgressOnResume.
  destruct (session (state w)) as [snap |]; [| reflexivity].
  destruct (lastTs snap =? 0)%Z; [reflexivity |].
  destruct (nle _ _); [reflexivity |].
  destruct (_ <? 1)%Z; [reflexivity |].
  unfold offlineReplay.
  destruct (offlineAge BAL _ _) as [s' exceeded].
  destruct exceeded.
  - rewrite (beyondAging_session _ _ (checkLifespanGate_beyondAging BAL now _)).
    reflexivity.
  - destruct (showPopup && ngt _ _); reflexivity.
Qed.

(** X18. A snapshot is spent at most once.  Whatever a resume does, it
    leaves no session snapshot behind, and a second resume, at any later
    time, changes nothing: offline progress cannot be collected twice. *)
Theorem resume_consumes_snapshot
  (BAL : Balance) (p1 p2 : bool) (now1 now2 : Z) (w : World) :
  let w1 := applyOfflineProgressOnResume BAL p1 now1 w in
  session (state w1) = None
  /\ applyOfflineProgressOnResume BAL p2 now2 w1 = w1.
Proof.
  cbn zeta. pose proof (resume_session BAL p1 now1 w) as H.
  split; [exact H |].
  set (w1 := applyOfflineProgressOnResume BAL p1 now1 w) in *.
  unfold applyOfflineProgressOnResume at 1. rewrite H.
  rewrite set_session_None by exact H. apply set_state_same.
Qed.

(** X19. Nothing is earned while paused or within a second.  A resume
    that finds a snapshot taken less than 1000 ms earlier, or taken
    while the speed was 0, only drops the snapshot: Qi, age and
    everything else are as they were when the tab was left. *)
Theorem snapshot_resume_without_progress
  (BAL : Balance) (p : bool) (now now' : Z) (w : World) :
  (now' - now < 1000)%Z \/ ts_current (timeSpeed (state w)) = Fin 0 ->
  applyOfflineProgressOnResume BAL p now' (onS (saveSessionSnapshot now) w)
  = onS (set_session None) w.
Proof.
  intros H. unfold applyOfflineProgressOnResume, onS, saveSessionSnapshot.
  cbn [state set_state session set_session lastTs lastSpeed].
  assert (Hdone : set_state
                    (set_session None
                       (set_session
                          (Some
                             (mkSession now
                                (orElse (ts_current (timeSpeed (state w))) (Fin 0))
                                (realmIndex (state w)) (qi (state w))))
                          (state w)))
                    (set_state
                       (set_session
                          (Some
                             (mkSession now
                                (orElse (ts_current (timeSpeed (state w))) (Fin 0))
                                (realmIndex (state w)) (qi (state w))))
                          (state w)) w)
                  = set_state (set_session None (state w)) w) by reflexivity.
  destruct (now =? 0)%Z; [exact Hdone |].
  destruct (nle (orElse (orElse (ts_current (timeSpeed (state w))) (Fin 0)) (Fin 0))
              (Fin 0)) eqn:E; [exact Hdone |].
  destruct H as [H | H].
  - assert (Hs : (Z.max 0 ((now' - now) / 1000) <? 1)%Z = true).
    { apply Z.ltb_lt.
      assert ((now' - now) / 1000 < 1)%Z
        by (apply Z.div_lt_upper_bound; lia).
      lia. }
    rewrite Hs. exact Hdone.
  - exfalso. rewrite H in E. unfold orElse, truthy in E.
    destruct (Req_dec_T 0 0) as [_ | N]; [| lra].
    assert (E' : nle (Fin 0) (Fin 0) = true) by (apply nle_Fin; lra).
    unfold orElse, truthy in E.
    destruct (Req_dec_T 0 0) as [_ | N]; [| lra].
    congruence.
Qed.

(** The Qi stock after a producing step. *)
Lemma produce_qi_range
  (BAL : Balance) (a : Action) (w : World) (q : R) :
  produces a = true ->
  qi (state w) = Fin q -> 0 <= q <= qiCeiling ->
  exists q' : R, qi (state (act BAL a w)) = Fin q' /\ q <= q' <= qiCeiling.
Proof.
  intros Ha Hq Hr.
  assert (Hsame : exists q', qi (state w) = Fin q' /\ q <= q' <= qiCeiling)
    by (exists q; split; [exact Hq | lra]).
  destruct a as [now dt | | | p now | |]; try discriminate Ha; cbn [act].
  - unfold tick. split_head; try exact Hsame.
    rewrite (beyondAging_qi _ _ (checkLifespanGate_beyondAging BAL now _)).
    rewrite (beyondAging_qi _ _ (tickLifespan_beyondAging BAL now dt _)).
    unfold onS. cbn [state set_state qi set_reinc].
    now apply safeAddQi_range.
  - unfold onClick. split_head; try exact Hsame.
    unfold onS. cbn [state set_state qi set_reinc].
    now apply safeAddQi_range.
  - unfold applyOfflineProgressOnResume.
    destruct (session (state w)) as [snap |]; [| exact Hsame].
    destruct (lastTs snap =? 0)%Z; [exact Hsame |].
    destruct (nle _ _); [exact Hsame |].
    destruct (_ <? 1)%Z; [exact Hsame |].
    unfold offlineReplay.
    match goal with
    | |- context [offlineAge BAL ?y ?s] =>
        pose proof (beyondAging_qi _ _ (offlineAge_beyondAging BAL y s)) as Eq;
        destruct (offlineAge BAL y s) as [s' exceeded]
    end.
    cbn [fst] in Eq. rewrite norm_eq in Eq. cbn [qi set_age set_ageYears] in Eq.
    assert (G : exists q', qi s' = Fin q' /\ q <= q' <= qiCeiling).
    { rewrite Eq. destruct (ngt _ _); [| exact Hsame].
      cbn [qi set_reinc]. now apply safeAddQi_range. }
    destruct exceeded.
    + rewrite (beyondAging_qi _ _ (checkLifespanGate_beyondAging BAL now _)).
      exact G.
    + destruct (p && ngt _ _); exact G.
Qed.

(** X20. Producing never costs Qi.  A frame tick, a click or a resume
    leaves a Qi stock that was a real number in [0, 1e300] a real number
    in that range which is at least what it was. *)
Theorem production_never_removes_qi
  (BAL : Balance) (a : Action) (w : World) (q : R) :
  produces a = true ->
  qi (state w) = Fin q -> 0 <= q <= qiCeiling ->
  exists q' : R, qi (state (act BAL a w)) = Fin q' /\ q <= q' <= qiCeiling.
Proof. exact (produce_qi_range BAL a w q). Qed.

(** ** Sound numbers along a play *)

Lemma doBreakthrough_qi (BAL : Balance) (w : World) :
  let s := state w in
  let req := stageRequirement BAL s (realmIndex s) (stage s) in
  qi (state (doBreakthrough BAL w)) = qi s
  \/ (nlt (qi s) req = false
      /\ qi (state (doBreakthrough BAL w)) = nsub (qi s) req).
Proof.
  cbn zeta. unfold doBreakthrough.
  destruct (nlt _ _) eqn:E; [now left |]. right. split; [reflexivity |].
  split_head; rewrite ?triggerCycleTransition_state;
    cbn [state set_state show]; try reflexivity;
    unfold checkAndUnlockSpeeds, updateCurrentCycle, updateLifespanOnRealmAdvance;
    split_tests; reflexivity.
Qed.

Lemma stageRequirement_nonneg
  (BAL : Balance) (s : State) (r st : Z) (k : R) :
  pathOK BAL -> karma (reinc s) = Fin k -> 0 <= k ->
  exists q : R, stageRequirement BAL s r st = Fin q /\ 0 <= q.
Proof.
  intros (Hb & Hr & Hs) Hk Hk0.
  rewrite (stageRequirement_Fin BAL s r st k Hk Hk0).
  eexists. split; [reflexivity |].
  pose proof (karmaStageMult_ge_1 k Hk0) as Hm.
  apply floor_nonneg. apply Rmult_le_pos.
  - apply floor_nonneg.
    apply Rmult_le_pos; [apply Rmult_le_pos |];
      [exact Hb | left; now apply powerRZ_lt | left; now apply powerRZ_lt].
  - left. apply Rdiv_lt_0_compat; lra.
Qed.

Lemma checkAndUnlockSpeeds_notNegative (BAL : Balance) (s : State) :
  Forall (fun v => 0 <= v) (speeds BAL) ->
  Forall notNegative (unlockedSpeeds (meta s)) ->
  Forall notNegative (unlockedSpeeds (meta (checkAndUnlockSpeeds BAL s))).
Proof.
  intros Hb Hs. apply List.Forall_forall. intros y Hy.
  apply checkAndUnlockSpeeds_In in Hy.
  destruct Hy as [Hy | [Hy | (i & v & Hn & -> & _)]].
  - rewrite List.Forall_forall in Hs. now apply Hs.
  - destruct Hy as [<- | [<- | [<- | []]]]; cbn; lra.
  - rewrite List.Forall_forall in Hb. cbn. apply Hb.
    eapply nth_error_In. exact Hn.
Qed.

Lemma exec_unlockedSpeeds_notNegative
  (BAL : Balance) (c : Command) (w : World) :
  Forall (fun v => 0 <= v) (speeds BAL) ->
  Forall notNegative (unlockedSpeeds (meta (state w))) ->
  Forall notNegative (unlockedSpeeds (meta (state (exec BAL c w)))).
Proof.
  intros Hb Hs.
  destruct (exec_standing BAL c w) as [H | _ H | _ _ _ H | _ _ H _ _].
  - apply standing_inv in H. destruct H as (_ & _ & _ & -> & _). exact Hs.
  - apply standing_inv in H. destruct H as (_ & _ & _ & -> & _). exact Hs.
  - apply standing_inv in H. destruct H as (_ & _ & _ & -> & _).
    apply checkAndUnlockSpeeds_notNegative; [exact Hb |].
    match goal with
    | |- context [updateCurrentCycle BAL ?s0] =>
        destruct (updateCurrentCycle_meta BAL s0) as (-> & _)
    end.
    exact Hs.
  - now rewrite H.
Qed.

(** One step of [Action] keeps the world sound and the karma from
    falling. *)
Lemma act_sound (BAL : Balance) (a : Action) (w : World) (k0 : R) :
  soundBalance BAL -> forwardInTime a ->
  soundWorld BAL w ->
  (exists k, karma (reinc (state w)) = Fin k /\ k0 <= k) ->
  soundWorld BAL (act BAL a w)
  /\ exists k, karma (reinc (state (act BAL a w))) = Fin k /\ k0 <= k.
Proof.
  intros (Hmin & Hdiv & Hbal & Hshop & Hpath & Hspeeds) Ha
         ((Hok & Hprod & Hpend) & (k & Hk & Hk0) & (q & Hq & Hqr) & Hun)
         (k' & Hk' & Hle).
  assert (k' = k) by congruence. subst k'.
  destruct (act_stateOK BAL a w k Hbal Ha Hk Hk0 Hok Hprod) as [Hok' Hprod'].
  destruct (act_karma BAL a w k Hdiv Hok Hok' Hpend Hk)
    as ((r & Hkr & Hr) & Hpend').
  assert (Hr0 : 0 <= r) by (destruct (completesTransition a w); lra).
  split; [| exists (k + r); split; [exact Hkr | lra]].
  split; [exact (conj Hok' (conj Hprod' Hpend')) |].
  split; [exists (k + r); split; [exact Hkr | lra] |].
  split; [| exact (exec_unlockedSpeeds_notNegative BAL (CAct a) w Hspeeds Hun)].
  destruct (produces a) eqn:Hp.
  { destruct (produce_qi_range BAL a w q Hp Hq Hqr) as (q' & Hq' & Hr').
    exists q'. split; [exact Hq' | lra]. }
  destruct a as [now dt | | | p now | o now | now]; try discriminate Hp;
    cbn [act].
  - destruct (stageRequirement_nonneg BAL (state w) (realmIndex (state w))
                (stage (state w)) k Hpath Hk Hk0) as (rq & Hrq & Hrq0).
    destruct (doBreakthrough_qi BAL w) as [E | [Hn E]]; rewrite E.
    + now exists q.
    + rewrite Hq, Hrq in *. apply nlt_Fin_false in Hn.
      exists (q - rq). split; [reflexivity | lra].
  - destruct (doReincarnate_standing BAL o now w) as (_ & _ & _ & _ & _ & _ & E & _).
    rewrite E. exists 0. pose proof qiCeiling_pos. split; [reflexivity | lra].
  - destruct (awaitingDeath w) as [g |] eqn:E.
    + destruct (dismissDeathAlert_standing BAL now w g E)
        as (_ & _ & _ & _ & _ & _ & E' & _).
      rewrite E'. exists 0. pose proof qiCeiling_pos. split; [reflexivity | lra].
    + rewrite dismissDeathAlert_idle by exact E. now exists q.
Qed.

Lemma buySkill_state (BAL : Balance) (id : string) (w : World) :
  buySkill BAL id w = w
  \/ exists (sk : SkillBal) (c : num),
       getSkill BAL id = Some sk /\ skillCost BAL (state w) id = Some c
       /\ nlt (qi (state w)) c = false
       /\ buySkill BAL id w
          = set_state
              (state w
               |> set_qi (nsub (qi (state w)) c)
               |> set_skills
                    (<[id := (default 0 (skills (state w) !! id) + 1)%Z]>
                       (skills (state w))))
              w.
Proof.
  unfold buySkill.
  destruct (skillCost BAL (state w) id) as [c |] eqn:Ec; [| now left].
  destruct (nlt (qi (state w)) c) eqn:En; [now left |].
  right. unfold skillCost in Ec.
  destruct (getSkill BAL id) as [sk |] eqn:Es; [| discriminate Ec].
  exists sk, c. repeat split; try reflexivity; assumption.
Qed.

Lemma buySkill_sound (BAL : Balance) (id : string) (w : World) :
  shopOK BAL -> soundWorld BAL w -> soundWorld BAL (buySkill BAL id w).
Proof.
  intros Hshop Hw.
  destruct (buySkill_state BAL id w) as [-> | (sk & c & Hsk & Hc & Hn & ->)];
    [exact Hw |].
  destruct Hw as ((Hok & Hprod & Hpend) & Hk & (q & Hq & Hqr) & Hun).
  destruct (Hshop id sk Hsk) as [Hc0 Hs0].
  rewrite (skillCost_Some BAL _ id sk Hsk) in Hc. injection Hc as <-.
  pose proof (priceAt_nonneg sk (default 0%Z (skills (state w) !! id)) Hc0
                ltac:(lra)) as Hp0.
  rewrite Hq in Hn. apply nlt_Fin_false in Hn.
  split; [split; [exact Hok | split; [| exact Hpend]] |].
  - destruct Hprod as (H1 & H2 & H3 & H4 & H5 & H6).
    repeat split; try assumption.
    intros id0 l. cbn [state set_state skills set_skills].
    destruct (decide (id0 = id)) as [-> | Hne].
    + rewrite lookup_insert_eq. intros E. injection E as <-.
      destruct (skills (state w) !! id) as [l0 |] eqn:E0; cbn.
      * specialize (H6 id l0 E0). lia.
      * lia.
    + rewrite lookup_insert_ne by congruence. apply H6.
  - split; [exact Hk |]. split; [| exact Hun].
    cbn [state set_state qi set_qi set_skills]. rewrite Hq. cbn [nsub].
    eexists. split; [reflexivity | lra].
Qed.

Lemma setTimeSpeed_sound (BAL : Balance) (speed : num) (w : World) :
  soundWorld BAL w -> soundWorld BAL (onS (setTimeSpeed speed) w).
Proof.
  intros ((Hok & Hprod & Hpend) & Hk & Hq & Hun).
  destruct (setTimeSpeed_facts speed (state w)) as (Hin & Eg & _ & _ & _ & Es).
  unfold onS. rewrite Es.
  split; [split; [exact Hok | split; [| exact Hpend]] |
          split; [exact Hk | split; [exact Hq | exact Hun]]].
  destruct Hprod as (H1 & H2 & H3 & H4 & H5 & H6).
  repeat split; try assumption.
  cbn [state set_state timeSpeed set_timeSpeed].
  rewrite <- Eg. apply In_getAvailableSpeeds in Hin.
  destruct (standing_inv _ _ (setTimeSpeed_standing speed (state w)))
    as (_ & _ & _ & Em & _).
  rewrite Em in Hin.
  destruct Hin as [Hin | Hin].
  - destruct Hin as [<- | [<- | [<- | []]]]; cbn; lra.
  - rewrite List.Forall_forall in Hun. now apply Hun.
Qed.

(** One command keeps the world sound and the karma from falling. *)
Lemma exec_sound (BAL : Balance) (c : Command) (w : World) (k0 : R) :
  soundBalance BAL -> forwardCommand c ->
  soundWorld BAL w ->
  (exists k, karma (reinc (state w)) = Fin k /\ k0 <= k) ->
  soundWorld BAL (exec BAL c w)
  /\ exists k, karma (reinc (state (exec BAL c w))) = Fin k /\ k0 <= k.
Proof.
  intros Hbal Hc Hw Hk.
  destruct c as [a | id | v | now | | now]; cbn [exec].
  - now apply act_sound.
  - split; [apply buySkill_sound; [apply Hbal | exact Hw] |].
    destruct (buySkill_frame BAL id w) as (_ & _ & _ & _ & -> & _). exact Hk.
  - split; [now apply setTimeSpeed_sound |].
    destruct (setTimeSpeed_facts v (state w)) as (_ & _ & _ & _ & _ & Es).
    unfold onS. cbn [state set_state]. rewrite Es. exact Hk.
  - split; [exact Hw | exact Hk].
  - unfold tryManualReincarnate. destruct (negb _); split; assumption.
  - unfold confirmVoluntary.
    apply (act_sound BAL (AReincarnate (Some voluntary) now)
             (onS (set_life (mkLife false)) w) k0 Hbal I);
      assumption.
Qed.

Lemma play_sound (BAL : Balance) (cs : list Command) (k0 : R) :
  soundBalance BAL -> Forall forwardCommand cs ->
  forall w : World,
    soundWorld BAL w ->
    (exists k, karma (reinc (state w)) = Fin k /\ k0 <= k) ->
    soundWorld BAL (play BAL cs w)
    /\ exists k, karma (reinc (state (play BAL cs w))) = Fin k /\ k0 <= k.
Proof.
  intros Hbal Hcs. induction Hcs as [| c cs Hc Hcs IH]; intros w Hw Hk; cbn.
  - now split.
  - destruct (exec_sound BAL c w k0 Hbal Hc Hw Hk) as [Hw' Hk'].
    now apply IH.
Qed.

(** X21. The numbers stay sound.  Under a configuration without negative
    prices, requirements, production values or speeds, and as long as
    the frame loop hands [tick] time steps that are not negative,
    any play keeps the Qi stock a real number in
    [0, 1e300], the karma a real number that is at least what it was,
    and lifetime Qi, production values and unlocked speeds from turning
    negative.  No purchase or breakthrough overdraws, no step yields
    NaN. *)
Theorem play_keeps_numbers_sound
  (BAL : Balance) (cs : list Command) (w : World) (k0 : R) :
  soundBalance BAL -> Forall forwardCommand cs ->
  soundWorld BAL w -> karma (reinc (state w)) = Fin k0 ->
  soundWorld BAL (play BAL cs w)
  /\ (exists q : R,
        qi (state (play BAL cs w)) = Fin q /\ 0 <= q <= qiCeiling)
  /\ (exists k : R,
        karma (reinc (state (play BAL cs w))) = Fin k /\ k0 <= k).
Proof.
  intros Hbal Hcs Hw Hk.
  destruct (play_sound BAL cs k0 Hbal Hcs w Hw) as [Hs Hk'].
  { exists k0. split; [exact Hk | lra]. }
  split; [exact Hs | split; [apply Hs | exact Hk']].
Qed.

(** ** The breakthrough button and the gate *)

Lemma app_neq_self {A : Type} (l : list A) (x : A) : l ++ [x] <> l.
Proof.
  intros H. apply (f_equal (@length A)) in H.
  rewrite length_app in H. cbn in H. lia.
Qed.

Lemma triggerCycleTransition_ui (w : World) :
  exists e : Event, ui (triggerCycleTransition w) = ui w ++ [e].
Proof.
  unfold triggerCycleTransition. destruct (currentCycle (state w));
    eexists; reflexivity.
Qed.

(** X22. The breakthrough button acts exactly when it is enabled:
    [doBreakthrough] leaves the world as it was if and only if
    [canBreakthrough] is false, that is, if the Qi stock is below the
    stage requirement. *)
Theorem doBreakthrough_iff_canBreakthrough (BAL : Balance) (w : World) :
  doBreakthrough BAL w = w <-> canBreakthrough BAL (state w) = false.
Proof.
  unfold canBreakthrough, doBreakthrough.
  destruct (nlt (qi (state w))
              (stageRequirement BAL (state w) (realmIndex (state w))
                 (stage (state w)))) eqn:E.
  { split; reflexivity. }
  split; [| destruct (_ && _ && _); discriminate].
  intros H. exfalso. revert H.
  cbn [stage set_qi realmIndex flags].
  destruct (stage (state w) <? 10)%Z.
  { intros H. apply (f_equal (fun w => stage (state w))) in H.
    cbn in H. lia. }
  destruct ((realmIndex (state w) =? 4)%Z
            && negb (unlockedBeyondSpirit (flags (state w)))).
  { intros H. apply (f_equal ui) in H. cbn in H. now apply app_neq_self in H. }
  destruct (isAtCycleEnd _).
  { intros H. apply (f_equal ui) in H.
    match type of H with
    | ui (triggerCycleTransition ?w0) = _ =>
        destruct (triggerCycleTransition_ui w0) as (e & He)
    end.
    rewrite He in H. cbn in H. now apply app_neq_self in H. }
  destruct (realmIndex (state w) <? realms_length - 1)%Z.
  - intros H. apply (f_equal (fun w => standing (state w))) in H.
    revert H.
    match goal with
    | |- context [if ?c then _ else _] => destruct c
    end; cbn [state set_state show]; intros H;
      apply standing_inv in H; destruct H as (H & _); revert H;
      rewrite (proj1 (checkAndUnlockSpeeds_fields BAL _));
      rewrite (proj1 (proj2 (updateCurrentCycle_meta BAL _)));
      rewrite (proj1 (standing_inv _ _
                        (updateLifespanOnRealmAdvance_standing BAL _)));
      cbn; lia.
  - intros H. apply (f_equal ui) in H.
    match type of H with
    | ui (triggerCycleTransition ?w0) = _ =>
        destruct (triggerCycleTransition_ui w0) as (e & He)
    end.
    rewrite He in H. cbn in H. now apply app_neq_self in H.
Qed.

(** X23. Only the gate unlocks.  A command changes one of the four unlock
    flags only if it is the mandatory reincarnation confirmed at Spirit
    Transformation stage 10, and that command sets all four; voluntary
    reincarnations, deaths and everything else leave them as they are. *)
Theorem unlocks_change_only_at_the_gate
  (BAL : Balance) (c : Command) (w : World) :
  unlocks (flags (state (exec BAL c w))) <> unlocks (flags (state w)) ->
  (exists now : Z, c = CAct (AReincarnate (Some mandatory) now))
  /\ realmIndex (state w) = 4%Z /\ stage (state w) = 10%Z
  /\ unlocks (flags (state (exec BAL c w))) = (true, true, true, true).
Proof.
  intros Hne.
  destruct (quiet c) eqn:Q.
  { exfalso. apply Hne.
    pose proof (quiet_standing BAL c w Q) as H.
    now apply standing_inv in H. }
  destruct c as [[now dt | | | p now | o now | now] | id | v | now | | now];
    try discriminate Q; cbn [exec act] in *.
  - exfalso. apply Hne.
    destruct (doBreakthrough_standing BAL w) as [H | [[_ H] | (_ & _ & _ & H)]];
      apply standing_inv in H; destruct H as (_ & _ & _ & _ & ->);
      [reflexivity | reflexivity |].
    rewrite (proj2 (proj2 (proj2 (checkAndUnlockSpeeds_fields BAL _)))).
    rewrite (proj2 (proj2 (proj2 (updateCurrentCycle_meta BAL _)))).
    reflexivity.
  - destruct (doReincarnate_standing BAL o now w) as (_ & _ & _ & _ & H & _).
    destruct (isMandatoryMode (modeOf o)) eqn:Em;
      [| exfalso; apply Hne; exact H].
    destruct ((realmIndex (state w) =? 4)%Z && (stage (state w) =? 10)%Z) eqn:Eg;
      [| exfalso; apply Hne; exact H].
    apply andb_prop in Eg. destruct Eg as [E1 E2].
    apply Z.eqb_eq in E1, E2.
    repeat split; try assumption.
    exists now. destruct o as [[| |] |]; try discriminate Em. reflexivity.
  - exfalso. apply Hne. destruct (awaitingDeath w) as [g |] eqn:E.
    + now destruct (dismissDeathAlert_standing BAL now w g E)
        as (_ & _ & _ & _ & H & _).
    + now rewrite dismissDeathAlert_idle.
  - exfalso. apply Hne. unfold confirmVoluntary.
    now destruct (doReincarnate_standing BAL (Some voluntary) now
                    (onS (set_life (mkLife false)) w))
      as (_ & _ & _ & _ & H & _).
Qed.

(** ** The simulator *)

(** X24. The completion simulator computes the live production in the
    first realm: at realm 0, or with a realm skill bonus of 0, and a
    karma that is a real number, [totalQPS_for] and [totalQPC_for] give
    what [totalQPS] and [totalQPC] give on the same state. *)
Theorem simulator_production_in_first_realm
  (BAL : Balance) (bonus : R) (st : State) (k : R) :
  karma (reinc st) = Fin k ->
  realmIndex st = 0%Z \/ bonus = 0 ->
  totalQPS_for BAL bonus st = totalQPS BAL st
  /\ totalQPC_for BAL bonus st = totalQPC BAL st.
Proof.
  intros Hk Hr.
  assert (Ek : orElse (karma (reinc st)) (Fin 0) = karma (reinc st)).
  { rewrite Hk. unfold orElse, truthy.
    destruct (Req_dec_T k 0) as [-> | _]; reflexivity. }
  assert (Eb : forall id, baseEff_for BAL bonus st id = baseEff BAL id).
  { intros id. unfold baseEff_for, baseEff.
    destruct (getSkill BAL id) as [sk |]; [| reflexivity].
    cbn [nmul nadd]. f_equal.
    destruct Hr as [-> | ->]; cbn; lra. }
  unfold totalQPS_for, totalQPC_for, totalQPS, totalQPC.
  now rewrite Ek, !Eb.
Qed.

Lemma noGateShown_refl (w w' : World) : ui w' = ui w -> noGateShown w w'.
Proof. intros H. exists []. rewrite app_nil_r. split; [exact H | intros []]. Qed.

Lemma noGateShown_trans (w1 w2 w3 : World) :
  noGateShown w1 w2 -> noGateShown w2 w3 -> noGateShown w1 w3.
Proof.
  intros (e1 & E1 & N1) (e2 & E2 & N2). exists (e1 ++ e2). split.
  - now rewrite E2, E1, app_assoc.
  - intros H. apply in_app_or in H. tauto.
Qed.

Lemma noGateShown_show (w w0 : World) (e : Event) :
  ui w0 = ui w -> e <> ConfirmSpiritGate -> noGateShown w (show e w0).
Proof.
  intros H He. exists [e]. split; [cbn; now rewrite H |].
  intros [E | []]. now apply He.
Qed.

Lemma handleLifespanEnd_noGate (BAL : Balance) (now : Z) (w : World) :
  noGateShown w (handleLifespanEnd BAL now w).
Proof.
  unfold handleLifespanEnd. split_tests; [now apply noGateShown_refl |].
  match goal with
  | |- noGateShown _ (set_awaitingDeath _ (show ?e ?w0)) =>
      exists [e]; split; [reflexivity | intros [E | []]; discriminate E]
  end.
Qed.

Lemma tickLifespan_noGate (BAL : Balance) (now : Z) (dt : num) (w : World) :
  noGateShown w (tickLifespan BAL now dt w).
Proof.
  unfold tickLifespan.
  split_tests; try (now apply noGateShown_refl);
    match goal with
    | |- noGateShown _ (handleLifespanEnd _ _ ?w0) =>
        apply (noGateShown_trans _ w0);
        [now apply noGateShown_refl | apply handleLifespanEnd_noGate]
    end.
Qed.

Lemma checkLifespanGate_noGate (BAL : Balance) (now : Z) (w : World) :
  noGateShown w (checkLifespanGate BAL now w).
Proof.
  unfold checkLifespanGate.
  split_tests; try (now apply noGateShown_refl);
    match goal with
    | |- noGateShown _ (handleLifespanEnd _ _ ?w0) =>
        apply (noGateShown_trans _ w0);
        [now apply noGateShown_refl | apply handleLifespanEnd_noGate]
    end.
Qed.

Lemma tick_noGate (BAL : Balance) (now : Z) (dt : num) (w : World) :
  noGateShown w (tick BAL now dt w).
Proof.
  unfold tick.
  destruct (neq _ _); [now apply noGateShown_refl |].
  destruct (isReincarnating _); [now apply noGateShown_refl |].
  destruct (isHandlingDeath w); [now apply noGateShown_refl |].
  match goal with
  | |- noGateShown _ (checkLifespanGate _ _ (tickLifespan _ _ _ ?w0)) =>
      apply (noGateShown_trans _ w0); [now apply noGateShown_refl |];
      apply (noGateShown_trans _ (tickLifespan BAL now dt w0));
      [apply tickLifespan_noGate | apply checkLifespanGate_noGate]
  end.
Qed.

Lemma onClick_ui (BAL : Balance) (w : World) : ui (onClick BAL w) = ui w.
Proof. unfold onClick. split_tests; reflexivity. Qed.

Lemma resume_noGate (BAL : Balance) (p : bool) (now : Z) (w : World) :
  noGateShown w (applyOfflineProgressOnResume BAL p now w).
Proof.
  unfold applyOfflineProgressOnResume.
  destruct (session (state w)) as [snap |]; [| now apply noGateShown_refl].
  destruct (lastTs snap =? 0)%Z; [now apply noGateShown_refl |].
  destruct (nle _ _); [now apply noGateShown_refl |].
  destruct (_ <? 1)%Z; [now apply noGateShown_refl |].
  unfold offlineReplay.
  destruct (offlineAge BAL _ _) as [s' exceeded].
  destruct exceeded.
  - match goal with
    | |- noGateShown _ (checkLifespanGate _ _ ?w0) =>
        apply (noGateShown_trans _ w0);
        [now apply noGateShown_refl | apply checkLifespanGate_noGate]
    end.
  - destruct (p && ngt _ _); [| now apply noGateShown_refl].
    apply noGateShown_show; [reflexivity | discriminate].
Qed.

Lemma doReincarnate_noGate
  (BAL : Balance) (o : option Mode) (now : Z) (w : World) :
  noGateShown w (doReincarnate BAL o now w).
Proof.
  unfold doReincarnate. apply noGateShown_show; [reflexivity | discriminate].
Qed.

Lemma dismissDeathAlert_ui (BAL : Balance) (now : Z) (w : World) :
  ui (dismissDeathAlert BAL now w) = ui w.
Proof. unfold dismissDeathAlert. now destruct (awaitingDeath w). Qed.

Lemma triggerCycleTransition_noGate (w w0 : World) :
  ui w0 = ui w -> noGateShown w (triggerCycleTransition w0).
Proof.
  intros H. unfold triggerCycleTransition.
  destruct (currentCycle (state w0));
    (apply noGateShown_show; [exact H | discriminate]).
Qed.

Lemma doBreakthrough_noGate (BAL : Balance) (w : World) :
  unlockedBeyondSpirit (flags (state w)) = true ->
  noGateShown w (doBreakthrough BAL w).
Proof.
  intros Hf. unfold doBreakthrough.
  destruct (nlt _ _); [now apply noGateShown_refl |].
  cbn [stage set_qi realmIndex flags]. rewrite Hf. cbn [negb].
  rewrite andb_false_r.
  destruct (stage (state w) <? 10)%Z; [now apply noGateShown_refl |].
  destruct (isAtCycleEnd _); [now apply triggerCycleTransition_noGate |].
  destruct (realmIndex (state w) <? realms_length - 1)%Z;
    [| now apply triggerCycleTransition_noGate].
  match goal with
  | |- context [if ?c then _ else _] => destruct c
  end; [apply noGateShown_show; [reflexivity | discriminate] |
        now apply noGateShown_refl].
Qed.

Lemma buySkill_ui (BAL : Balance) (id : string) (w : World) :
  ui (buySkill BAL id w) = ui w.
Proof. unfold buySkill. split_tests; reflexivity. Qed.

Lemma exec_noGate (BAL : Balance) (c : Command) (w : World) :
  unlockedBeyondSpirit (flags (state w)) = true ->
  noGateShown w (exec BAL c w).
Proof.
  intros Hf.
  destruct c as [[now dt | | | p now | o now | now] | id | v | now | | now];
    cbn [exec act].
  - apply tick_noGate.
  - apply noGateShown_refl, onClick_ui.
  - now apply doBreakthrough_noGate.
  - apply resume_noGate.
  - apply doReincarnate_noGate.
  - apply noGateShown_refl, dismissDeathAlert_ui.
  - apply noGateShown_refl, buySkill_ui.
  - now apply noGateShown_refl.
  - now apply noGateShown_refl.
  - unfold tryManualReincarnate.
    destruct (negb _); (apply noGateShown_show; [reflexivity | discriminate]).
  - unfold confirmVoluntary.
    apply (noGateShown_trans _ (onS (set_life (mkLife false)) w));
      [now apply noGateShown_refl | apply doReincarnate_noGate].
Qed.

Lemma exec_keeps_unlockedBeyondSpirit
  (BAL : Balance) (c : Command) (w : World) :
  unlockedBeyondSpirit (flags (state w)) = true ->
  unlockedBeyondSpirit (flags (state (exec BAL c w))) = true.
Proof.
  intros Hf.
  assert (G : forall s', unlocks (flags s') = unlocks (flags (state w)) ->
                unlockedBeyondSpirit (flags s') = true).
  { intros s' E. unfold unlocks in E. injection E as -> _ _ _. exact Hf. }
  destruct (exec_standing BAL c w) as [H | _ H | _ _ _ H | _ _ _ _ H].
  - apply G. now apply standing_inv in H.
  - apply G. apply standing_inv in H. apply H.
  - apply G. apply standing_inv in H. destruct H as (_ & _ & _ & _ & ->).
    rewrite (proj2 (proj2 (proj2 (checkAndUnlockSpeeds_fields BAL _)))).
    rewrite (proj2 (proj2 (proj2 (updateCurrentCycle_meta BAL _)))).
    reflexivity.
  - destruct H as [H | H]; [now apply G |].
    unfold unlocks in H. now injection H.
Qed.

(** X25. The gate appears only once.  Once the flag that opens the realms
    beyond Spirit Transformation is set, no play makes the gate
    dialog of the mandatory reincarnation appear again. *)
Theorem the_gate_appears_only_once
  (BAL : Balance) (cs : list Command) (w : World) :
  unlockedBeyondSpirit (flags (state w)) = true ->
  exists ext : list Event,
    ui (play BAL cs w) = ui w ++ ext /\ ~ In ConfirmSpiritGate ext.
Proof.
  intros Hf.
  assert (G : unlockedBeyondSpirit (flags (state (play BAL cs w))) = true
              /\ noGateShown w (play BAL cs w)).
  { apply (play_invariant BAL
             (fun w' => unlockedBeyondSpirit (flags (state w')) = true
                        /\ noGateShown w w')).
    - intros c w' [Hf' Hn]. split.
      + now apply exec_keeps_unlockedBeyondSpirit.
      + apply (noGateShown_trans _ w'); [exact Hn | now apply exec_noGate].
    - split; [exact Hf | now apply noGateShown_refl]. }
  exact (proj2 G).
Qed.

(** ** The theorems at work on examples *)

Lemma getSkill_breath_control (BAL : Balance) :
  getSkill BAL "breath_control" = Some (breath_control BAL).
Proof. reflexivity. Qed.

(** Breathing Control at level 0 and at level 1. *)
Lemma skillCost_nondecreasing_witness :
  exists c1 c2 : R,
    skillCost defaultBAL (defaultState defaultBAL 0) "breath_control" = Some (Fin c1)
    /\ skillCost defaultBAL st_level1 "breath_control" = Some (Fin c2)
    /\ 0 <= c1 <= c2.
Proof.
  assert (Hc : 0 <= cost (breath_control defaultBAL)) by (simpl; lra).
  assert (Hs : 1 <= costScale (breath_control defaultBAL)) by (simpl; lra).
  assert (Hl : (0 <= default 0 (skills (defaultState defaultBAL 0)
                                   !! "breath_control"%string)
                <= default 0 (skills st_level1 !! "breath_control"%string))%Z).
  { change (skills (defaultState defaultBAL 0)) with (∅ : gmap string Z).
    change (skills st_level1)
      with (<["breath_control"%string := 1%Z]> (∅ : gmap string Z)).
    rewrite lookup_empty, lookup_insert_eq. cbn. lia. }
  exact (skillCost_nondecreasing defaultBAL (defaultState defaultBAL 0)
           st_level1 "breath_control" (breath_control defaultBAL)
           (getSkill_breath_control defaultBAL) Hc Hs Hl).
Defined.

Lemma w_shopper_price :
  skillCost defaultBAL (state w_shopper) "breath_control" = Some (Fin 25).
Proof.
  rewrite (skillCost_Some defaultBAL _ _ _ (getSkill_breath_control defaultBAL)).
  change (skills (state w_shopper)) with (∅ : gmap string Z).
  rewrite lookup_empty. unfold priceAt. do 3 f_equal.
  apply Zfloor_eq. simpl. lra.
Qed.

(** A cultivator with 100 Qi buys the first level of Breathing Control
    for 25 Qi. *)
Lemma buySkill_spends_price_witness :
  qi (state (buySkill defaultBAL "breath_control" w_shopper)) = Fin (100 - 25)
  /\ skills (state (buySkill defaultBAL "breath_control" w_shopper))
       !! "breath_control"%string
     = Some (default 0 (skills (state w_shopper) !! "breath_control"%string)
             + 1)%Z.
Proof.
  assert (Hc : 0 <= cost (breath_control defaultBAL)) by (simpl; lra).
  assert (Hs : 0 < costScale (breath_control defaultBAL)) by (simpl; lra).
  destruct (proj2 (buySkill_spends_price defaultBAL "breath_control" w_shopper)
              (breath_control defaultBAL) 100
              (getSkill_breath_control defaultBAL) Hc Hs eq_refl)
    as (c & Ec & _ & _ & Hbuy).
  rewrite w_shopper_price in Ec. injection Ec as <-.
  assert (H : 25 <= 100) by lra.
  destruct (Hbuy H) as (Hq & _ & Hl & _).
  exact (conj Hq Hl).
Defined.

Lemma w_shopper_production : productionOK (state w_shopper).
Proof.
  apply (productionOK_ext (defaultState defaultBAL 0));
    [reflexivity .. | apply defaultState_production, defaultBAL_OK].
Qed.

Lemma w_shopper_totalQPS : totalQPS defaultBAL (state w_shopper) = Fin 0.
Proof.
  unfold totalQPS, skillLevel.
  change (skills (state w_shopper)) with (∅ : gmap string Z).
  rewrite !lookup_empty.
  change (karma (reinc (state w_shopper))) with (Fin 0).
  change (realmIndex (state w_shopper)) with 0%Z.
  rewrite karmaQiMult_0, cyclePowerMult_0. cbn. f_equal. lra.
Qed.

Lemma w_shopper_totalQPC : totalQPC defaultBAL (state w_shopper) = Fin 1.
Proof.
  unfold totalQPC, skillLevel.
  change (skills (state w_shopper)) with (∅ : gmap string Z).
  rewrite !lookup_empty.
  change (karma (reinc (state w_shopper))) with (Fin 0).
  change (realmIndex (state w_shopper)) with 0%Z.
  rewrite karmaQiMult_0, cyclePowerMult_0. cbn. f_equal. lra.
Qed.

(** The same purchase, seen from the production. *)
Lemma buySkill_never_lowers_production_witness :
  exists p' c' : R,
    totalQPS defaultBAL (state (buySkill defaultBAL "breath_control" w_shopper))
    = Fin p'
    /\ totalQPC defaultBAL
         (state (buySkill defaultBAL "breath_control" w_shopper)) = Fin c'
    /\ 0 <= p' /\ 1 <= c'.
Proof.
  assert (H0 : 0 <= 0) by lra.
  exact (buySkill_never_lowers_production defaultBAL "breath_control" w_shopper
           0 0 1 defaultBAL_OK w_shopper_production eq_refl H0
           w_shopper_totalQPS w_shopper_totalQPC).
Defined.

Lemma speed_2_locked :
  ~ In (Fin 2) (getAvailableSpeeds (defaultState defaultBAL 0)).
Proof.
  rewrite In_getAvailableSpeeds. unfold baseSpeedsAlwaysAvailable. cbn.
  intros [[H | [H | [H | []]]] | [H | [H | [H | []]]]];
    injection H as H; lra.
Qed.

(** A fresh state asks for speed 2, which is still locked, and gets 1. *)
Lemma setTimeSpeed_selects_available_witness :
  getTimeSpeed (setTimeSpeed (Fin 2) (defaultState defaultBAL 0)) = Fin 1.
Proof.
  exact (proj1 (proj2 (proj2 (proj2
           (setTimeSpeed_selects_available (Fin 2) (defaultState defaultBAL 0)))))
           speed_2_locked).
Defined.

(** The unlocked speeds of a fresh state. *)
Lemma getAvailableSpeeds_ascending_witness :
  StronglySorted (fun a b => nlt a b = true)
    (getAvailableSpeeds (defaultState defaultBAL 0)).
Proof.
  assert (H : Forall (fun x => isFinite x = true)
                (unlockedSpeeds (meta (defaultState defaultBAL 0))))
    by (repeat constructor).
  exact (getAvailableSpeeds_ascending (defaultState defaultBAL 0) H).
Defined.

(** Stage 3 of realm 0 against stage 4 of realm 1, on a fresh state. *)
Lemma stageRequirement_nondecreasing_witness :
  exists q1 q2 : R,
    stageRequirement defaultBAL (defaultState defaultBAL 0) 0 3 = Fin q1
    /\ stageRequirement defaultBAL (defaultState defaultBAL 0) 1 4 = Fin q2
    /\ 0 <= q1 <= q2.
Proof.
  assert (H1 : 0 <= realmBase defaultBAL) by (simpl; lra).
  assert (H2 : 1 <= realmBaseScale defaultBAL) by (simpl; lra).
  assert (H3 : 1 <= stageScale defaultBAL) by (simpl; lra).
  assert (H4 : 0 <= 0) by lra.
  assert (H5 : (0 <= 0 <= 1)%Z) by lia.
  assert (H6 : (1 <= 3 <= 4)%Z) by lia.
  exact (stageRequirement_nondecreasing defaultBAL (defaultState defaultBAL 0)
           0 1 3 4 0 H1 H2 H3 eq_refl H4 H5 H6).
Defined.

(** No karma against 5 karma, at stage 3 of realm 0. *)
Lemma stageRequirement_karma_eases_witness :
  exists q1 q2 : R,
    stageRequirement defaultBAL (defaultState defaultBAL 0) 0 3 = Fin q1
    /\ stageRequirement defaultBAL st_karma5 0 3 = Fin q2
    /\ 0 <= q2 <= q1
    /\ q1 <= IZR (Zfloor (realmBase defaultBAL
                          * powerRZ (realmBaseScale defaultBAL) 0
                          * powerRZ (stageScale defaultBAL) (3 - 1))).
Proof.
  assert (H1 : 0 <= realmBase defaultBAL) by (simpl; lra).
  assert (H2 : 0 < realmBaseScale defaultBAL) by (simpl; lra).
  assert (H3 : 0 < stageScale defaultBAL) by (simpl; lra).
  assert (H4 : 0 <= 0 <= 5) by lra.
  exact (stageRequirement_karma_eases defaultBAL (defaultState defaultBAL 0)
           st_karma5 0 3 0 5 H1 H2 H3 eq_refl eq_refl H4).
Defined.

(** The lifespan of the first realm without karma and with 5 karma. *)
Lemma getMaxLifespan_karma_extends_witness :
  exists M1 M2 : R,
    getMaxLifespan defaultBAL None (defaultState defaultBAL 0) = Some (Fin M1)
    /\ getMaxLifespan defaultBAL None st_karma5 = Some (Fin M2)
    /\ IZR (Zfloor 100) <= M1 <= M2
    /\ M2 <= IZR (Zfloor (2.5 * 100)).
Proof.
  assert (H1 : 0 < 100) by lra.
  assert (H2 : 0 <= 0 <= 5) by lra.
  exact (getMaxLifespan_karma_extends defaultBAL None
           (defaultState defaultBAL 0) st_karma5 100 0 5
           eq_refl eq_refl H1 eq_refl eq_refl H2).
Defined.

(** The speeds 0, 0.5 and 1 on a fresh state. *)
Lemma checkAndUnlockSpeeds_grows_idempotent_witness :
  In (Fin 1)
    (unlockedSpeeds
       (meta (checkAndUnlockSpeeds defaultBAL (defaultState defaultBAL 0)))).
Proof.
  apply (proj1 (proj2 (checkAndUnlockSpeeds_grows_idempotent defaultBAL
                         (defaultState defaultBAL 0)))).
  right; right; left; reflexivity.
Defined.

(** An afternoon of play after the gate. *)
Lemma play_unlocks_are_kept_witness :
  unlockedBeyondSpirit (flags (state (play defaultBAL anAfternoon w_transcended)))
  = true.
Proof.
  apply (proj1 (play_unlocks_are_kept defaultBAL anAfternoon w_transcended)).
  reflexivity.
Defined.

Lemma w_shopper_inBounds : inBounds (state w_shopper).
Proof. unfold inBounds. cbn. lia. Qed.

Lemma play_keeps_bounds_witness :
  inBounds (state (play defaultBAL anAfternoon w_shopper)).
Proof.
  exact (play_keeps_bounds defaultBAL anAfternoon w_shopper w_shopper_inBounds).
Defined.

Lemma w_shopper_cycle : cycleMatchesRealm (state w_shopper).
Proof. split; intros H; [reflexivity | cbn in H; lia]. Qed.

Lemma play_cycle_matches_realm_witness :
  cycleMatchesRealm (state (play defaultBAL anAfternoon w_shopper)).
Proof.
  exact (play_cycle_matches_realm defaultBAL anAfternoon w_shopper
           eq_refl eq_refl w_shopper_cycle).
Defined.

Lemma w_aging_alive : alive w_aging.
Proof. repeat split. Qed.

(** A life of 10 years ends. *)
Lemma death_alert_stops_time_witness :
  getTimeSpeed (state (handleLifespanEnd defaultBAL 5 w_aging)) = Fin 0
  /\ run defaultBAL [ATick 6 (Fin 1); AClick]
       (handleLifespanEnd defaultBAL 5 w_aging)
     = handleLifespanEnd defaultBAL 5 w_aging.
Proof.
  destruct (death_alert_stops_time defaultBAL 5 w_aging w_aging_alive)
    as (_ & _ & Hs & _ & _ & _ & Hr).
  split; [exact Hs | apply Hr; reflexivity].
Defined.

(** The same life, once the alert is dismissed. *)
Lemma death_then_rebirth_witness :
  let w2 := dismissDeathAlert defaultBAL 7 (handleLifespanEnd defaultBAL 5 w_aging) in
  alive w2 /\ awaitingDeath w2 = None
  /\ timeSpeed (state w2) = mkTimeSpeed (Fin 1) false.
Proof.
  destruct (death_then_rebirth defaultBAL 5 7 w_aging w_aging_alive)
    as (H1 & H2 & H3 & _).
  exact (conj H1 (conj H2 H3)).
Defined.

Lemma w_aging_max : getMaxLifespan defaultBAL None (state w_aging) = Some (Fin 100).
Proof. apply getMaxLifespan_fresh; reflexivity. Qed.

Lemma w_aging_age : ageAfterInit (state w_aging) = 10.
Proof. reflexivity. Qed.

(** At the age of 10, a step of 100 seconds at speed 1 adds one year. *)
Lemma tickLifespan_death_at_max_witness :
  age (state (tickLifespan defaultBAL 5 (Fin 100) w_aging))
  = Some (Fin (ageAfterInit (state w_aging) + 100 * 1 * yearsPerSecond defaultBAL)).
Proof.
  assert (H0 : 0 <= 100) by lra.
  assert (H1 : 0 < 1) by lra.
  assert (H2 : 0 < yearsPerSecond defaultBAL) by (simpl; lra).
  assert (H3 : 0 < 100) by lra.
  assert (H4 : 0 <= ageAfterInit (state w_aging)) by (rewrite w_aging_age; lra).
  assert (H5 : ageAfterInit (state w_aging) + 100 * 1 * yearsPerSecond defaultBAL
               < 100)
    by (rewrite w_aging_age; change (yearsPerSecond defaultBAL) with 0.01; lra).
  exact (proj1 (proj2 (tickLifespan_death_at_max defaultBAL 5 w_aging 100 1 100
                         w_aging_alive eq_refl eq_refl w_aging_max H0
                         eq_refl H1 H2 H3 H4) H5)).
Defined.

(** A snapshot resumed half a second later. *)
Lemma snapshot_resume_without_progress_witness :
  applyOfflineProgressOnResume defaultBAL true 1500
    (onS (saveSessionSnapshot 1000) w_shopper)
  = onS (set_session None) w_shopper.
Proof.
  assert (H : (1500 - 1000 < 1000)%Z) by lia.
  exact (snapshot_resume_without_progress defaultBAL true 1000 1500 w_shopper
           (or_introl H)).
Defined.

(** A click with 100 Qi in stock. *)
Lemma production_never_removes_qi_witness :
  exists q' : R,
    qi (state (act defaultBAL AClick w_shopper)) = Fin q'
    /\ 100 <= q' <= qiCeiling.
Proof.
  assert (H : 0 <= 100 <= qiCeiling) by (split; [lra | exact qiCeiling_large]).
  exact (production_never_removes_qi defaultBAL AClick w_shopper 100
           eq_refl eq_refl H).
Defined.

Lemma defaultBAL_shop : shopOK defaultBAL.
Proof.
  intros id sk H. unfold getSkill, getSkillCatalog in H.
  cbn [List.find fst] in H.
  repeat match type of H with
         | context [if ?c then _ else _] => destruct c
         end; inversion H; subst; simpl; lra.
Qed.

Lemma defaultBAL_sound : soundBalance defaultBAL.
Proof.
  split; [simpl; lra |]. split; [simpl; lra |].
  split; [exact defaultBAL_OK |]. split; [exact defaultBAL_shop |].
  split; [repeat split; simpl; lra |].
  repeat constructor; lra.
Qed.

Lemma w_shopper_sound : soundWorld defaultBAL w_shopper.
Proof.
  split; [| split; [| split]].
  - split; [cbn; lra | split].
    + exact w_shopper_production.
    + intros g Hg. discriminate Hg.
  - exists 0. split; [reflexivity | lra].
  - exists 100. split; [reflexivity | split; [lra | exact qiCeiling_large]].
  - repeat constructor; cbn; lra.
Qed.

Lemma anAfternoon_forward : Forall forwardCommand anAfternoon.
Proof. repeat constructor; cbn; lra. Qed.

(** The shopper's afternoon. *)
Lemma play_keeps_numbers_sound_witness :
  soundWorld defaultBAL (play defaultBAL anAfternoon w_shopper)
  /\ (exists q : R,
        qi (state (play defaultBAL anAfternoon w_shopper)) = Fin q
        /\ 0 <= q <= qiCeiling)
  /\ (exists k : R,
        karma (reinc (state (play defaultBAL anAfternoon w_shopper))) = Fin k
        /\ 0 <= k).
Proof.
  exact (play_keeps_numbers_sound defaultBAL anAfternoon w_shopper 0
           defaultBAL_sound anAfternoon_forward w_shopper_sound eq_refl).
Defined.

Lemma w_gate_unlocks :
  unlocks (flags (state (exec defaultBAL
                           (CAct (AReincarnate (Some mandatory) 5)) w_gate)))
  <> unlocks (flags (state w_gate)).
Proof.
  cbn [exec act].
  destruct (doReincarnate_standing defaultBAL (Some mandatory) 5 w_gate)
    as (_ & _ & _ & _ & H & _).
  rewrite H. discriminate.
Qed.

(** The mandatory reincarnation at the gate. *)
Lemma unlocks_change_only_at_the_gate_witness :
  unlocks (flags (state (exec defaultBAL
                           (CAct (AReincarnate (Some mandatory) 5)) w_gate)))
  = (true, true, true, true).
Proof.
  exact (proj2 (proj2 (proj2
           (unlocks_change_only_at_the_gate defaultBAL
              (CAct (AReincarnate (Some mandatory) 5)) w_gate w_gate_unlocks)))).
Defined.

(** A fresh state, with the simulator's bonus of 0.2 per realm. *)
Lemma simulator_production_in_first_realm_witness :
  totalQPS_for defaultBAL 0.2 (defaultState defaultBAL 0)
  = totalQPS defaultBAL (defaultState defaultBAL 0)
  /\ totalQPC_for defaultBAL 0.2 (defaultState defaultBAL 0)
     = totalQPC defaultBAL (defaultState defaultBAL 0).
Proof.
  exact (simulator_production_in_first_realm defaultBAL 0.2
           (defaultState defaultBAL 0) 0 eq_refl (or_introl eq_refl)).
Defined.

(** An afternoon of play after the gate opens no gate dialog. *)
Lemma the_gate_appears_only_once_witness :
  exists ext : list Event,
    ui (play defaultBAL anAfternoon w_transcended) = ui w_transcended ++ ext
    /\ ~ In ConfirmSpiritGate ext.
Proof.
  exact (the_gate_appears_only_once defaultBAL anAfternoon w_transcended eq_refl).
Defined.

(** ** A clock that runs backwards *)

(** With a negative lifetime Qi the square root of the karma formula is
    NaN, and so is every gain computed from it. *)
Lemma computeKarmaGain_negative (BAL : Balance) (s : State) (l : R) :
  lifetimeQi (reinc s) = Fin l -> l < 0 -> 0 < lifetimeQiDivisor BAL ->
  computeKarmaGain BAL s = NaN.
Proof.
  intros Hl Hneg Hdiv. unfold computeKarmaGain. rewrite Hl.
  unfold safeNum; cbn [isFinite]. rewrite ndiv_Fin by lra.
  assert (Hq : l / lifetimeQiDivisor BAL < 0).
  { apply Rmult_neg_pos; [exact Hneg | now apply Rinv_0_lt_compat]. }
  cbn [nsqrt]. destruct (Rlt_dec (l / lifetimeQiDivisor BAL) 0); [| lra].
  destruct (currentCycle s); reflexivity.
Qed.

Lemma karma_gain_negative (BAL : Balance) (s : State) (l : R) (dying : bool) :
  lifetimeQi (reinc s) = Fin l -> l < 0 -> 0 < lifetimeQiDivisor BAL ->
  (if dying then computeDeathKarma BAL s else computeVoluntaryKarma BAL s)
  = NaN.
Proof.
  intros Hl Hneg Hdiv.
  unfold computeDeathKarma, computeVoluntaryKarma.
  rewrite (computeKarmaGain_negative BAL s l Hl Hneg Hdiv).
  destruct dying; [| reflexivity].
  destruct (deathPenalty BAL) as [p |]; [| reflexivity].
  unfold orElse. destruct (truthy (Fin p)); reflexivity.
Qed.

(** [doReincarnate] then stores a karma of NaN, in every mode. *)
Lemma doReincarnate_negative
  (BAL : Balance) (options : option Mode) (now : Z) (w : World) (l : R) :
  lifetimeQi (reinc (state w)) = Fin l -> l < 0 -> 0 < lifetimeQiDivisor BAL ->
  karma (reinc (state (doReincarnate BAL options now w))) = NaN.
Proof.
  intros Hl Hneg Hdiv.
  set (s1 := state w
             |> set_lifecycle
                  (lifecycle (state w)
                   |> set_isReincarnating true |> set_lastReincarnateAt now)).
  pose proof (karma_gain_negative BAL s1 l (isDeathMode (modeOf options))
                Hl Hneg Hdiv) as Hgain.
  unfold doReincarnate. fold s1. rewrite Hgain.
  assert (Hk : nadd (karma (reinc s1)) NaN = NaN)
    by (destruct (karma (reinc s1)); reflexivity).
  rewrite Hk. unfold updateCurrentCycle.
  split_tests; reflexivity.
Qed.

(** So does the dismissal of a death alert that holds NaN. *)
Lemma dismissDeathAlert_NaN (BAL : Balance) (now : Z) (w : World) :
  awaitingDeath w = Some NaN ->
  karma (reinc (state (dismissDeathAlert BAL now w))) = NaN.
Proof.
  intros H. unfold dismissDeathAlert. rewrite H. cbn.
  destruct (orElse (karma (reinc (state w))) (Fin 0)); reflexivity.
Qed.

(** An aging step over a time that is not positive changes nothing. *)
Lemma tickLifespan_backwards (BAL : Balance) (now : Z) (t : R) (w : World) :
  t <= 0 -> tickLifespan BAL now (Fin t) w = w.
Proof.
  intros Ht. unfold tickLifespan.
  destruct (paused (timeSpeed (state w)) || isDead (state w)); [reflexivity |].
  destruct (isImmortal BAL (state w)); [reflexivity |].
  destruct (isReincarnating (lifecycle (state w))); [reflexivity |].
  destruct (nle _ (Fin 0)); [reflexivity |].
  cbn [nmax]. rewrite Rmax_left by exact Ht. now rewrite neq_0_0.
Qed.

(** A frame tick over a negative time takes nothing from the Qi stock
    and does not change the age, but it adds its negative gain to the
    lifetime Qi. *)
Lemma tick_backwards
  (BAL : Balance) (now : Z) (w : World) (t v p l a M : R) :
  isHandlingDeath w = false ->
  isReincarnating (lifecycle (state w)) = false ->
  paused (timeSpeed (state w)) = false ->
  ts_current (timeSpeed (state w)) = Fin v -> 0 < v ->
  totalQPS BAL (state w) = Fin p -> 0 <= p ->
  lifetimeQi (reinc (state w)) = Fin l ->
  age (state w) = Some (Fin a) ->
  getMaxLifespan BAL None (state w) = Some (Fin M) -> a < M ->
  t <= 0 ->
  tick BAL now (Fin t) w
  = (w |> onS (fun s =>
       s |> set_reinc (reinc s |> set_lifetimeQi (Fin (l + p * (t * v)))))).
Proof.
  intros Hh Hr Hp Hv Hv0 HQ Hp0 Hl Ha HM HaM Ht.
  unfold tick, getTimeSpeed. rewrite Hp, Hv, Hr, Hh, HQ.
  destruct (neq (Fin v) (Fin 0)) eqn:E; [apply neq_Fin in E; lra | clear E].
  cbn [nmul].
  assert (Hs : safeAddQi (Fin (p * (t * v))) (state w) = state w).
  { unfold safeAddQi. cbn [isFinite negb orb].
    destruct (nle (Fin (p * (t * v))) (Fin 0)) eqn:E; [reflexivity |].
    assert (Htv : t * v <= 0) by nra.
    assert (E' : nle (Fin (p * (t * v))) (Fin 0) = true)
      by (apply nle_Fin; nra).
    congruence. }
  unfold onS at 2. rewrite Hs, set_state_same.
  unfold onS. cbn [state]. rewrite Hl. cbn [nadd safeNum isFinite].
  rewrite tickLifespan_backwards by exact Ht.
  apply (checkLifespanGate_live BAL now _ a M); [| exact Ha | exact HaM].
  rewrite <- HM. now apply getMaxLifespan_ext.
Qed.

(** An aging step that reaches the maximum lifespan opens the death
    alert, with the death karma of the state it finds. *)
Lemma tickLifespan_triggers_death
  (BAL : Balance) (now : Z) (w : World) (t v M : R) :
  alive w ->
  paused (timeSpeed (state w)) = false ->
  lifespanHandled (flags (state w)) = false ->
  getMaxLifespan BAL None (state w) = Some (Fin M) -> 0 <= M ->
  ts_current (timeSpeed (state w)) = Fin v -> 0 < v ->
  0 < yearsPerSecond BAL -> 0 < t ->
  0 <= ageAfterInit (state w) ->
  M <= ageAfterInit (state w) + t * v * yearsPerSecond BAL ->
  awaitingDeath (tickLifespan BAL now (Fin t) w)
  = Some (computeDeathKarma BAL (state w))
  /\ isReincarnating (lifecycle (state (tickLifespan BAL now (Fin t) w))) = true.
Proof.
  intros (Hh & Hr & Hd) Hp Hlatch HM HM0 Hv Hv0 Hy Ht Ha Hx.
  assert (Hstep : 0 < t * v * yearsPerSecond BAL)
    by (repeat apply Rmult_lt_0_compat; lra).
  unfold tickLifespan.
  rewrite Hp, Hd, (isImmortal_false _ _ _ HM), Hr, Hv. cbn [orb].
  rewrite orElse_Fin by lra.
  destruct (nle (Fin v) (Fin 0)) eqn:E; [apply nle_Fin in E; lra | clear E].
  cbn [nmax].
  destruct (neq (Fin (Rmax 0 t)) (Fin 0)) eqn:E;
    [apply neq_Fin in E; rewrite Rmax_right in E by lra; lra | clear E].
  rewrite baseYearsPerSecond_Fin by lra.
  rewrite norm_eq. cbn [nmul ageNum age set_age set_ageYears nadd isFinite negb].
  rewrite (getMaxLifespan_ext BAL None _ (state w)) by reflexivity.
  rewrite HM. cbn [nmin nmax lifespan set_age set_ageYears].
  rewrite (Rmax_right 0 t) by lra.
  set (x := ageAfterInit (state w) + t * v * yearsPerSecond BAL) in *.
  replace (Rmax 0 (Rmin x M)) with M
    by (rewrite Rmin_right by lra; now rewrite Rmax_right).
  assert (E : nge (Fin M) (Fin M) = true)
    by (unfold nge; apply nle_Fin; lra).
  destruct (ls_max (lifespan (state w))) as [lmax |];
    cbn [ageNum age set_lifespan set_age set_ageYears flags];
    rewrite Hlatch, E; cbn [negb andb];
    rewrite handleLifespanEnd_alive by (repeat split; assumption);
    cbn [state set_state awaitingDeath lifecycle set_timeSpeed set_lifecycle
           set_isDead isReincarnating set_isReincarnating set_lastDeathAt];
    (split; [| reflexivity]); f_equal; now apply computeDeathKarma_ext.
Qed.

Lemma safeAddQi_frame (x : num) (s : State) :
  exists q : num, safeAddQi x s = set_qi q s.
Proof.
  unfold safeAddQi. destruct (negb (isFinite x) || nle x (Fin 0)).
  - exists (qi s). now destruct s.
  - eexists. reflexivity.
Qed.

(** A frame tick at the end of a life whose lifetime Qi is still
    negative: the death alert it opens holds NaN. *)
Lemma tick_death_NaN
  (BAL : Balance) (now : Z) (w : World) (t v p l M : R) :
  alive w ->
  paused (timeSpeed (state w)) = false ->
  lifespanHandled (flags (state w)) = false ->
  getMaxLifespan BAL None (state w) = Some (Fin M) -> 0 <= M ->
  ts_current (timeSpeed (state w)) = Fin v -> 0 < v ->
  0 < yearsPerSecond BAL -> 0 < t ->
  0 <= ageAfterInit (state w) ->
  M <= ageAfterInit (state w) + t * v * yearsPerSecond BAL ->
  totalQPS BAL (state w) = Fin p ->
  lifetimeQi (reinc (state w)) = Fin l -> l + p * (t * v) < 0 ->
  0 < lifetimeQiDivisor BAL ->
  awaitingDeath (tick BAL now (Fin t) w) = Some NaN
  /\ karma (reinc (state (tick BAL now (Fin t) w))) = karma (reinc (state w)).
Proof.
  intros Hal Hp Hlatch HM HM0 Hv Hv0 Hy Ht Ha Hx HQ Hl Hneg Hdiv.
  pose proof Hal as (Hh & Hr & Hd).
  unfold tick, getTimeSpeed. rewrite Hp, Hv, Hr, Hh, HQ.
  destruct (neq (Fin v) (Fin 0)) eqn:E; [apply neq_Fin in E; lra | clear E].
  cbn [nmul].
  destruct (safeAddQi_frame (Fin (p * (t * v))) (state w)) as (q & Eq).
  unfold onS. cbn [state set_state]. rewrite Eq.
  cbn [reinc set_qi lifetimeQi]. rewrite Hl. cbn [nadd safeNum isFinite].
  match goal with
  | |- context [tickLifespan BAL now (Fin t) ?w0] => set (w' := w0)
  end.
  assert (Hl' : lifetimeQi (reinc (state w')) = Fin (l + p * (t * v)))
    by reflexivity.
  assert (HM' : getMaxLifespan BAL None (state w') = Some (Fin M))
    by (rewrite <- HM; now apply getMaxLifespan_ext).
  assert (Ha' : ageAfterInit (state w') = ageAfterInit (state w))
    by (now apply migrate_ext).
  destruct (tickLifespan_triggers_death BAL now w' t v M)
    as (Haw & Hre); try assumption; try (rewrite Ha'; assumption).
  assert (Hgate : checkLifespanGate BAL now (tickLifespan BAL now (Fin t) w')
                  = tickLifespan BAL now (Fin t) w').
  { unfold checkLifespanGate. rewrite Hre, orb_true_r.
    now destruct (isImmortal BAL _). }
  rewrite Hgate. split.
  - rewrite Haw. f_equal.
    exact (karma_gain_negative BAL (state w') _ true Hl' Hneg Hdiv).
  - now rewrite tickLifespan_reinc.
Qed.

Lemma st_late_life_totalQPS : totalQPS defaultBAL st_late_life = Fin 0.5.
Proof.
  unfold totalQPS, skillLevel.
  change (skills st_late_life)
    with (<["breath_control"%string := 1%Z]> (∅ : gmap string Z)).
  rewrite lookup_insert_eq, lookup_insert_ne, lookup_empty by discriminate.
  change (karma (reinc st_late_life)) with (Fin 0).
  change (realmIndex st_late_life) with 0%Z.
  rewrite karmaQiMult_0, cyclePowerMult_0. cbn. f_equal. lra.
Qed.

(** C7. Karma does not survive a clock that is set back.  [loop] takes
    the step of a frame from [Date.now()], so a clock set back by six
    hours hands [tick] a step of -21600 seconds.  [safeAddQi] ignores
    the negative gain and [tickLifespan] clamps the step at 0, but [tick]
    adds the gain to the lifetime Qi as it is: with one level of
    Breathing Control the 5000 lifetime Qi of the example become -5800,
    while Qi stock and age stay as they were.  From then on the square
    root of the karma formula is NaN.  When the life ends two seconds
    later the death alert holds a gain of NaN, and its dismissal replaces
    a karma of 0 by NaN: the karma after the transition is not greater
    than or equal to the karma before it.  A reincarnation by choice, or
    in any other mode, would have stored NaN as well. *)
Theorem clock_set_back_poisons_karma :
  let w1 := act defaultBAL (ATick 0 (Fin (-21600))) w_late_life in
  let w2 := act defaultBAL (ATick 0 (Fin 2)) w1 in
  let w3 := act defaultBAL (ADismissDeath 0) w2 in
  w3 = run defaultBAL clockSetBack w_late_life
  /\ karma (reinc (state w_late_life)) = Fin 0
  /\ (lifetimeQi (reinc (state w1)) = Fin (-5800)
      /\ qi (state w1) = qi (state w_late_life)
      /\ age (state w1) = age (state w_late_life))
  /\ awaitingDeath w2 = Some NaN
  /\ karma (reinc (state w3)) = NaN
  /\ nge (karma (reinc (state w3))) (karma (reinc (state w_late_life))) = false
  /\ (forall (options : option Mode) (now : Z),
        karma (reinc (state (doReincarnate defaultBAL options now w1))) = NaN).
Proof.
  cbn zeta. cbn [act].
  assert (HM : getMaxLifespan defaultBAL None (state w_late_life)
               = Some (Fin 100)) by (apply getMaxLifespan_fresh; reflexivity).
  assert (Hyps : 0 < yearsPerSecond defaultBAL) by (simpl; lra).
  assert (Hdiv : 0 < lifetimeQiDivisor defaultBAL) by (simpl; lra).
  assert (E1 : tick defaultBAL 0 (Fin (-21600)) w_late_life
               = (w_late_life |> onS (fun s =>
                    s |> set_reinc (reinc s |> set_lifetimeQi (Fin (-5800)))))).
  { assert (H1 : 0 < 1) by lra. assert (H5 : 0 <= 0.5) by lra.
    assert (H9 : 99.99 < 100) by lra. assert (Ht : -21600 <= 0) by lra.
    rewrite (tick_backwards defaultBAL 0 w_late_life (-21600) 1 0.5 5000
               99.99 100 eq_refl eq_refl eq_refl eq_refl H1
               st_late_life_totalQPS H5 eq_refl eq_refl HM H9 Ht).
    unfold onS. do 5 f_equal. lra. }
  split; [reflexivity |]. rewrite E1.
  set (w1 := w_late_life |> onS (fun s =>
               s |> set_reinc (reinc s |> set_lifetimeQi (Fin (-5800))))).
  assert (Hl1 : lifetimeQi (reinc (state w1)) = Fin (-5800)) by reflexivity.
  destruct (tick_death_NaN defaultBAL 0 w1 2 1 0.5 (-5800) 100)
    as (Haw & Hk); try reflexivity; try lra.
  { repeat split. }
  { rewrite <- HM. now apply getMaxLifespan_ext. }
  { change (ageAfterInit (state w1)) with 99.99. lra. }
  { change (ageAfterInit (state w1)) with 99.99.
    change (yearsPerSecond defaultBAL) with 0.01. lra. }
  { unfold w1, onS. cbn [state set_state].
    rewrite <- st_late_life_totalQPS. unfold totalQPS, skillLevel. reflexivity. }
  assert (HN : karma (reinc (state (dismissDeathAlert defaultBAL 0
                                      (tick defaultBAL 0 (Fin 2) w1)))) = NaN)
    by (now apply dismissDeathAlert_NaN).
  split; [reflexivity |].
  split; [repeat split |]. split; [exact Haw |]. split; [exact HN |].
  split; [rewrite HN; reflexivity |].
  intros options now.
  apply (doReincarnate_negative defaultBAL options now w1 (-5800));
    [exact Hl1 | lra | exact Hdiv].
Qed.
